(** * Heads-up hold'em decision engine: game model and its properties

    A shallow embedding of the JavaScript sources

      - [lib/action_model.cjs]   (legal actions, action targets),
      - [lib/infoset_v1.cjs]     (board texture, SPR and HS bands, keys),
      - [server_fullgame.cjs]    (hand state machine, settlement, equity
                                  estimator, range beliefs, realtime solver),
      - [scripts/train_blueprint_v1_postflop.cjs] (blueprint trainer).

    Numbers.  JavaScript numbers are modelled by exact rationals [Q], with
    [==] for their equality.  With the default blinds and stacks the chip
    amounts are dyadic rationals of small size, on which the arithmetic of
    doubles is exact; for probabilities, equities and regrets the rounding
    of doubles is left out.  Where a
    function is specified on NaN and the infinities (the band functions of
    the infoset key) its input has type [JsNum], which adds those three
    values to [Q].

    Effects.  Objects mutated in place ([state], [sess], the node table of
    the trainer) are passed and returned explicitly.  [Math.random] is a
    draw from an explicit source, [Date.now] a reading of an explicit
    clock, and the hand evaluator of the external package
    [poker-evaluator] is a parameter.  Logging and the diagnostic counters
    are left out. *)

From Stdlib Require Import QArith Qround Qabs ZArith List String Ascii Bool Lia Lqa.
From Stdlib Require Import DecimalString.
From stdpp Require Import gmap strings list.
Import ListNotations.
Open Scope Q_scope.

(** ** JavaScript numeric helpers *)

Module Js.

(** [Math.max(a, b)] and [Math.min(a, b)] on finite numbers. *)
Definition Math_max (a b : Q) : Q := if Qle_bool a b then b else a.
Definition Math_min (a b : Q) : Q := if Qle_bool a b then a else b.

(** [a < b] as a test. *)
Definition Qlt_bool (a b : Q) : bool := negb (Qle_bool b a).

(** [Math.floor]. *)
Definition Math_floor (x : Q) : Z := Qfloor x.

(** [Number(x.toFixed(d))]: the multiple of [10^-d] nearest to [x]; the
    digits are those of [|x|], rounded up on a tie, under the sign of [x]. *)
Definition toFixed (d : nat) (x : Q) : Q :=
  let scale := (10 ^ Z.of_nat d)%Z in
  let n := Qfloor (Qabs x * inject_Z scale + (1 # 2)) in
  Qmake (if Qlt_bool x 0 then - n else n)%Z (Z.to_pos scale).

(** A JavaScript number: a rational, NaN, or an infinity. *)
Inductive JsNum : Type :=
  | JNaN
  | JPosInf
  | JNegInf
  | JFin (q : Q).

(** [Number.isFinite(x)]. *)
Definition isFinite (x : JsNum) : bool :=
  match x with JFin _ => true | _ => false end.

(** [x < c] for a finite [c]. *)
Definition js_lt (x : JsNum) (c : Q) : bool :=
  match x with
  | JFin q => Qlt_bool q c
  | JNegInf => true
  | JPosInf | JNaN => false
  end.

(** [x || 0]: NaN and 0 are falsy. *)
Definition or_zero (x : JsNum) : JsNum :=
  match x with
  | JNaN => JFin 0
  | JFin q => if Qeq_bool q 0 then JFin 0 else JFin q
  | _ => x
  end.

(** [Math.min] and [Math.max] on all numbers. *)
Definition js_min (a b : JsNum) : JsNum :=
  match a, b with
  | JNaN, _ | _, JNaN => JNaN
  | JNegInf, _ | _, JNegInf => JNegInf
  | JPosInf, x | x, JPosInf => x
  | JFin p, JFin q => JFin (Math_min p q)
  end.

Definition js_max (a b : JsNum) : JsNum :=
  match a, b with
  | JNaN, _ | _, JNaN => JNaN
  | JPosInf, _ | _, JPosInf => JPosInf
  | JNegInf, x | x, JNegInf => x
  | JFin p, JFin q => JFin (Math_max p q)
  end.

(** [x * c] for a finite [c > 0]. *)
Definition js_scale (x : JsNum) (c : Q) : JsNum :=
  match x with
  | JFin q => JFin (q * c)
  | _ => x
  end.

(** [Math.floor] on all numbers. *)
Definition js_floor (x : JsNum) : JsNum :=
  match x with
  | JFin q => JFin (inject_Z (Qfloor q))
  | _ => x
  end.

(** The decimal digits of an integer. *)
Definition string_of_Z (z : Z) : string :=
  NilZero.string_of_int (Z.to_int z).

(** [String(x)] inside a template literal, for NaN, the infinities and the
    integers; the printing of other numbers is not modelled ([None]). *)
Definition js_to_string (x : JsNum) : option string :=
  match x with
  | JNaN => Some "NaN"
  | JPosInf => Some "Infinity"
  | JNegInf => Some "-Infinity"
  | JFin q =>
      if Qeq_bool q (inject_Z (Qfloor q))
      then Some (string_of_Z (Qfloor q))
      else None
  end%string.

End Js.

Import Js.

(** ** The hand state shared by the engine and the trainer *)

(** The action enumeration [A] of [lib/action_model.cjs], in index order. *)
Inductive Action : Set :=
  | FOLD | CHECK | CALL | BET_HALF | BET_POT | RAISE_HALF | RAISE_POT | ALL_IN.

Definition Action_eq_dec (a b : Action) : {a = b} + {a <> b}.
Proof. decide equality. Defined.

Definition action_eqb (a b : Action) : bool :=
  if Action_eq_dec a b then true else false.

(** The value of [A.X]. *)
Definition action_index (a : Action) : nat :=
  match a with
  | FOLD => 0 | CHECK => 1 | CALL => 2 | BET_HALF => 3
  | BET_POT => 4 | RAISE_HALF => 5 | RAISE_POT => 6 | ALL_IN => 7
  end%nat.

Definition all_actions : list Action :=
  [FOLD; CHECK; CALL; BET_HALF; BET_POT; RAISE_HALF; RAISE_POT; ALL_IN].

Definition actionNames (a : Action) : string :=
  match a with
  | FOLD => "FOLD" | CHECK => "CHECK" | CALL => "CALL"
  | BET_HALF => "BET_HALF_POT" | BET_POT => "BET_POT"
  | RAISE_HALF => "RAISE_HALF_POT" | RAISE_POT => "RAISE_POT"
  | ALL_IN => "ALL_IN"
  end%string.

(** Seat indices 0 and 1; [other p] is [1 - p]. *)
Inductive Seat : Set := Seat0 | Seat1.

Definition other (p : Seat) : Seat :=
  match p with Seat0 => Seat1 | Seat1 => Seat0 end.

Definition seat_index (p : Seat) : Z :=
  match p with Seat0 => 0%Z | Seat1 => 1%Z end.

(** Two-element arrays [commit], [stack], [acted]. *)
Definition get2 {T : Type} (v : T * T) (p : Seat) : T :=
  match p with Seat0 => fst v | Seat1 => snd v end.

Definition set2 {T : Type} (v : T * T) (p : Seat) (x : T) : T * T :=
  match p with Seat0 => (x, snd v) | Seat1 => (fst v, x) end.

(** A card is a two-character string, rank then suit. *)
Definition card : Set := string.

(** The [state] object.  [street] is [None] where the source stores
    [undefined] ([streets[i]] for [i > 3]); [board] is only present on the
    trainer's states (the engine keeps the board on the session). *)
Record HandState : Type := mkState {
  streetIdx : nat;
  street : option string;
  pot : Q;
  currentBet : Q;
  commit : Q * Q;
  stack : Q * Q;
  raises : Z;
  consecutiveChecks : Z;
  acted : bool * bool;
  history : string;
  terminal : bool;
  winner : Z;
  toAct : Seat;
  board : list card
}.

(** The numeric configuration read from the environment. *)
Record Config : Type := mkConfig {
  START_STACK : Q;
  SMALL_BLIND : Q;
  BIG_BLIND : Q;
  MAX_RAISES : Z
}.

Definition default_config : Config :=
  {| START_STACK := 200; SMALL_BLIND := 1; BIG_BLIND := 2; MAX_RAISES := 3 |}.

Definition eps : Q := 0.000000001.

Definition streets : list string :=
  ["preflop"; "flop"; "turn"; "river"]%string.

(** [Math.max(0, state.currentBet - state.commit[p])]. *)
Definition toCallOf (s : HandState) (p : Seat) : Q :=
  Math_max 0 (currentBet s - get2 (commit s) p).

(** [legal.includes(a)]. *)
Definition includes_action (legal : list Action) (a : Action) : bool :=
  existsb (action_eqb a) legal.

(** ** lib/action_model.cjs *)

Module ActionModel.

(** [legalActions(state, maxRaises, _bigBlind)]. *)
Definition legalActions (s : HandState) (maxRaises : Z) (_bigBlind : Q)
  : list Action :=
  if terminal s then []
  else
    let p := toAct s in
    let toCall := Math_max 0 (currentBet s - get2 (commit s) p) in
    let stack_p := get2 (stack s) p in
    let unopened := Qle_bool toCall eps in
    let isPreflop := Nat.eqb (streetIdx s) 0 in
    if unopened then
      [CHECK] ++
      (if Qlt_bool eps stack_p then
         if isPreflop then [RAISE_HALF; RAISE_POT; ALL_IN]
         else [BET_HALF; BET_POT; ALL_IN]
       else [])
    else
      [FOLD; CALL] ++
      (if Qlt_bool (toCall + eps) stack_p && Z.ltb (raises s) maxRaises
       then [RAISE_HALF; RAISE_POT] else []) ++
      (if Qlt_bool (toCall + eps) stack_p then [ALL_IN] else []).

(** [actionTarget(state, act, bigBlind)]. *)
Definition actionTarget (s : HandState) (act : Action) (bigBlind : Q) : Q :=
  let p := toAct s in
  let toCall := Math_max 0 (currentBet s - get2 (commit s) p) in
  let isPreflop := Nat.eqb (streetIdx s) 0 in
  let commit_p := get2 (commit s) p in
  let stack_p := get2 (stack s) p in
  match act with
  | FOLD | CHECK => commit_p
  | CALL => commit_p + Math_min stack_p toCall
  | BET_HALF => commit_p + Math_min stack_p (Math_max 1 (pot s * 0.5))
  | BET_POT => commit_p + Math_min stack_p (Math_max 1 (pot s))
  | RAISE_HALF =>
      let desired :=
        if isPreflop then Math_max (toCall * 2) (bigBlind * 2)
        else Math_max toCall (Math_max 1 (pot s * 0.5)) in
      currentBet s + Math_min stack_p desired
  | RAISE_POT =>
      let desired :=
        if isPreflop then Math_max (toCall * 3) (bigBlind * 3)
        else Math_max toCall (Math_max 1 (pot s)) in
      currentBet s + Math_min stack_p desired
  | ALL_IN => commit_p + stack_p
  end.

End ActionModel.

(** ** lib/infoset_v1.cjs *)

Module InfosetV1.

(** The object returned by [texture]. *)
Record Texture : Type := mkTexture {
  paired : bool;
  twoTone : bool;
  monotone : bool;
  connected : bool
}.

(** [s.indexOf(c)] for a character [c], from position [i]. *)
Fixpoint indexOf_from (c : ascii) (s : string) (i : Z) : Z :=
  match s with
  | EmptyString => (-1)%Z
  | String d rest => if Ascii.eqb c d then i else indexOf_from c rest (i + 1)%Z
  end.

(** [rankValue(card)]; on the empty string [card[0]] is [undefined], which
    [indexOf] does not find. *)
Definition rankValue (c : card) : Z :=
  match c with
  | String r _ => (indexOf_from r "23456789TJQKA" 0 + 2)%Z
  | EmptyString => (-1 + 2)%Z
  end.

(** The number of keys of [suitCounts(board)]: the distinct [card[1]]. *)
Definition suitCounts_size (board : list card) : nat :=
  length (remove_dups (map (String.get 1) board)).

(** [isPaired(board)], with the set [seen] of the loop. *)
Fixpoint isPaired_from (seen : list (option ascii)) (board : list card)
  : bool :=
  match board with
  | [] => false
  | c :: rest =>
      let r := String.get 0 c in
      if bool_decide (r ∈ seen) then true
      else isPaired_from (r :: seen) rest
  end.

Definition isPaired (board : list card) : bool := isPaired_from [] board.

Definition isMonotone (board : list card) : bool :=
  if (length board <? 3)%nat then false
  else Nat.eqb (suitCounts_size board) 1.

Definition isTwoTone (board : list card) : bool :=
  if (length board <? 3)%nat then false
  else Nat.eqb (suitCounts_size board) 2.

(** [values.sort((a, b) => a - b)]. *)
Fixpoint insert_sorted (x : Z) (l : list Z) : list Z :=
  match l with
  | [] => [x]
  | y :: rest => if (x <=? y)%Z then x :: l else y :: insert_sorted x rest
  end.

Definition sort_numbers (l : list Z) : list Z :=
  fold_right insert_sorted [] l.

(** The loop counting the neighbours at distance at most 2. *)
Fixpoint closePairs (values : list Z) : nat :=
  match values with
  | a :: (b :: _) as rest =>
      ((if (b - a <=? 2)%Z then 1 else 0) + closePairs rest)%nat
  | _ => 0%nat
  end.

Definition isConnected (board : list card) : bool :=
  if (length board <? 3)%nat then false
  else
    let values := sort_numbers (remove_dups (map rankValue board)) in
    if (length values <? 3)%nat then false
    else (2 <=? closePairs values)%nat.

Definition texture (board : list card) : Texture :=
  {| paired := isPaired board;
     twoTone := isTwoTone board;
     monotone := isMonotone board;
     connected := isConnected board |}.

Definition bit (b : bool) : string := if b then "1" else "0".

Definition textureBits (tex : Texture) : string :=
  bit (paired tex) +:+ bit (twoTone tex) +:+ bit (monotone tex)
  +:+ bit (connected tex).

Definition sprBand (spr : JsNum) : string :=
  if negb (isFinite spr) then "8_plus"
  else if js_lt spr 1 then "0_1"
  else if js_lt spr 2 then "1_2"
  else if js_lt spr 4 then "2_4"
  else if js_lt spr 8 then "4_8"
  else "8_plus".

Definition hsBand (hs : JsNum) : JsNum :=
  let clamped := js_max (JFin 0) (js_min (JFin 0.999999) (or_zero hs)) in
  js_max (JFin 0) (js_min (JFin 9) (js_floor (js_scale clamped 10))).

Definition positionLabelHU (player : Seat) : string :=
  match player with Seat1 => "IP" | Seat0 => "OOP" end.

(** [resolveStreet(state)]; the empty string is falsy. *)
Definition resolveStreet (s : HandState) : string :=
  match street s with
  | Some (String c rest) => String c rest
  | _ => default "flop" (streets !! streetIdx s)
  end.

(** [buildInfosetKey({ state, player, hs, spr, tex })]; [None] for [spr] and
    [tex] is an omitted (or [null]) argument.  The result is [None] only if
    the band of [hs] were a number whose printing is not modelled. *)
Definition buildInfosetKey (s : HandState) (player : Seat) (hs : JsNum)
  (spr : option JsNum) (tex : option Texture) : option string :=
  let street := resolveStreet s in
  let toCall := Math_max 0 (currentBet s - get2 (commit s) player) in
  let betState := if Qlt_bool eps toCall then "facingBet" else "unopened" in
  let effectiveSpr :=
    match spr with
    | None =>
        if Qlt_bool 0 (pot s)
        then JFin (get2 (stack s) player / Math_max 1 (pot s))
        else JPosInf
    | Some v => v
    end in
  let textureValue := default (texture (board s)) tex in
  let raises := Z.max 0 (raises s) in
  match js_to_string (hsBand hs) with
  | Some band =>
      Some (street +:+ "|" +:+ positionLabelHU player
            +:+ "|tex=" +:+ textureBits textureValue
            +:+ "|spr=" +:+ sprBand effectiveSpr
            +:+ "|" +:+ betState
            +:+ "|r=" +:+ string_of_Z raises
            +:+ "|hs=" +:+ band)
  | None => None
  end.

End InfosetV1.

(** Field assignments [state.f = v]. *)

Definition set_streetIdx (s : HandState) (v : nat) : HandState :=
  mkState v (street s) (pot s) (currentBet s) (commit s) (stack s)
    (raises s) (consecutiveChecks s) (acted s) (history s) (terminal s)
    (winner s) (toAct s) (board s).

Definition set_street (s : HandState) (v : option string) : HandState :=
  mkState (streetIdx s) v (pot s) (currentBet s) (commit s) (stack s)
    (raises s) (consecutiveChecks s) (acted s) (history s) (terminal s)
    (winner s) (toAct s) (board s).

Definition set_pot (s : HandState) (v : Q) : HandState :=
  mkState (streetIdx s) (street s) v (currentBet s) (commit s) (stack s)
    (raises s) (consecutiveChecks s) (acted s) (history s) (terminal s)
    (winner s) (toAct s) (board s).

Definition set_currentBet (s : HandState) (v : Q) : HandState :=
  mkState (streetIdx s) (street s) (pot s) v (commit s) (stack s) (raises s)
    (consecutiveChecks s) (acted s) (history s) (terminal s) (winner s)
    (toAct s) (board s).

Definition set_commit (s : HandState) (v : Q * Q) : HandState :=
  mkState (streetIdx s) (street s) (pot s) (currentBet s) v (stack s)
    (raises s) (consecutiveChecks s) (acted s) (history s) (terminal s)
    (winner s) (toAct s) (board s).

Definition set_stack (s : HandState) (v : Q * Q) : HandState :=
  mkState (streetIdx s) (street s) (pot s) (currentBet s) (commit s) v
    (raises s) (consecutiveChecks s) (acted s) (history s) (terminal s)
    (winner s) (toAct s) (board s).

Definition set_raises (s : HandState) (v : Z) : HandState :=
  mkState (streetIdx s) (street s) (pot s) (currentBet s) (commit s)
    (stack s) v (consecutiveChecks s) (acted s) (history s) (terminal s)
    (winner s) (toAct s) (board s).

Definition set_consecutiveChecks (s : HandState) (v : Z) : HandState :=
  mkState (streetIdx s) (street s) (pot s) (currentBet s) (commit s)
    (stack s) (raises s) v (acted s) (history s) (terminal s) (winner s)
    (toAct s) (board s).

Definition set_acted (s : HandState) (v : bool * bool) : HandState :=
  mkState (streetIdx s) (street s) (pot s) (currentBet s) (commit s)
    (stack s) (raises s) (consecutiveChecks s) v (history s) (terminal s)
    (winner s) (toAct s) (board s).

Definition set_history (s : HandState) (v : string) : HandState :=
  mkState (streetIdx s) (street s) (pot s) (currentBet s) (commit s)
    (stack s) (raises s) (consecutiveChecks s) (acted s) v (terminal s)
    (winner s) (toAct s) (board s).

Definition set_terminal (s : HandState) (v : bool) : HandState :=
  mkState (streetIdx s) (street s) (pot s) (currentBet s) (commit s)
    (stack s) (raises s) (consecutiveChecks s) (acted s) (history s) v
    (winner s) (toAct s) (board s).

Definition set_winner (s : HandState) (v : Z) : HandState :=
  mkState (streetIdx s) (street s) (pot s) (currentBet s) (commit s)
    (stack s) (raises s) (consecutiveChecks s) (acted s) (history s)
    (terminal s) v (toAct s) (board s).

Definition set_toAct (s : HandState) (v : Seat) : HandState :=
  mkState (streetIdx s) (street s) (pot s) (currentBet s) (commit s)
    (stack s) (raises s) (consecutiveChecks s) (acted s) (history s)
    (terminal s) (winner s) v (board s).

Definition set_board (s : HandState) (v : list card) : HandState :=
  mkState (streetIdx s) (street s) (pot s) (currentBet s) (commit s)
    (stack s) (raises s) (consecutiveChecks s) (acted s) (history s)
    (terminal s) (winner s) (toAct s) v.

(** ** server_fullgame.cjs: the hand state machine *)

(** The source of [Math.random()]: an arbitrary sequence of numbers in
    [0, 1), read in order. *)
Record Rng : Type := mkRng {
  draws : nat -> Q;
  pos : nat;
  draws_range : forall n, 0 <= draws n /\ draws n < 1
}.

Definition Math_random (g : Rng) : Q * Rng :=
  (draws g (pos g), mkRng (draws g) (S (pos g)) (draws_range g)).

(** [Math.floor(Math.random() * n)]. *)
Definition random_index (g : Rng) (n : nat) : nat * Rng :=
  let (r, g') := Math_random g in
  (Z.to_nat (Math_floor (r * inject_Z (Z.of_nat n))), g').

Definition ranks : string := "23456789TJQKA".
Definition suits : string := "shdc".

(** [s[i]] inside a string concatenation ([undefined] prints as such). *)
Definition char_at (s : string) (i : nat) : string :=
  match String.get i s with
  | Some c => String c EmptyString
  | None => "undefined"
  end.

Definition toLowerCase_ascii (c : ascii) : ascii :=
  let n := nat_of_ascii c in
  if (65 <=? n)%nat && (n <=? 90)%nat then ascii_of_nat (n + 32) else c.

(** [s.endsWith(suffix)]. *)
Definition endsWith (s suffix : string) : bool :=
  let n := String.length s in
  let m := String.length suffix in
  (m <=? n)%nat && String.eqb (substring (n - m) m s) suffix.

Module Engine.

Definition legalActions (cfg : Config) (s : HandState) : list Action :=
  ActionModel.legalActions s (MAX_RAISES cfg) (BIG_BLIND cfg).

Definition actionTarget (cfg : Config) (s : HandState) (act : Action) : Q :=
  ActionModel.actionTarget s act (BIG_BLIND cfg).

(** [sprValue(state, seat)]; [None] stands for [Infinity]. *)
Definition sprValue (s : HandState) (seat : Seat) : option Q :=
  if Qlt_bool 0 (pot s)
  then Some (get2 (stack s) seat / Math_max 1 (pot s))
  else None.

Definition clamp (x lo hi : Q) : Q := Math_max lo (Math_min hi x).

(** [cardFromIndex(i)]. *)
Definition cardFromIndex (i : nat) : card :=
  char_at ranks (i mod 13) +:+ char_at suits (i / 13).

(** [shuffle(arr)], the loop from index [i] down to 1. *)
Fixpoint shuffle_from {T : Type} (i : nat) (arr : list T) (g : Rng)
  : list T * Rng :=
  match i with
  | O => (arr, g)
  | S i' =>
      let (j, g1) := random_index g (i + 1) in
      let arr' :=
        match arr !! i, arr !! j with
        | Some ai, Some aj => <[j := ai]> (<[i := aj]> arr)
        | _, _ => arr
        end in
      shuffle_from i' arr' g1
  end.

Definition shuffle {T : Type} (arr : list T) (g : Rng) : list T * Rng :=
  shuffle_from (length arr - 1) arr g.

Definition dealDeck (g : Rng) : list nat * Rng := shuffle (seq 0 52) g.

(** [actionNames[act][0].toLowerCase()]. *)
Definition history_letter (act : Action) : string :=
  match actionNames act with
  | String c _ => String (toLowerCase_ascii c) EmptyString
  | EmptyString => EmptyString
  end.

(** [applyAction(state, act)].  The two [warnDiag] calls only count and
    log; they change nothing of the state. *)
Definition applyAction (cfg : Config) (s0 : HandState) (act0 : Action)
  : HandState :=
  let p := toAct s0 in
  let o := other p in
  let toCall := Math_max 0 (currentBet s0 - get2 (commit s0) p) in
  let act := if action_eqb act0 CALL && Qle_bool toCall eps
             then CHECK else act0 in
  let target := actionTarget cfg s0 act in
  match act with
  | FOLD =>
      let s1 := set_terminal s0 true in
      let s2 := set_winner s1 (seat_index o) in
      let s3 := set_history s2 (history s2 +:+ "f") in
      set_acted s3 (set2 (acted s3) p true)
  | CHECK =>
      let s1 := set_history s0 (history s0 +:+ "k") in
      let s2 := set_consecutiveChecks s1 (consecutiveChecks s1 + 1)%Z in
      let s3 := set_toAct s2 o in
      set_acted s3 (set2 (acted s3) p true)
  | _ =>
      let pay := target - get2 (commit s0) p in
      let realPay := Math_min pay (get2 (stack s0) p) in
      let s1 := set_stack s0 (set2 (stack s0) p (get2 (stack s0) p - realPay)) in
      let s2 := set_commit s1 (set2 (commit s1) p (get2 (commit s1) p + realPay)) in
      let s3 := set_pot s2 (pot s2 + realPay) in
      let s4 := set_consecutiveChecks s3 0%Z in
      let s5 := set_history s4 (history s4 +:+ history_letter act) in
      match act with
      | CALL | ALL_IN =>
          let s6 := set_acted s5 (set2 (acted s5) p true) in
          let s7 :=
            if Qlt_bool (currentBet s6) (get2 (commit s6) p) then
              let s7a := set_currentBet s6 (get2 (commit s6) p) in
              let s7b := set_raises s7a (raises s7a + 1)%Z in
              set_acted s7b (set2 (false, false) p true)
            else s6 in
          set_toAct s7 o
      | _ =>
          let s6 := set_currentBet s5 (get2 (commit s5) p) in
          let s7 := set_raises s6 (raises s6 + 1)%Z in
          let s8 := set_acted s7 (set2 (false, false) p true) in
          set_toAct s8 o
      end
  end.

(** The session score kept by the routes. *)
Record Score : Type := mkScore {
  wins : Z;
  losses : Z;
  ties : Z;
  net : Q
}.

(** The object returned by [settleTerminal]. *)
Record SettleResult : Type := mkResult {
  label : string;
  human_payoff : Q;
  result_winner : Z;
  terminal_type : string;
  final_stacks : Q * Q
}.

(** An opponent range belief. *)
Record Belief : Type := mkBelief {
  weak : Q;
  medium : Q;
  strong : Q
}.

(** The session object of a live hand: the object built by [newHand], with
    the [score] that the routes attach to it.  ([id] and [stats] are not
    read by the functions below.) *)
Record Session : Type := mkSession {
  humanSeat : Seat;
  handIndex : Z;
  hero : list card;
  vill : list card;
  sess_board : list card;
  fullBoard : list card;
  state : HandState;
  resolved : bool;
  lastResult : option SettleResult;
  rangeBeliefs : list Belief;
  score : Score
}.

Definition set_state (sess : Session) (st : HandState) : Session :=
  mkSession (humanSeat sess) (handIndex sess) (hero sess) (vill sess)
    (sess_board sess) (fullBoard sess) st (resolved sess) (lastResult sess)
    (rangeBeliefs sess) (score sess).

Definition set_sess_board (sess : Session) (b : list card) : Session :=
  mkSession (humanSeat sess) (handIndex sess) (hero sess) (vill sess)
    b (fullBoard sess) (state sess) (resolved sess) (lastResult sess)
    (rangeBeliefs sess) (score sess).

Definition set_rangeBeliefs (sess : Session) (bs : list Belief) : Session :=
  mkSession (humanSeat sess) (handIndex sess) (hero sess) (vill sess)
    (sess_board sess) (fullBoard sess) (state sess) (resolved sess)
    (lastResult sess) bs (score sess).

Definition initialRangeBelief : Belief :=
  {| weak := 0.34; medium := 0.33; strong := 0.33 |}.

(** The [state] literal of [newHand]. *)
Definition initialState (cfg : Config) : HandState :=
  {| streetIdx := 0;
     street := Some "preflop";
     pot := SMALL_BLIND cfg + BIG_BLIND cfg;
     currentBet := BIG_BLIND cfg;
     commit := (SMALL_BLIND cfg, BIG_BLIND cfg);
     stack := (START_STACK cfg - SMALL_BLIND cfg,
               START_STACK cfg - BIG_BLIND cfg);
     raises := 0;
     consecutiveChecks := 0;
     acted := (false, false);
     history := "";
     terminal := false;
     winner := (-1);
     toAct := Seat0;
     board := [] |}.

(** [newHand(humanSeat, handIndex)], run on the random source [g]; [sc] is
    the score object the route stores in the new session.  The nine
    [deck.pop()] take the cards from the end of the shuffled deck. *)
Definition newHand (cfg : Config) (humanSeat : Seat) (handIndex : Z)
  (sc : Score) (g : Rng) : Session * Rng :=
  let (deck, g') := dealDeck g in
  let popped := map cardFromIndex (rev deck) in
  ({| humanSeat := humanSeat;
      handIndex := handIndex;
      hero := firstn 2 popped;
      vill := firstn 2 (skipn 2 popped);
      sess_board := [];
      fullBoard := firstn 5 (skipn 4 popped);
      state := initialState cfg;
      resolved := false;
      lastResult := None;
      rangeBeliefs := [initialRangeBelief; initialRangeBelief];
      score := sc |}, g').

(** [enforceBoardInvariant(sess)] (the warning is not modelled). *)
Definition enforceBoardInvariant (sess : Session) : Session :=
  let expected := nth (streetIdx (state sess)) [0; 3; 4; 5]%nat 0%nat in
  if Nat.eqb (length (sess_board sess)) expected then sess
  else set_sess_board sess (firstn expected (fullBoard sess)).

(** [advanceStreet(sess)]. *)
Definition advanceStreet (sess : Session) : Session :=
  let st1 := set_streetIdx (state sess) (streetIdx (state sess) + 1) in
  let st2 := set_street st1 (streets !! streetIdx st1) in
  let idx := streetIdx st2 in
  let sess1 := set_state sess st2 in
  let sess2 :=
    if Nat.eqb idx 1 then set_sess_board sess1 (firstn 3 (fullBoard sess1))
    else if Nat.eqb idx 2 then set_sess_board sess1 (firstn 4 (fullBoard sess1))
    else if Nat.eqb idx 3 then set_sess_board sess1 (firstn 5 (fullBoard sess1))
    else sess1 in
  let sess3 := enforceBoardInvariant sess2 in
  let st3 := set_currentBet (state sess3) 0 in
  let st4 := set_commit st3 (0, 0) in
  let st5 := set_raises st4 0%Z in
  let st6 := set_consecutiveChecks st5 0%Z in
  let st7 := set_acted st6 (false, false) in
  let st8 := set_toAct st7 Seat0 in
  set_state sess3 st8.

(** [needsStreetAdvance(sess)]. *)
Definition needsStreetAdvance (sess : Session) : bool :=
  let st := state sess in
  let evenCommit :=
    Qle_bool (Qabs (fst (commit st) - snd (commit st))) eps &&
    Qle_bool (Math_max (currentBet st - get2 (commit st) (toAct st)) 0) eps in
  let bothActed := fst (acted st) && snd (acted st) in
  evenCommit && bothActed.

(** [bettingClosedAllIn(sess)]. *)
Definition bettingClosedAllIn (sess : Session) : bool :=
  let st := state sess in
  let s0AllIn := Qle_bool (fst (stack st)) eps in
  let s1AllIn := Qle_bool (snd (stack st)) eps in
  if negb (s0AllIn || s1AllIn) then false
  else
    let toCall0 := Math_max 0 (currentBet st - fst (commit st)) in
    let toCall1 := Math_max 0 (currentBet st - snd (commit st)) in
    Qle_bool toCall0 eps && Qle_bool toCall1 eps.

(** *** Opponent range beliefs *)

(** [normalizeRangeBelief(belief)]. *)
Definition normalizeRangeBelief (belief : Belief) : Belief :=
  let out := {| weak := Math_max 0 (weak belief);
                medium := Math_max 0 (medium belief);
                strong := Math_max 0 (strong belief) |} in
  let s := weak out + medium out + strong out in
  if Qle_bool s eps
  then {| weak := 0.34; medium := 0.33; strong := 0.33 |}
  else {| weak := weak out / s;
          medium := medium out / s;
          strong := strong out / s |}.

(** [ensureRangeBeliefs(sess)]: the session after the call; the returned
    array is its [rangeBeliefs]. *)
Definition ensureRangeBeliefs (sess : Session) : Session :=
  let bs :=
    if (length (rangeBeliefs sess) <? 2)%nat
    then [initialRangeBelief; initialRangeBelief]
    else rangeBeliefs sess in
  let bs0 :=
    match bs !! 0%nat with
    | Some b => <[0%nat := normalizeRangeBelief b]> bs
    | None => bs
    end in
  let bs1 :=
    match bs0 !! 1%nat with
    | Some b => <[1%nat := normalizeRangeBelief b]> bs0
    | None => bs0
    end in
  set_rangeBeliefs sess bs1.

Definition seat_nat (p : Seat) : nat :=
  match p with Seat0 => 0%nat | Seat1 => 1%nat end.

(** [getRangeBelief(sess, seat)]. *)
Definition getRangeBelief (sess : Session) (seat : Seat) : Belief * Session :=
  let sess' := ensureRangeBeliefs sess in
  (default initialRangeBelief (rangeBeliefs sess' !! seat_nat seat), sess').

Definition isAggressive (act : Action) : bool :=
  match act with
  | BET_HALF | BET_POT | RAISE_HALF | RAISE_POT | ALL_IN => true
  | _ => false
  end.

(** The belief [b] after the increments of [updateRangeBeliefFromAction],
    before it is normalized. *)
Definition shiftBelief (b : Belief) (act : Action) (toCallBefore : Q)
  : Belief :=
  let facingBet := Qlt_bool eps toCallBefore in
  if facingBet then
    match act with
    | FOLD => mkBelief (weak b + 0.20) (medium b + 0.04) (strong b - 0.24)
    | CALL | CHECK =>
        mkBelief (weak b - 0.05) (medium b + 0.12) (strong b - 0.07)
    | _ =>
        if isAggressive act
        then mkBelief (weak b - 0.16) (medium b - 0.04) (strong b + 0.20)
        else b
    end
  else
    match act with
    | CHECK => mkBelief (weak b + 0.10) (medium b + 0.02) (strong b - 0.12)
    | _ =>
        if isAggressive act
        then mkBelief (weak b - 0.12) (medium b - 0.02) (strong b + 0.14)
        else b
    end.

(** [updateRangeBeliefFromAction(sess, seat, act, toCallBefore)]. *)
Definition updateRangeBeliefFromAction (sess : Session) (seat : Seat)
  (act : Action) (toCallBefore : Q) : Session :=
  let sess1 := ensureRangeBeliefs sess in
  let beliefs := rangeBeliefs sess1 in
  match beliefs !! seat_nat seat with
  | Some b0 =>
      let b := shiftBelief b0 act toCallBefore in
      set_rangeBeliefs sess1
        (<[seat_nat seat := normalizeRangeBelief b]> beliefs)
  | None => sess1
  end.


(** *** Expected value of an action *)

(** The object returned by [boardTexture]. *)
Record BoardTexture : Type := mkBoardTexture {
  paired : bool;
  monotone : bool;
  connected : bool;
  twoTone : bool;
  wet : bool;
  dry : bool
}.

(** The object returned by [getOpponentPostflopProfile]. *)
Record OppProfile : Type := mkOppProfile {
  foldRate : Q;
  callRate : Q;
  raiseRate : Q;
  samples : Q
}.

(** [texture?.f] as a condition. *)
Definition tex_flag (f : BoardTexture -> bool) (texture : option BoardTexture)
  : bool :=
  match texture with Some t => f t | None => false end.

(** [spr > c], where [spr] may be [Infinity]. *)
Definition spr_gt (spr : option Q) (c : Q) : bool :=
  match spr with Some v => Qlt_bool c v | None => true end.

Definition when (c : bool) (x : Q) : Q := if c then x else 0.

(** [estimateEV(state, hs, act, texture, oppProfile, oppRangeBelief)]. *)
Definition estimateEV (cfg : Config) (st : HandState) (hs : Q) (act : Action)
  (texture : option BoardTexture) (oppProfile : option OppProfile)
  (oppRangeBelief : option Belief) : Q :=
  let p := toAct st in
  let toCall := Math_max 0 (currentBet st - get2 (commit st) p) in
  let pay := Math_max 0 (actionTarget cfg st act - get2 (commit st) p) in
  let potNow := pot st in
  let potAfterPay := potNow + pay in
  let spr := sprValue st p in
  match act with
  | FOLD => 0
  | CHECK => hs * potNow
  | CALL =>
      let realize :=
        if tex_flag wet texture then 0.90
        else if tex_flag paired texture then 0.95
        else 0.93 in
      let base := hs * potNow - (1 - hs) * toCall in
      base * realize
  | _ =>
      let oppToCall := pay in
      let oppReqEq := oppToCall / Math_max 1 (potAfterPay + oppToCall) in
      let betFrac := oppToCall / Math_max 1 potNow in
      let callProbBase :=
        0.84 - 0.95 * oppReqEq - 0.30 * Math_max 0 (betFrac - 0.5) in
      let callProb0 := clamp callProbBase 0.15 0.84 in
      let raiseProb0 := clamp (0.10 - 0.08 * oppReqEq) 0.02 0.08 in
      let '(callProb1, raiseProb1) :=
        match oppRangeBelief with
        | Some ob =>
            let b := normalizeRangeBelief ob in
            let strengthTilt := strong b - weak b in
            (clamp (callProb0 + 0.18 * strengthTilt) 0.10 0.90,
             clamp (raiseProb0 + 0.10 * strengthTilt) 0.01 0.24)
        | None => (callProb0, raiseProb0)
        end in
      let foldProb1 := Math_max 0 (1 - callProb1 - raiseProb1) in
      let '(callProb, foldProb, raiseProb) :=
        match oppProfile with
        | Some op =>
            if Qle_bool 8 (samples op) then
              let foldProb2 :=
                clamp (0.6 * foldProb1 + 0.4 * foldRate op) 0.06 0.85 in
              let raiseProb2 :=
                clamp (0.7 * raiseProb1 + 0.3 * raiseRate op) 0.01 0.20 in
              let callProb2 := Math_max 0.03 (1 - foldProb2 - raiseProb2) in
              let z := callProb2 + foldProb2 + raiseProb2 in
              (callProb2 / z, foldProb2 / z, raiseProb2 / z)
            else (callProb1, foldProb1, raiseProb1)
        | None => (callProb1, foldProb1, raiseProb1)
        end in
      let evIfFold := potNow in
      let oppCallAmount := pay in
      let evIfCall := hs * (potNow + oppCallAmount) - (1 - hs) * pay in
      let evIfRaise := evIfCall - 0.35 * pay in
      let marginal := Qle_bool 0.4 hs && Qle_bool hs 0.65 in
      let potSized := action_eqb act BET_POT || action_eqb act RAISE_POT in
      let penalty :=
        0
        + when (marginal && spr_gt spr 2) (0.16 * pay)
        + when (tex_flag paired texture && Qle_bool hs 0.65 && spr_gt spr 2)
               (0.12 * pay)
        + when (tex_flag dry texture && potSized) (0.18 * pay)
        - when (tex_flag wet texture && Qle_bool 0.62 hs) (0.06 * pay)
        + when (action_eqb act ALL_IN && spr_gt spr 6) (0.35 * pay)
        + when (Qle_bool toCall eps && Qlt_bool hs 0.62 && spr_gt spr 2)
               (when (action_eqb act BET_HALF) (0.18 * pay)
                + when potSized (0.34 * pay))
        + when (Qlt_bool eps toCall && marginal && spr_gt spr 2)
               (when (action_eqb act RAISE_HALF) (0.22 * pay)
                + when (action_eqb act RAISE_POT || action_eqb act ALL_IN)
                       (0.30 * pay))
        + match oppProfile with
          | Some op =>
              when (Qle_bool 10 (samples op) && Qlt_bool hs 0.58
                    && Qlt_bool 0 pay)
                   (when (Qlt_bool (foldRate op) 0.28) (0.14 * pay)
                    + when (Qlt_bool 0.18 (raiseRate op)) (0.10 * pay))
          | None => 0
          end in
      foldProb * evIfFold + callProb * evIfCall + raiseProb * evIfRaise
      - penalty
  end.

(** [subgameLeafEV(state, hs, act, texture, oppProfile, oppRangeBelief,
    depthLimit)]. *)
Definition subgameLeafEV (cfg : Config) (st : HandState) (hs : Q)
  (act : Action) (texture : option BoardTexture)
  (oppProfile : option OppProfile) (oppRangeBelief : option Belief)
  (depthLimit : Q) : Q :=
  let base := estimateEV cfg st hs act texture oppProfile oppRangeBelief in
  if Qle_bool depthLimit 1 then base
  else
    let pay :=
      Math_max 0 (actionTarget cfg st act - get2 (commit st) (toAct st)) in
    let tension := pay / Math_max 1 (pot st) in
    let range :=
      normalizeRangeBelief (default initialRangeBelief oppRangeBelief) in
    let strongTilt := strong range - weak range in
    let continuation :=
      (hs - 0.5 - 0.25 * strongTilt)
      * Math_max 1 (pot st * 0.24)
      * ((depthLimit - 1) / Math_max 1 depthLimit) in
    let depthPenalty := 0.06 * tension * Math_max 1 pay in
    base + continuation - depthPenalty.

(** *** The realtime subgame solver *)

(** [arr.reduce((acc, v) => acc + v, 0)]. *)
Definition sumQ (l : list Q) : Q := fold_left Qplus l 0.

(** [Number(priorProbs?.[a] || 0)]. *)
Definition prior_at (priorProbs : option (list Q)) (a : Action) : Q :=
  match priorProbs with
  | Some l => default 0 (l !! action_index a)
  | None => 0
  end.

Definition tiny : Q := 0.000000000001.

(** [toLegalPrior(legal, priorProbs)]. *)
Definition toLegalPrior (legal : list Action) (priorProbs : option (list Q))
  : list Q :=
  let arr := map (fun a => Math_max 0 (prior_at priorProbs a)) legal in
  let s := sumQ arr in
  if Qle_bool s tiny then
    let u := 1 / Math_max 1 (inject_Z (Z.of_nat (length legal))) in
    map (fun _ => u) legal
  else map (fun v => v / s) arr.

(** The object returned by [solveRtSubgameDCFR]. *)
Record RtResult : Type := mkRtResult {
  probs : list Q;
  iterations : Z;
  elapsed_ms : Z
}.

(** The variables of the solver loop. *)
Record RtLoop : Type := mkRtLoop {
  rt_regrets : list Q;
  rt_strategySum : list Q;
  rt_iterations : Z;
  rt_rng : Rng
}.

Section RealtimeSolver.

(** [Math.pow], and the environment value behind [RT_PRIOR_WEIGHT]. *)
Variable Math_pow : Q -> Q -> Q.
Variable RT_PRIOR_WEIGHT_env : Q.

Definition RT_PRIOR_WEIGHT : Q := Math_max 0 (Math_min 1 RT_PRIOR_WEIGHT_env).

Variable cfg : Config.
Variable st : HandState.
Variable legal : list Action.
Variable hs : Q.
Variable texture : option BoardTexture.
Variable oppProfile : option OppProfile.
Variable oppRangeBelief : option Belief.
Variable depthLimit : Q.

(** The strategy of one iteration: regret matching blended with the
    prior. *)
Definition rt_strategy (priorLegal regrets : list Q) : list Q :=
  let positive := map (Math_max 0) regrets in
  let posSum := sumQ positive in
  if Qle_bool posSum tiny then priorLegal
  else
    let matched := map (fun v => v / posSum) positive in
    let blended :=
      zip_with (fun s p => (1 - RT_PRIOR_WEIGHT) * s + RT_PRIOR_WEIGHT * p)
               matched priorLegal in
    let z0 := sumQ blended in
    let z := if Qeq_bool z0 0 then 1 else z0 in
    map (fun v => v / z) blended.

(** [legal.map((act, i) => e + noise)], one draw per action. *)
Fixpoint rt_util (acts : list Action) (g : Rng) : list Q * Rng :=
  match acts with
  | [] => ([], g)
  | act :: rest =>
      let (r, g1) := Math_random g in
      let noise := (r - 0.5) * 0.004 * Math_max 1 (pot st) in
      let e := subgameLeafEV cfg st hs act texture oppProfile oppRangeBelief
                 depthLimit in
      let (us, g2) := rt_util rest g1 in
      (e + noise :: us, g2)
  end.

(** The body of the [while] loop. *)
Definition rt_iteration (priorLegal : list Q) (ls : RtLoop) : RtLoop :=
  let iterations := (rt_iterations ls + 1)%Z in
  let strategy := rt_strategy priorLegal (rt_regrets ls) in
  let (util, g') := rt_util legal (rt_rng ls) in
  let nodeUtil := sumQ (zip_with Qmult strategy util) in
  let t := Math_max 1 (inject_Z iterations) in
  let alpha := Math_pow t 1.5 in
  let beta := Math_pow t 0.5 in
  let posDisc := alpha / (alpha + 1) in
  let negDisc := beta / (beta + 2) in
  let regrets' :=
    zip_with (fun r u =>
                let diff := u - nodeUtil in
                (if Qle_bool 0 diff then r * posDisc else r * negDisc) + diff)
             (rt_regrets ls) util in
  let strategySum' := zip_with Qplus (rt_strategySum ls) strategy in
  mkRtLoop regrets' strategySum' iterations g'.

(** The [while] loop over the readings of [Date.now()] taken by its
    condition.  The list holds the readings up to the first one past the
    budget; the loop has ended when it is used up. *)
Fixpoint rt_loop (start : Z) (maxMs : Q) (readings : list Z)
  (priorLegal : list Q) (ls : RtLoop) : RtLoop :=
  match readings with
  | [] => ls
  | now :: later =>
      if Qlt_bool (inject_Z (now - start)) maxMs
      then rt_loop start maxMs later priorLegal (rt_iteration priorLegal ls)
      else ls
  end.

(** The array [out] before it is rounded. *)
Definition rt_out (priorLegal strategySum : list Q) : list Q :=
  let out0 := replicate 8 0 in
  let sum := sumQ (map (Math_max 0) strategySum) in
  let values :=
    if Qle_bool sum tiny then priorLegal
    else map (fun v => Math_max 0 v / sum) strategySum in
  fold_left (fun out av => <[action_index (fst av) := snd av]> out)
            (zip legal values) out0.

(** [solveRtSubgameDCFR({ state, legal, hs, texture, oppProfile,
    oppRangeBelief, priorProbs, thinkMs, depthLimit })], with the readings
    of the clock: [start], those of the loop condition, and [finish]. *)
Definition solveRtSubgameDCFR (priorProbs : option (list Q)) (thinkMs : Q)
  (start : Z) (readings : list Z) (finish : Z) (g : Rng)
  : option RtResult :=
  match legal with
  | [] => None
  | _ =>
      let priorLegal := toLegalPrior legal priorProbs in
      let regrets := map (fun _ => 0) legal in
      let strategySum := map (fun _ => 0) legal in
      let maxMs := Math_max 200 (Math_min 800 thinkMs) in
      let ls := rt_loop start maxMs readings priorLegal
                  (mkRtLoop regrets strategySum 0 g) in
      let out := rt_out priorLegal (rt_strategySum ls) in
      Some {| probs := map (toFixed 6) out;
              iterations := rt_iterations ls;
              elapsed_ms := (finish - start)%Z |}
  end.

End RealtimeSolver.

(** *** Settlement and the equity estimator

    [PokerEvaluator.evalHand(cards).value] belongs to the external package
    [poker-evaluator]; it is a parameter.  A list element [None] is an
    [undefined] array slot (a card taken from an exhausted pool). *)

Section Evaluator.

Variable evalHand : list (option card) -> Z.

(** [settleTerminal(sess)]: the returned result and the session after the
    call. *)
Definition settleTerminal (cfg : Config) (sess : Session)
  : SettleResult * Session :=
  match resolved sess, lastResult sess with
  | true, Some r => (r, sess)
  | _, _ =>
      let st := state sess in
      let wasFold := endsWith (history st) "f" in
      let '(winner', st') :=
        if negb (Z.eqb (winner st) 0) && negb (Z.eqb (winner st) 1) then
          let board := firstn 5 (fullBoard sess) in
          let p0 := evalHand (map Some (hero sess ++ board)) in
          let p1 := evalHand (map Some (vill sess ++ board)) in
          let w := if (p1 <? p0)%Z then 0%Z
                   else if (p0 <? p1)%Z then 1%Z
                   else (-1)%Z in
          (w, set_winner st w)
        else (winner st, st) in
      let finalStacks :=
        if Z.eqb winner' 0 then (fst (stack st') + pot st', snd (stack st'))
        else if Z.eqb winner' 1 then (fst (stack st'), snd (stack st') + pot st')
        else (fst (stack st') + pot st' * 0.5, snd (stack st') + pot st' * 0.5) in
      let humanEV := get2 finalStacks (humanSeat sess) - START_STACK cfg in
      let sc := score sess in
      let sc1 := mkScore (wins sc) (losses sc) (ties sc) (net sc + humanEV) in
      let sc2 :=
        if Qlt_bool eps humanEV
        then mkScore (wins sc1 + 1)%Z (losses sc1) (ties sc1) (net sc1)
        else if Qlt_bool humanEV (- eps)
        then mkScore (wins sc1) (losses sc1 + 1)%Z (ties sc1) (net sc1)
        else mkScore (wins sc1) (losses sc1) (ties sc1 + 1)%Z (net sc1) in
      let result :=
        {| label := if Qlt_bool 0 humanEV then "You win"
                    else if Qlt_bool humanEV 0 then "You lose"
                    else "Tie";
           human_payoff := toFixed 2 humanEV;
           result_winner := winner';
           terminal_type := if wasFold then "fold" else "showdown";
           final_stacks := (toFixed 2 (fst finalStacks),
                            toFixed 2 (snd finalStacks)) |} in
      (result,
       mkSession (humanSeat sess) (handIndex sess) (hero sess) (vill sess)
         (sess_board sess) (fullBoard sess) st' true (Some result)
         (rangeBeliefs sess) sc2)
  end.

(** The object [{ eq, samples, err }] returned by [evalStrength]. *)
Record EquityResult : Type := mkEquity {
  eq_res : Q;
  samples_res : Z;
  err_res : option string
}.

(** The running counters [wins], [ties], [total] of [evalStrength]. *)
Record Tally : Type := mkTally {
  t_wins : Z;
  t_ties : Z;
  t_total : Z
}.

(** [pool.splice(ix, 1)[0]] and the pool after it. *)
Definition splice1 {T : Type} (pool : list T) (ix : nat)
  : option T * list T :=
  (pool !! ix, delete ix pool).

(** [opp.includes(c)]. *)
Definition includes (opp : list (option card)) (c : card) : bool :=
  existsb (fun o => match o with
                    | Some c' => String.eqb c' c
                    | None => false
                    end) opp.

(** The 52 cards in the order of the two nested loops, suits outside. *)
Definition full_deck : list card :=
  flat_map (fun s => map (fun r => String r (String s EmptyString))
                         (list_ascii_of_string ranks))
           (list_ascii_of_string suits).

(** The sampled opponent hand of one trial. *)
Definition sample_opp (avail : list card) (g : Rng)
  : list (option card) * Rng :=
  let pool := avail in
  let (i1, g1) := random_index g (length pool) in
  let (c1, pool1) := splice1 pool i1 in
  let (i2, g2) := random_index g1 (length pool1) in
  let (c2, _) := splice1 pool1 i2 in
  ([c1; c2], g2).

(** The loop [for (k = 0; k < need; k++)] filling the board. *)
Fixpoint fill_board (need : nat) (pool : list card)
  (boardFill : list (option card)) (g : Rng) : list (option card) * Rng :=
  match need with
  | O => (boardFill, g)
  | S k =>
      let (ix, g1) := random_index g (length pool) in
      let (c, pool') := splice1 pool ix in
      fill_board k pool' (boardFill ++ [c]) g1
  end.

(** One pass of the trial loop. *)
Definition one_trial (heroHand board : list card)
  (oppHand : option (list card)) (avail : list card) (tl : Tally) (g : Rng)
  : Tally * Rng :=
  let (opp, g1) :=
    match oppHand with
    | Some oh => (map Some oh, g)
    | None => sample_opp avail g
    end in
  let need := (5 - length board)%nat in
  let pool := filter (fun c => negb (includes opp c)) avail in
  let (boardFill, g2) := fill_board need pool (map Some board) g1 in
  let heroEval := evalHand (map Some heroHand ++ boardFill) in
  let oppEval := evalHand (opp ++ boardFill) in
  let tl1 :=
    if (oppEval <? heroEval)%Z
    then mkTally (t_wins tl + 1) (t_ties tl) (t_total tl)
    else if (heroEval =? oppEval)%Z
    then mkTally (t_wins tl) (t_ties tl + 1) (t_total tl)
    else tl in
  (mkTally (t_wins tl1) (t_ties tl1) (t_total tl1 + 1), g2).

Fixpoint trial_loop (trials : nat) (heroHand board : list card)
  (oppHand : option (list card)) (avail : list card) (tl : Tally) (g : Rng)
  : Tally * Rng :=
  match trials with
  | O => (tl, g)
  | S n =>
      let (tl', g') := one_trial heroHand board oppHand avail tl g in
      trial_loop n heroHand board oppHand avail tl' g'
  end.

(** [avail]: the deck without the cards in use. *)
Definition available (heroHand board : list card)
  (oppHand : option (list card)) : list card :=
  let used := heroHand ++ board ++ default [] oppHand in
  filter (fun c => negb (existsb (String.eqb c) used)) full_deck.

(** [evalStrength(heroHand, board, oppHand, trials)]. *)
Definition evalStrength (heroHand board : list card)
  (oppHand : option (list card)) (trials : nat) (g : Rng)
  : EquityResult * Rng :=
  let avail := available heroHand board oppHand in
  if negb (Nat.eqb (length heroHand) 2)
  then (mkEquity 0.5 0 (Some "bad_hero"), g)
  else
    let (tl, g') :=
      trial_loop trials heroHand board oppHand avail (mkTally 0 0 0) g in
    let eq :=
      if Z.eqb (t_total tl) 0 then 0.5
      else (inject_Z (t_wins tl) + 0.5 * inject_Z (t_ties tl))
           / inject_Z (t_total tl) in
    let err := if (t_total tl <? 20)%Z then Some "low_samples" else None in
    (mkEquity eq (t_total tl) err, g').

End Evaluator.

(** *** Guards on the action chosen by the bot *)

(** [boardTexture(board)]. *)
Definition boardTexture (board : list card) : BoardTexture :=
  let tex := InfosetV1.texture board in
  let paired := InfosetV1.paired tex in
  let monotone := InfosetV1.monotone tex in
  let connected := InfosetV1.connected tex in
  let twoTone := InfosetV1.twoTone tex in
  let wet := monotone || twoTone || connected in
  let dry := negb wet && negb paired in
  mkBoardTexture paired monotone connected twoTone wet dry.

(** [removeDominatedFold(legal, toCall, pot, equity, margin)].  When
    [pot + toCall] is 0 the quotient [req] is [Infinity], and the test
    [equity <= req + margin] holds. *)
Definition removeDominatedFold (legal : list Action)
  (toCall pot equity margin : Q) : list Action :=
  if negb (includes_action legal FOLD) then legal
  else if Qle_bool toCall eps then legal
  else if Qeq_bool (pot + toCall) 0 then legal
  else
    let req := toCall / (pot + toCall) in
    if Qle_bool equity (req + margin) then legal
    else filter (fun a => negb (action_eqb a FOLD)) legal.

(** [actionAggressionScore(act)]. *)
Definition actionAggressionScore (act : Action) : Z :=
  match act with
  | FOLD => 0
  | CHECK => 1
  | CALL => 2
  | BET_HALF => 3
  | RAISE_HALF => 4
  | BET_POT => 5
  | RAISE_POT => 6
  | ALL_IN => 7
  end%Z.

(** [arr.sort((a, b) => actionAggressionScore(a) - actionAggressionScore(b))]:
    the sort is stable. *)
Fixpoint insert_by_score (a : Action) (l : list Action) : list Action :=
  match l with
  | [] => [a]
  | b :: rest =>
      if (actionAggressionScore a <=? actionAggressionScore b)%Z
      then a :: l
      else b :: insert_by_score a rest
  end.

Definition sort_by_score (l : list Action) : list Action :=
  fold_right insert_by_score [] l.

(** The loop of [pickActionByEV] computing [bestEV].  The map [evByAct] is
    a partial function; [None] stands for [-Infinity], both for a missing
    entry ([evByAct.get(a) ?? -Infinity]) and for the initial [bestEV]. *)
Definition best_ev (legal : list Action) (evByAct : Action -> option Q)
  : option Q :=
  fold_left (fun bestEV a =>
               match evByAct a, bestEV with
               | Some ev, Some b => if Qlt_bool b ev then Some ev else bestEV
               | Some ev, None => Some ev
               | None, _ => bestEV
               end)
            legal None.

(** [(bestEV - ev) <= tolerance]; the difference is [NaN] or [Infinity]
    when [ev] is [-Infinity]. *)
Definition near_best (bestEV ev : option Q) (tolerance : Q) : bool :=
  match bestEV, ev with
  | Some b, Some e => Qle_bool (b - e) tolerance
  | _, _ => false
  end.

(** [pickActionByEV(legal, evByAct, tolerance)]; [None] is [null]. *)
Definition pickActionByEV (legal : list Action)
  (evByAct : Action -> option Q) (tolerance : Q) : option Action :=
  match legal with
  | [] => None
  | first :: _ =>
      let bestEV := best_ev legal evByAct in
      let nearBest :=
        filter (fun a => near_best bestEV (evByAct a) tolerance) legal in
      match sort_by_score nearBest with
      | a :: _ => Some a
      | [] => Some first
      end
  end.

(** A block of [applyConservativeOverride] that may [return]: [Some a] is
    [return a], [None] falls through to the rest [k]. *)
Definition or_else (r : option Action) (k : option Action) : option Action :=
  match r with
  | Some a => Some a
  | None => k
  end.

(** [applyConservativeOverride(state, legal, chosen, hs, texture, spr)];
    [chosen = None] is [null], [spr = None] is [Infinity]. *)
Definition applyConservativeOverride (st : HandState) (legal : list Action)
  (chosen : option Action) (hs : Q) (texture : option BoardTexture)
  (spr : option Q) : option Action :=
  match chosen with
  | None => None
  | Some ch =>
      let toCall := Math_max 0 (currentBet st - get2 (commit st) (toAct st)) in
      let facing := Qlt_bool eps toCall in
      let unopened := Qle_bool toCall eps in
      let reqEq :=
        if facing then toCall / Math_max 1 (pot st + toCall) else 0 in
      let canCall := includes_action legal CALL in
      let canCheck := includes_action legal CHECK in
      let canBetHalf := includes_action legal BET_HALF in
      let canRaiseHalf := includes_action legal RAISE_HALF in
      let call_or_check :=
        if facing && canCall then Some CALL
        else if unopened && canCheck then Some CHECK
        else None in
      let smaller :=
        if facing && canCall then Some CALL
        else if unopened && canCheck then Some CHECK
        else if unopened && canBetHalf then Some BET_HALF
        else if canCheck then Some CHECK
        else None in
      or_else
        (if tex_flag paired texture && Qlt_bool 0.40 hs && Qlt_bool hs 0.70
            && spr_gt spr 2
         then call_or_check else None)
      (or_else
        (if action_eqb ch ALL_IN && spr_gt spr 1.5 && Qlt_bool hs 0.70
         then call_or_check else None)
      (or_else
        (if action_eqb ch BET_POT || action_eqb ch RAISE_POT then
           or_else
             (if tex_flag dry texture && Qlt_bool hs 0.68
              then smaller else None)
             (if Qlt_bool hs 0.58 && spr_gt spr 2
                 && negb (tex_flag wet texture)
              then smaller else None)
         else None)
      (or_else
        (if (action_eqb ch RAISE_HALF || action_eqb ch RAISE_POT) && facing
         then
           or_else
             (if Qlt_bool hs (reqEq + 0.18)
              then (if canCall then Some CALL else None) else None)
             (if Qlt_bool hs 0.58 && spr_gt spr 2
                 && negb (tex_flag wet texture)
              then (if canCall then Some CALL
                    else if canRaiseHalf then Some RAISE_HALF
                    else None)
              else None)
         else None)
      (or_else
        (if (action_eqb ch BET_HALF || action_eqb ch BET_POT) && unopened
            && spr_gt spr 3
         then
           if Qlt_bool hs 0.55 && canCheck then Some CHECK
           else if tex_flag dry texture && Qlt_bool hs 0.60 && canCheck
           then Some CHECK
           else None
         else None)
        (Some ch)))))
  end.

End Engine.

(** ** lib/blueprint_v1.cjs *)

Module BlueprintV1.

(** [rankValue(card)]. *)
Definition rankValue (c : card) : Z :=
  match c with
  | String r _ => (InfosetV1.indexOf_from r "23456789TJQKA" 0 + 2)%Z
  | EmptyString => (-1 + 2)%Z
  end.

(** [boardRanksArray(board)]; [None] is the [undefined] read from an empty
    string. *)
Definition boardRanksArray (board : list card) : list (option ascii) :=
  map (String.get 0) board.

(** The keys of [boardSuitCounts(board)]; the key of [undefined] differs
    from every one-character key. *)
Definition boardSuitCounts_keys (board : list card) : list (option ascii) :=
  remove_dups (map (String.get 1) board).

(** [new Set(rr).size < rr.length]. *)
Definition isPaired (board : list card) : bool :=
  let rr := boardRanksArray board in
  (length (remove_dups rr) <? length rr)%nat.

Definition isMonotone (board : list card) : bool :=
  if (length board <? 3)%nat then false
  else Nat.eqb (length (boardSuitCounts_keys board)) 1.

Definition isConnected (board : list card) : bool :=
  if (length board <? 3)%nat then false
  else
    let vals := InfosetV1.sort_numbers (remove_dups (map rankValue board)) in
    if (length vals <? 3)%nat then false
    else (2 <=? InfosetV1.closePairs vals)%nat.

(** [boardTexture(board)]. *)
Definition boardTexture (board : list card) : Engine.BoardTexture :=
  let suitsCount := length (boardSuitCounts_keys board) in
  let paired := isPaired board in
  let monotone := isMonotone board in
  let connected := isConnected board in
  let twoTone := (3 <=? length board)%nat && Nat.eqb suitsCount 2 in
  let wet := monotone || twoTone || connected in
  let dry := negb wet && negb paired in
  Engine.mkBoardTexture paired monotone connected twoTone wet dry.

Definition sprBandFromValue (spr : JsNum) : string :=
  if negb (isFinite spr) then "8_plus"
  else if js_lt spr 1 then "0_1"
  else if js_lt spr 2 then "1_2"
  else if js_lt spr 4 then "2_4"
  else if js_lt spr 8 then "4_8"
  else "8_plus".

Definition hsBandFromValue (hs : JsNum) : JsNum :=
  js_max (JFin 0)
    (js_min (JFin 9)
       (js_floor (js_scale (js_max (JFin 0) (js_min (JFin 0.999999) hs)) 10))).

(** [textureBits(texture)]; [None] is a missing texture ([texture?.f]). *)
Definition textureBits (texture : option Engine.BoardTexture) : string :=
  InfosetV1.bit (Engine.tex_flag Engine.paired texture)
  +:+ InfosetV1.bit (Engine.tex_flag Engine.twoTone texture)
  +:+ InfosetV1.bit (Engine.tex_flag Engine.monotone texture)
  +:+ InfosetV1.bit (Engine.tex_flag Engine.connected texture).

(** [positionLabel(seats, player)]. *)
Definition positionLabel (seats : Z) (player : Seat) : string :=
  if Z.eqb seats 2 then
    match player with Seat1 => "IP" | Seat0 => "OOP" end
  else "P" +:+ string_of_Z (seat_index player).

(** [buildBlueprintV1InfosetKey({ state, player, hs, spr, texture, seats })];
    a [street] that is [undefined] prints as such.  The result is [None]
    only if the band of [hs] were a number whose printing is not
    modelled. *)
Definition buildBlueprintV1InfosetKey (s : HandState) (player : Seat)
  (hs spr : JsNum) (texture : option Engine.BoardTexture) (seats : Z)
  : option string :=
  let street := default "undefined" (street s) in
  let toCall := Math_max 0 (currentBet s - get2 (commit s) player) in
  let betState := if Qlt_bool eps toCall then "facingBet" else "unopened" in
  let sprBand := sprBandFromValue spr in
  let bits := textureBits texture in
  let hsBand := hsBandFromValue hs in
  let raises := Z.max 0 (Z.min 99 (raises s)) in
  match js_to_string hsBand with
  | Some band =>
      Some (street +:+ "|" +:+ positionLabel seats player
            +:+ "|tex=" +:+ bits
            +:+ "|spr=" +:+ sprBand
            +:+ "|" +:+ betState
            +:+ "|r=" +:+ string_of_Z raises
            +:+ "|hs=" +:+ band)
  | None => None
  end.

End BlueprintV1.

(** ** scripts/train_blueprint_v1_postflop.cjs *)

Module Trainer.

(** The state [s] of the generator returned by [makeRng]. *)
Definition makeRng (initial : Z) : Z :=
  let s := (initial mod 4294967296)%Z in
  if Z.eqb s 0 then 1%Z else s.

(** One call [rand()]: the number returned and the next state. *)
Definition rand (s : Z) : Q * Z :=
  let s' := ((1664525 * s + 1013904223) mod 4294967296)%Z in
  (inject_Z s' / 4294967296, s').

(** [randInt(rand, n)]. *)
Definition randInt (s : Z) (n : nat) : nat * Z :=
  let (r, s') := rand s in
  (Z.to_nat (Math_floor (r * inject_Z (Z.of_nat n))), s').

(** [shuffleInPlace(arr, rand)], the loop from index [i] down to 1. *)
Fixpoint shuffle_from {T : Type} (i : nat) (arr : list T) (s : Z)
  : list T * Z :=
  match i with
  | O => (arr, s)
  | S i' =>
      let (j, s1) := randInt s (i + 1) in
      let arr' :=
        match arr !! i, arr !! j with
        | Some ai, Some aj => <[j := ai]> (<[i := aj]> arr)
        | _, _ => arr
        end in
      shuffle_from i' arr' s1
  end.

Definition shuffleInPlace {T : Type} (arr : list T) (s : Z) : list T * Z :=
  shuffle_from (length arr - 1) arr s.

(** [Math.max(0, Number(weights[a] || 0))]. *)
Definition weight_at (weights : list Q) (a : Action) : Q :=
  Math_max 0 (default 0 (weights !! action_index a)).

(** The loop of [sampleActionByWeights]: [r] decreases by the weight of
    each action until it is not positive. *)
Fixpoint pick_by_weight (acts : list Action) (weights : list Q) (r : Q)
  : option Action :=
  match acts with
  | [] => None
  | a :: rest =>
      let r' := r - weight_at weights a in
      if Qle_bool r' 0 then Some a else pick_by_weight rest weights r'
  end.

(** [sampleActionByWeights(legal, weights, rand)] on a non-empty [legal];
    [None] stands for [undefined]. *)
Definition sampleActionByWeights (legal : list Action) (weights : list Q)
  (s : Z) : option Action * Z :=
  let sum := fold_left (fun acc a => acc + weight_at weights a) legal 0 in
  if Qle_bool sum Engine.tiny then
    let (i, s') := randInt s (length legal) in (legal !! i, s')
  else
    let (r0, s') := rand s in
    let r := r0 * sum in
    match pick_by_weight legal weights r with
    | Some a => (Some a, s')
    | None => (last legal, s')
    end.

Definition legalActions (cfg : Config) (s : HandState) : list Action :=
  ActionModel.legalActions s (MAX_RAISES cfg) (BIG_BLIND cfg).

Definition actionTarget (cfg : Config) (s : HandState) (act : Action) : Q :=
  ActionModel.actionTarget s act (BIG_BLIND cfg).

(** [applyAction(state, act)] of the trainer. *)
Definition applyAction (cfg : Config) (s0 : HandState) (act0 : Action)
  : HandState :=
  let p := toAct s0 in
  let o := other p in
  let toCall := Math_max 0 (currentBet s0 - get2 (commit s0) p) in
  let act := if action_eqb act0 CALL && Qle_bool toCall eps
             then CHECK else act0 in
  match act with
  | FOLD =>
      let s1 := set_terminal s0 true in
      let s2 := set_winner s1 (seat_index o) in
      let s3 := set_history s2 (history s2 +:+ "f") in
      set_acted s3 (set2 (acted s3) p true)
  | CHECK =>
      let s1 := set_history s0 (history s0 +:+ "k") in
      let s2 := set_toAct s1 o in
      set_acted s2 (set2 (acted s2) p true)
  | _ =>
      let target := actionTarget cfg s0 act in
      let pay := Math_max 0 (target - get2 (commit s0) p) in
      let realPay := Math_min pay (get2 (stack s0) p) in
      let s1 := set_stack s0 (set2 (stack s0) p (get2 (stack s0) p - realPay)) in
      let s2 := set_commit s1 (set2 (commit s1) p (get2 (commit s1) p + realPay)) in
      let s3 := set_pot s2 (pot s2 + realPay) in
      let s4 := set_history s3 (history s3 +:+ "x") in
      match act with
      | CALL | ALL_IN =>
          let s5 := set_acted s4 (set2 (acted s4) p true) in
          let s6 :=
            if Qlt_bool (currentBet s5) (get2 (commit s5) p) then
              let s6a := set_currentBet s5 (get2 (commit s5) p) in
              let s6b := set_raises s6a (raises s6a + 1)%Z in
              set_acted s6b (set2 (false, false) p true)
            else s5 in
          set_toAct s6 o
      | _ =>
          let s5 := set_currentBet s4 (get2 (commit s4) p) in
          let s6 := set_raises s5 (raises s5 + 1)%Z in
          let s7 := set_acted s6 (set2 (false, false) p true) in
          set_toAct s7 o
      end
  end.

(** [needsStreetAdvance(state)]. *)
Definition needsStreetAdvance (st : HandState) : bool :=
  let evenCommit :=
    Qle_bool (Qabs (fst (commit st) - snd (commit st))) eps &&
    Qle_bool (Math_max (currentBet st - get2 (commit st) (toAct st)) 0) eps in
  evenCommit && fst (acted st) && snd (acted st).

(** [bettingClosedAllIn(state)]. *)
Definition bettingClosedAllIn (st : HandState) : bool :=
  let s0AllIn := Qle_bool (fst (stack st)) eps in
  let s1AllIn := Qle_bool (snd (stack st)) eps in
  if negb (s0AllIn || s1AllIn) then false
  else
    let toCall0 := Math_max 0 (currentBet st - fst (commit st)) in
    let toCall1 := Math_max 0 (currentBet st - snd (commit st)) in
    Qle_bool toCall0 eps && Qle_bool toCall1 eps.

(** [advanceStreet(state, fullBoard)]. *)
Definition advanceStreet (st : HandState) (fullBoard : list card)
  : HandState :=
  let st1 := set_streetIdx st (streetIdx st + 1) in
  let st2 := set_street st1 (streets !! streetIdx st1) in
  let st3 :=
    if Nat.eqb (streetIdx st2) 1 then set_board st2 (firstn 3 fullBoard)
    else if Nat.eqb (streetIdx st2) 2 then set_board st2 (firstn 4 fullBoard)
    else if Nat.eqb (streetIdx st2) 3 then set_board st2 (firstn 5 fullBoard)
    else st2 in
  let st4 := set_currentBet st3 0 in
  let st5 := set_commit st4 (0, 0) in
  let st6 := set_raises st5 0%Z in
  let st7 := set_acted st6 (false, false) in
  set_toAct st7 Seat0.

(** The loop [while (!state.terminal && state.streetIdx < 3)
    advanceStreet(state, fullBoard)], which runs [3 - streetIdx] times. *)
Definition advance_to_river (st : HandState) (fullBoard : list card)
  : HandState :=
  if terminal st then st
  else Nat.iter (3 - streetIdx st) (fun s => advanceStreet s fullBoard) st.

(** [maybeProgressState(state, fullBoard)].  The outer loop only repeats
    after a street advance below the river, at most three times; [n] bounds
    the repetitions. *)
Fixpoint progress_loop (n : nat) (st : HandState) (fullBoard : list card)
  : HandState :=
  if terminal st then st
  else if bettingClosedAllIn st then
    let st1 := advance_to_river st fullBoard in
    if Nat.eqb (streetIdx st1) 3
    then set_winner (set_terminal st1 true) (-1)
    else st1
  else if needsStreetAdvance st then
    if (streetIdx st <? 3)%nat then
      match n with
      | S n' => progress_loop n' (advanceStreet st fullBoard) fullBoard
      | O => advanceStreet st fullBoard
      end
    else set_winner (set_terminal st true) (-1)
  else st.

Definition maybeProgressState (st : HandState) (fullBoard : list card)
  : HandState :=
  progress_loop 3 st fullBoard.

(** The context of a hand: [ctx.hands] and [ctx.fullBoard]. *)
Record HandContext : Type := mkContext {
  hands : list card * list card;
  fullBoard : list card
}.

(** An entry of the node table. *)
Record Node : Type := mkNode {
  regrets : list Q;
  strategySum : list Q;
  legalSeen : list bool;
  visits : Z
}.

(** The mutable objects threaded through the traversal: the generator
    state, the node table and the equity cache. *)
Record Store : Type := mkStore {
  rng : Z;
  nodeMap : gmap string Node;
  equityCache : gmap string Q
}.



Definition set_equityCache (sto : Store) (c : gmap string Q) : Store :=
  mkStore (rng sto) (nodeMap sto) c.

(** [cards.slice().sort()], by code units. *)
Fixpoint insert_card (c : card) (l : list card) : list card :=
  match l with
  | [] => [c]
  | d :: rest =>
      if String.leb c d then c :: l else d :: insert_card c rest
  end.

(** [arr.join(",")]. *)
Fixpoint join_comma (l : list string) : string :=
  match l with
  | [] => ""
  | [c] => c
  | c :: rest => c +:+ "," +:+ join_comma rest
  end.

(** [canonicalCards(cards)]. *)
Definition canonicalCards (cards : list card) : string :=
  join_comma (fold_right insert_card [] cards).

(** [arr.pop()] and the array after it. *)
Definition pop {T : Type} (l : list T) : option T * list T :=
  (last l, removelast l).

(** [arr[a]] and [arr[a] = v] on the arrays indexed by action. *)
Definition at8 (arr : list Q) (a : Action) : Q :=
  default 0 (arr !! action_index a).

Definition set8 {T : Type} (arr : list T) (a : Action) (v : T) : list T :=
  <[action_index a := v]> arr.



(** [currentStrategy(node, legal)]. *)
Definition currentStrategy (node : Node) (legal : list Action) : list Q :=
  let strat0 := replicate 8 0 in
  let '(strat1, sum) :=
    fold_left (fun '(strat, sum) a =>
                 let v := Math_max 0 (at8 (regrets node) a) in
                 (set8 strat a v, sum + v))
              legal (strat0, 0) in
  if Qle_bool sum Engine.tiny then
    let u := 1 / Math_max 1 (inject_Z (Z.of_nat (length legal))) in
    fold_left (fun strat a => set8 strat a u) legal strat1
  else
    fold_left (fun strat a => set8 strat a (at8 strat a / sum)) legal strat1.


(** [sampleDeck(rand)]. *)
Definition sampleDeck (s : Z) : list card * Z :=
  shuffleInPlace Engine.full_deck s.

(** [createHandContext(rand)]: the context, its [state], and the generator
    state after the shuffle.  The nine [deck.pop()] take the cards from the
    end of the shuffled deck. *)
Definition createHandContext (cfg : Config) (s : Z)
  : HandContext * HandState * Z :=
  let (deck, s') := sampleDeck s in
  let popped := rev deck in
  ({| hands := (firstn 2 popped, firstn 2 (skipn 2 popped));
      fullBoard := firstn 5 (skipn 4 popped) |},
   Engine.initialState cfg, s').

(** The strings returned by [preflopTier]. *)
Inductive Tier : Set :=
  | premium | strong | medium | speculative | trash.

(** [rankValue(card)]. *)
Definition rankValue (c : card) : Z :=
  match c with
  | String r _ => (InfosetV1.indexOf_from r "23456789TJQKA" 0 + 2)%Z
  | EmptyString => (-1 + 2)%Z
  end.

(** [preflopTier(hand)]; [None] is the [TypeError] raised when [hand] holds
    fewer than two cards. *)
Definition preflopTier (hand : list card) : option Tier :=
  match hand with
  | c1 :: c2 :: _ =>
      let r1 := rankValue c1 in
      let r2 := rankValue c2 in
      let hi := Z.max r1 r2 in
      let lo := Z.min r1 r2 in
      let pair := Z.eqb r1 r2 in
      let suited := bool_decide (String.get 1 c1 = String.get 1 c2) in
      let gap := (hi - lo)%Z in
      Some
        (if pair then
           if (12 <=? hi)%Z then premium
           else if (9 <=? hi)%Z then strong
           else if (6 <=? hi)%Z then medium
           else speculative
         else if suited && (hi =? 14)%Z && (10 <=? lo)%Z then premium
         else if (hi =? 14)%Z && (12 <=? lo)%Z then strong
         else if suited && (13 <=? hi)%Z && (10 <=? lo)%Z then strong
         else if (13 <=? hi)%Z && (11 <=? lo)%Z then medium
         else if suited && (gap <=? 2)%Z && (9 <=? hi)%Z then medium
         else if suited && (hi =? 14)%Z then medium
         else if (gap <=? 1)%Z && (10 <=? hi)%Z then speculative
         else if suited && (9 <=? hi)%Z then speculative
         else trash)
  | _ => None
  end.

(** [preflopHsByTier(tier)]. *)
Definition preflopHsByTier (tier : Tier) : Q :=
  match tier with
  | premium => 0.67
  | strong => 0.58
  | medium => 0.50
  | speculative => 0.43
  | trash => 0.34
  end.

(** [normalizeWeights(weights, legal)]. *)
Definition normalizeWeights (weights : list Q) (legal : list Action)
  : list Q :=
  let sum :=
    fold_left (fun acc a => acc + Math_max 0 (at8 weights a)) legal 0 in
  if Qle_bool sum Engine.tiny then
    let u := 1 / Math_max 1 (inject_Z (Z.of_nat (length legal))) in
    fold_left (fun w a => set8 w a u) legal weights
  else
    fold_left (fun w a => set8 w a (Math_max 0 (at8 w a) / sum)) legal weights.

(** [buildPreflopMix(hand, legal, hs, toCall, raises)]. *)
Definition buildPreflopMix (hand : list card) (legal : list Action)
  (hs toCall : Q) (raises : Z) : option (list Q) :=
  match preflopTier hand with
  | None => None
  | Some tier =>
      let facingRaise := Qlt_bool eps toCall && (1 <=? raises)%Z in
      let '(raise0, call, passive0) :=
        if negb facingRaise then
          match tier with
          | premium => (0.95, 0.05, 0)
          | strong => (0.85, 0.13, 0.02)
          | medium => (0.62, 0.30, 0.08)
          | speculative => (0.36, 0.42, 0.22)
          | trash => (0.14, 0.32, 0.54)
          end
        else
          match tier with
          | premium => (0.70, 0.25, 0.05)
          | strong => (0.35, 0.50, 0.15)
          | medium => (0.12, 0.43, 0.45)
          | speculative => (0.06, 0.30, 0.64)
          | trash => (0.02, 0.18, 0.80)
          end in
      let '(raise, passive) :=
        if Qlt_bool hs 0.42
        then (Math_max 0 (raise0 - 0.10), Math_min 1 (passive0 + 0.10))
        else if Qlt_bool 0.62 hs
        then (Math_min 1 (raise0 + 0.08), Math_max 0 (passive0 - 0.06))
        else (raise0, passive0) in
      let has := includes_action legal in
      let w0 := replicate 8 0 in
      let w1 :=
        if has RAISE_HALF
        then set8 w0 RAISE_HALF (raise * (if has RAISE_POT then 0.85 else 1))
        else w0 in
      let w2 :=
        if has RAISE_POT
        then set8 w1 RAISE_POT (raise * (if has RAISE_HALF then 0.15 else 1))
        else w1 in
      let w3 := if has CALL then set8 w2 CALL call else w2 in
      let w4 := if has CHECK then set8 w3 CHECK passive else w3 in
      let w5 :=
        if has FOLD && negb (has CHECK) then set8 w4 FOLD passive else w4 in
      let w6 :=
        if has ALL_IN
        then set8 w5 ALL_IN (if Qlt_bool 0.80 hs then 0.06 else 0)
        else w5 in
      Some (normalizeWeights w6 legal)
  end.

(** The probabilities [exportPolicy] writes for one node; [None] is a node
    it skips. *)
Definition export_probs (node : Node) : option (list Q) :=
  let seen := fun a => default false (legalSeen node !! action_index a) in
  let '(probs, sum) :=
    fold_left (fun '(probs, sum) a =>
                 if seen a then
                   let v := Math_max 0 (at8 (strategySum node) a) in
                   (set8 probs a v, sum + v)
                 else (probs, sum))
              all_actions (replicate 8 0, 0) in
  if Qle_bool sum Engine.tiny then
    let legal := filter seen all_actions in
    match legal with
    | [] => None
    | _ =>
        let u := 1 / inject_Z (Z.of_nat (length legal)) in
        Some (map (toFixed 8) (fold_left (fun ps a => set8 ps a u) legal probs))
    end
  else Some (map (toFixed 8) (map (fun x => x / sum) probs)).

(** [exportPolicy(nodeMap)]. *)
Definition exportPolicy (m : gmap string Node) : gmap string (list Q) :=
  omap export_probs m.

Section Traversal.

Variable evalHand : list (option card) -> Z.
Variable cfg : Config.
Variable EQUITY_TRIALS_TRAIN : nat.

(** One pass of the trial loop of [evalStrengthRandomRange]. *)
Definition one_trial (heroHand board avail : list card) (tl : Engine.Tally)
  (s : Z) : Engine.Tally * Z :=
  let (pool0, s') := shuffleInPlace avail s in
  let (o1, pool1) := pop pool0 in
  let (o2, pool2) := pop pool1 in
  let opp := [o1; o2] in
  let fill :=
    fix fill (need : nat) (pool : list card) (boardFill : list (option card))
      : list (option card) :=
      match need with
      | O => boardFill
      | S k => let (c, pool') := pop pool in fill k pool' (boardFill ++ [c])
      end in
  let boardFill := fill (5 - length board)%nat pool2 (map Some board) in
  let h := evalHand (map Some heroHand ++ boardFill) in
  let o := evalHand (opp ++ boardFill) in
  let tl1 :=
    if (o <? h)%Z
    then Engine.mkTally (Engine.t_wins tl + 1) (Engine.t_ties tl)
           (Engine.t_total tl)
    else if (h =? o)%Z
    then Engine.mkTally (Engine.t_wins tl) (Engine.t_ties tl + 1)
           (Engine.t_total tl)
    else tl in
  (Engine.mkTally (Engine.t_wins tl1) (Engine.t_ties tl1)
     (Engine.t_total tl1 + 1), s').

Fixpoint trial_loop (trials : nat) (heroHand board avail : list card)
  (tl : Engine.Tally) (s : Z) : Engine.Tally * Z :=
  match trials with
  | O => (tl, s)
  | S n =>
      let (tl', s') := one_trial heroHand board avail tl s in
      trial_loop n heroHand board avail tl' s'
  end.

(** [evalStrengthRandomRange(heroHand, board, trials, rand, cache)]. *)
Definition evalStrengthRandomRange (heroHand board : list card)
  (trials : nat) (sto : Store) : Q * Store :=
  if negb (Nat.eqb (length heroHand) 2) then (0.5, sto)
  else
    let key := canonicalCards heroHand +:+ "|" +:+ canonicalCards board
               +:+ "|t=" +:+ string_of_Z (Z.of_nat trials) in
    match equityCache sto !! key with
    | Some v => (v, sto)
    | None =>
        let avail := Engine.available heroHand board None in
        let (tl, s') :=
          trial_loop trials heroHand board avail (Engine.mkTally 0 0 0)
            (rng sto) in
        let hs :=
          if (0 <? Engine.t_total tl)%Z
          then (inject_Z (Engine.t_wins tl)
                + 0.5 * inject_Z (Engine.t_ties tl))
               / inject_Z (Engine.t_total tl)
          else 0.5 in
        (hs, mkStore s' (nodeMap sto) (<[key := hs]> (equityCache sto)))
    end.

(** [estimateHsCached(ctx, state, player, trials, rand, cache)]. *)
Definition estimateHsCached (ctx : HandContext) (st : HandState)
  (player : Seat) (trials : nat) (sto : Store) : Q * Store :=
  let hand := get2 (hands ctx) player in
  let key := canonicalCards hand +:+ "|" +:+ canonicalCards (board st)
             +:+ "|" +:+ string_of_Z (Z.of_nat trials) in
  match equityCache sto !! key with
  | Some v => (v, sto)
  | None =>
      let (hs, sto') := evalStrengthRandomRange hand (board st) trials sto in
      (hs, set_equityCache sto' (<[key := hs]> (equityCache sto')))
  end.

(** [resolveWinner(ctx, state)]. *)
Definition resolveWinner (ctx : HandContext) (st : HandState) : Z :=
  if Z.eqb (winner st) 0 || Z.eqb (winner st) 1 then winner st
  else
    let board := firstn 5 (fullBoard ctx) in
    let h0 := evalHand (map Some (fst (hands ctx) ++ board)) in
    let h1 := evalHand (map Some (snd (hands ctx) ++ board)) in
    if (h1 <? h0)%Z then 0%Z
    else if (h0 <? h1)%Z then 1%Z
    else (-1)%Z.

(** [terminalUtility(ctx, state, traverser)]. *)
Definition terminalUtility (ctx : HandContext) (st : HandState)
  (traverser : Seat) : Q :=
  let winner := resolveWinner ctx st in
  let stacks :=
    if Z.eqb winner 0 then (fst (stack st) + pot st, snd (stack st))
    else if Z.eqb winner 1 then (fst (stack st), snd (stack st) + pot st)
    else (fst (stack st) + pot st * 0.5, snd (stack st) + pot st * 0.5) in
  (get2 stacks traverser - START_STACK cfg) / BIG_BLIND cfg.







End Traversal.

End Trainer.

(** ** Reachable hands *)

(** Sessions reachable from a freshly dealt hand by [applyAction] on any
    action and by [advanceStreet]. *)
Inductive hand_reachable (cfg : Config) : Engine.Session -> Prop :=
  | reach_deal : forall humanSeat handIndex sc g,
      hand_reachable cfg (fst (Engine.newHand cfg humanSeat handIndex sc g))
  | reach_action : forall sess a,
      hand_reachable cfg sess ->
      hand_reachable cfg
        (Engine.set_state sess (Engine.applyAction cfg (Engine.state sess) a))
  | reach_street : forall sess,
      hand_reachable cfg sess ->
      hand_reachable cfg (Engine.advanceStreet sess).

(** Sessions reachable from a freshly dealt hand by legal actions only. *)
Inductive legal_reachable (cfg : Config) : Engine.Session -> Prop :=
  | legal_deal : forall humanSeat handIndex sc g,
      legal_reachable cfg (fst (Engine.newHand cfg humanSeat handIndex sc g))
  | legal_action : forall sess a,
      legal_reachable cfg sess ->
      In a (Engine.legalActions cfg (Engine.state sess)) ->
      legal_reachable cfg
        (Engine.set_state sess (Engine.applyAction cfg (Engine.state sess) a)).

(** Sessions reachable by legal actions and street advances. *)
Inductive play_reachable (cfg : Config) : Engine.Session -> Prop :=
  | play_deal : forall humanSeat handIndex sc g,
      play_reachable cfg (fst (Engine.newHand cfg humanSeat handIndex sc g))
  | play_action : forall sess a,
      play_reachable cfg sess ->
      In a (Engine.legalActions cfg (Engine.state sess)) ->
      play_reachable cfg
        (Engine.set_state sess (Engine.applyAction cfg (Engine.state sess) a))
  | play_street : forall sess,
      play_reachable cfg sess ->
      play_reachable cfg (Engine.advanceStreet sess).

(** The chips on the table and behind. *)
Definition chips (s : HandState) : Q :=
  pot s + fst (stack s) + snd (stack s).

(** ** Concrete inputs *)

(** A random source that always draws 0. *)
Definition zero_rng : Rng :=
  mkRng (fun _ => 0) 0 (fun _ => conj (Qle_refl 0) (eq_refl Lt)).

Definition zero_score : Engine.Score := Engine.mkScore 0 0 0 0.

(** Apply [a] to the state of [sess]. *)
Definition act (cfg : Config) (sess : Engine.Session) (a : Action)
  : Engine.Session :=
  Engine.set_state sess (Engine.applyAction cfg (Engine.state sess) a).

(** A hand dealt with the default configuration. *)
Definition fresh_hand : Engine.Session :=
  fst (Engine.newHand default_config Seat0 0 zero_score zero_rng).

(** Small blind raises, big blind re-raises, small blind re-raises, big
    blind moves all in. *)
Definition three_raises : Engine.Session :=
  act default_config
    (act default_config (act default_config fresh_hand RAISE_HALF) RAISE_HALF)
    RAISE_HALF.

Definition over_cap_hand : Engine.Session :=
  act default_config three_raises ALL_IN.

(** Small blind raises, big blind calls, the flop is dealt. *)
Definition flop_hand : Engine.Session :=
  Engine.advanceStreet
    (act default_config (act default_config fresh_hand RAISE_HALF) CALL).

(** A flop state whose acting seat holds a stack of [5e-10] chips. *)
Definition dust_stack_state : HandState :=
  {| streetIdx := 1; street := Some "flop"; pot := 400; currentBet := 0;
     commit := (0, 0); stack := (0.0000000005, 0); raises := 0;
     consecutiveChecks := 0; acted := (false, false); history := "";
     terminal := false; winner := (-1); toAct := Seat0; board := [] |}.

(** ** Statements of the specification *)

(** A belief is normalized: components non-negative, sum 1. *)
Definition normalized (b : Engine.Belief) : Prop :=
  0 <= Engine.weak b /\ 0 <= Engine.medium b /\ 0 <= Engine.strong b /\
  Engine.weak b + Engine.medium b + Engine.strong b == 1.

(** "Clamp negatives to 0, then rescale to sum 1". *)
Definition clamp_rescale_spec (b : Engine.Belief) : Engine.Belief :=
  let w := Math_max 0 (Engine.weak b) in
  let m := Math_max 0 (Engine.medium b) in
  let s := Math_max 0 (Engine.strong b) in
  Engine.mkBelief (w / (w + m + s)) (m / (w + m + s)) (s / (w + m + s)).



(** The five SPR bands. *)
Definition spr_bands : list string := ["0_1"; "1_2"; "2_4"; "4_8"; "8_plus"].

(** The canonical form
    [<street>|<position>|tex=<bits>|spr=<band>|<bet_state>|r=<raises>|hs=<band>]
    with its segments: a position label, four texture bits, an SPR band, a
    bet state, a non-negative raise count and a strength band 0..9. *)
Definition well_formed_key (key : string) : Prop :=
  exists (street position band betState : string) (b1 b2 b3 b4 : bool)
         (r h : Z),
    key = street +:+ "|" +:+ position
          +:+ "|tex=" +:+ InfosetV1.bit b1 +:+ InfosetV1.bit b2
                      +:+ InfosetV1.bit b3 +:+ InfosetV1.bit b4
          +:+ "|spr=" +:+ band
          +:+ "|" +:+ betState
          +:+ "|r=" +:+ string_of_Z r
          +:+ "|hs=" +:+ string_of_Z h /\
    In position ["IP"; "OOP"] /\
    In band spr_bands /\
    In betState ["unopened"; "facingBet"] /\
    (0 <= r)%Z /\ (0 <= h <= 9)%Z.

(** A [Math.pow] for examples: the square root is taken on integers
    scaled by [10^18], so it is exact at [1]. *)
Definition sqrt_approx (x : Q) : Q :=
  Qmake (Z.sqrt (Qfloor (x * 1000000000000000000))) 1000000000.

Definition pow_approx (x e : Q) : Q :=
  if Qeq_bool e 0.5 then sqrt_approx x
  else if Qeq_bool e 1.5 then x * sqrt_approx x
  else x.




(** The cards one trial deals: the opponent hand (the given one, or two
    cards drawn from the deck left) and the board completed to five cards
    from the deck left without them; and the random source after the
    draws. *)
Definition trial_deal (board : list card) (oppHand : option (list card))
  (avail : list card) (g : Rng)
  : (list (option card) * list (option card)) * Rng :=
  let (opp, g1) :=
    match oppHand with
    | Some oh => (map Some oh, g)
    | None => Engine.sample_opp avail g
    end in
  let pool := filter (fun c => negb (Engine.includes opp c)) avail in
  let (boardFill, g2) :=
    Engine.fill_board (5 - length board) pool (map Some board) g1 in
  ((opp, boardFill), g2).

(** The deals of [trials] successive trials, the random source threaded
    through them. *)
Fixpoint trial_deals (trials : nat) (board : list card)
  (oppHand : option (list card)) (avail : list card) (g : Rng)
  : list (list (option card) * list (option card)) :=
  match trials with
  | O => []
  | S n =>
      let (d, g') := trial_deal board oppHand avail g in
      d :: trial_deals n board oppHand avail g'
  end.

(** The hero hand evaluates higher than the opponent's on a deal. *)
Definition hero_wins (evalHand : list (option card) -> Z)
  (heroHand : list card) (d : list (option card) * list (option card))
  : bool :=
  (evalHand (fst d ++ snd d) <? evalHand (map Some heroHand ++ snd d))%Z.

(** Both hands evaluate the same on a deal. *)
Definition hero_ties (evalHand : list (option card) -> Z)
  (heroHand : list card) (d : list (option card) * list (option card))
  : bool :=
  (evalHand (map Some heroHand ++ snd d) =? evalHand (fst d ++ snd d))%Z.

(** The number of deals that satisfy [test]. *)
Definition count_deals
  (test : list (option card) * list (option card) -> bool)
  (deals : list (list (option card) * list (option card))) : Z :=
  Z.of_nat (length (List.filter test deals)).

(** The counters of the trial loop: wins and ties are counted among the
    trials. *)
Definition tally_ok (tl : Engine.Tally) : Prop :=
  (0 <= Engine.t_wins tl)%Z /\ (0 <= Engine.t_ties tl)%Z /\
  (Engine.t_wins tl + Engine.t_ties tl <= Engine.t_total tl)%Z.

(** A probability vector: non-negative entries of sum 1. *)
Definition distribution (l : list Q) : Prop :=
  Forall (fun x => 0 <= x) l /\ Engine.sumQ l == 1.

(** The invariant of the solver loop: the arrays range over the legal
    actions, and the strategy sum is a non-negative vector whose total is
    the number of iterations. *)
Definition rt_inv (legal : list Action) (ls : Engine.RtLoop) : Prop :=
  length (Engine.rt_regrets ls) = length legal /\
  length (Engine.rt_strategySum ls) = length legal /\
  Forall (fun x => 0 <= x) (Engine.rt_strategySum ls) /\
  Engine.sumQ (Engine.rt_strategySum ls)
  == inject_Z (Engine.rt_iterations ls) /\
  (0 <= Engine.rt_iterations ls)%Z.

(** A hand evaluator for examples: the number of cards. *)
Definition count_evaluator (cards : list (option card)) : Z :=
  Z.of_nat (length cards).

(** A hand evaluator for examples: the sum of the ranks of the cards. *)
Definition rank_sum_evaluator (cards : list (option card)) : Z :=
  fold_right (fun o acc =>
                (acc + match o with
                       | Some c => InfosetV1.rankValue c
                       | None => 0
                       end)%Z) 0%Z cards.

(** A random source that repeats the draws 0, 0.5, 0.9, 0.3, 0.7. *)
Definition cycling_rng : Rng.
Proof.
  refine (mkRng (fun n => match (n mod 5)%nat with
                          | 0%nat => 0
                          | 1%nat => 1 # 2
                          | 2%nat => 9 # 10
                          | 3%nat => 3 # 10
                          | _ => 7 # 10
                          end) 0 _).
  intros n. destruct (n mod 5)%nat as [| [| [| [| k]]]];
    split; reflexivity || discriminate.
Defined.

(** A river node of the trainer: both seats checked every street after a
    limped pot, seat 0 moved all in, seat 1 can only fold or call. *)
Definition river_ctx : Trainer.HandContext :=
  Trainer.mkContext (["As"; "Ks"], ["Qd"; "Jd"]) ["2c"; "7d"; "9h"; "Jc"; "3s"].




Definition river_node : Trainer.Node :=
  Trainer.mkNode [1; 0; 3; 0; 0; 0; 0; 0] (replicate 8 0)
    (replicate 8 false) 0.


(** A run of the realtime solver on the three legal actions of
    [three_raises], without a blueprint prior: the clock reads 0 at the
    start, 100 at the first test of the budget of 300 ms and 400 at the
    second, so one iteration is run. *)
Definition rt_example : option Engine.RtResult :=
  Engine.solveRtSubgameDCFR pow_approx 0.65 default_config
    (Engine.state three_raises) [FOLD; CALL; ALL_IN] 0.5 None None None 5
    None 300 0 [100; 400]%Z 400 zero_rng.

(** ** Invariants of reachable states *)

(** Blinds and stacks as a table is set up: [0 <= SB <= BB <= START]. *)
Definition sane_config (cfg : Config) : Prop :=
  0 <= SMALL_BLIND cfg /\ SMALL_BLIND cfg <= BIG_BLIND cfg /\
  BIG_BLIND cfg <= START_STACK cfg.

(** No negative amount, and [currentBet] is the larger street commitment. *)
Definition state_ok (s : HandState) : Prop :=
  0 <= fst (stack s) /\ 0 <= snd (stack s) /\ 0 <= pot s /\
  0 <= fst (commit s) /\ 0 <= snd (commit s) /\
  fst (commit s) <= currentBet s /\ snd (commit s) <= currentBet s /\
  (currentBet s == fst (commit s) \/ currentBet s == snd (commit s)).

(** The chips a betting action moves from the acting stack to the pot:
    [realPay] of [applyAction]. *)
Definition real_pay (cfg : Config) (s : HandState) (a : Action) : Q :=
  Math_min (Engine.actionTarget cfg s a - get2 (commit s) (toAct s))
           (get2 (stack s) (toAct s)).

(** The amounts of a state: stacks, street commitments, pot and bet. *)
Definition money (s : HandState) : (Q * Q) * (Q * Q) * Q * Q :=
  (stack s, commit s, pot s, currentBet s).

(** The session with [seat] as the human seat. *)
Definition set_humanSeat (sess : Engine.Session) (seat : Seat)
  : Engine.Session :=
  Engine.mkSession seat (Engine.handIndex sess) (Engine.hero sess)
    (Engine.vill sess) (Engine.sess_board sess) (Engine.fullBoard sess)
    (Engine.state sess) (Engine.resolved sess) (Engine.lastResult sess)
    (Engine.rangeBeliefs sess) (Engine.score sess).

(** What [settleTerminal] adds to the net score of the session. *)
Definition settle_gain (evalHand : list (option card) -> Z) (cfg : Config)
  (sess : Engine.Session) : Q :=
  Engine.net (Engine.score (snd (Engine.settleTerminal evalHand cfg sess)))
  - Engine.net (Engine.score sess).

(** The counters after a settlement that moved the net score by [gain]:
    the one the sign of [gain] selects is one higher, the other two are as
    they were. *)
Definition one_counter_incremented (gain : Q) (sc sc' : Engine.Score)
  : Prop :=
  (eps < gain /\
   Engine.wins sc' = (Engine.wins sc + 1)%Z /\
   Engine.losses sc' = Engine.losses sc /\
   Engine.ties sc' = Engine.ties sc) \/
  (gain < - eps /\
   Engine.wins sc' = Engine.wins sc /\
   Engine.losses sc' = (Engine.losses sc + 1)%Z /\
   Engine.ties sc' = Engine.ties sc) \/
  (- eps <= gain <= eps /\
   Engine.wins sc' = Engine.wins sc /\
   Engine.losses sc' = Engine.losses sc /\
   Engine.ties sc' = (Engine.ties sc + 1)%Z).

(** The cards visible on street [idx]. *)
Definition expected_board_length (idx : nat) : nat :=
  nth idx [0; 3; 4; 5]%nat 0%nat.

(** Trainer states reachable from the blinds by [applyAction] on any action
    and by [maybeProgressState]. *)
Inductive trainer_reachable (cfg : Config) (fullBoard : list card)
  : HandState -> Prop :=
  | treach_blinds :
      trainer_reachable cfg fullBoard (Engine.initialState cfg)
  | treach_action : forall st a,
      trainer_reachable cfg fullBoard st ->
      trainer_reachable cfg fullBoard (Trainer.applyAction cfg st a)
  | treach_progress : forall st,
      trainer_reachable cfg fullBoard st ->
      trainer_reachable cfg fullBoard
        (Trainer.maybeProgressState st fullBoard).

(** The total of an action-indexed array over the legal actions. *)
Definition sum_over (legal : list Action) (arr : list Q) : Q :=
  Engine.sumQ (map (Trainer.at8 arr) legal).

(** A node visited with two actions seen legal. *)
Definition visited_node : Trainer.Node :=
  Trainer.mkNode (replicate 8 0) [0; 3; 0; 1; 0; 0; 0; 0]
    [false; true; false; true; false; false; false; false] 2.

(** ** Betting rounds of the trainer *)











(** * Properties *)

(** ** Numeric helpers *)

Lemma Qlt_bool_iff (a b : Q) : Qlt_bool a b = true <-> a < b.
Proof.
  unfold Qlt_bool. rewrite negb_true_iff.
  destruct (Qle_bool b a) eqn:E.
  - apply Qle_bool_iff in E. split; [discriminate | lra].
  - split; [intros _ | reflexivity].
    apply Qnot_le_lt. intros H. apply Qle_bool_iff in H. congruence.
Qed.

Lemma Qlt_bool_false (a b : Q) : Qlt_bool a b = false <-> b <= a.
Proof.
  unfold Qlt_bool. rewrite negb_false_iff. apply Qle_bool_iff.
Qed.

Lemma Qle_bool_false (a b : Q) : Qle_bool a b = false <-> b < a.
Proof.
  split; intros H.
  - apply Qnot_le_lt. intros H'. apply Qle_bool_iff in H'. congruence.
  - destruct (Qle_bool a b) eqn:E; [| reflexivity].
    apply Qle_bool_iff in E. lra.
Qed.

Lemma Math_max_spec (a b : Q) :
  (a <= b /\ Math_max a b = b) \/ (b < a /\ Math_max a b = a).
Proof.
  unfold Math_max. destruct (Qle_bool a b) eqn:E.
  - left. split; [now apply Qle_bool_iff | reflexivity].
  - right. split; [now apply Qle_bool_false | reflexivity].
Qed.

Lemma Math_min_spec (a b : Q) :
  (a <= b /\ Math_min a b = a) \/ (b < a /\ Math_min a b = b).
Proof.
  unfold Math_min. destruct (Qle_bool a b) eqn:E.
  - left. split; [now apply Qle_bool_iff | reflexivity].
  - right. split; [now apply Qle_bool_false | reflexivity].
Qed.

Lemma Math_max_lb_l (a b : Q) : a <= Math_max a b.
Proof. destruct (Math_max_spec a b) as [[H ->] | [H ->]]; lra. Qed.

Lemma Math_max_lb_r (a b : Q) : b <= Math_max a b.
Proof. destruct (Math_max_spec a b) as [[H ->] | [H ->]]; lra. Qed.

Lemma Math_min_ub_l (a b : Q) : Math_min a b <= a.
Proof. destruct (Math_min_spec a b) as [[H ->] | [H ->]]; lra. Qed.

Lemma Math_min_ub_r (a b : Q) : Math_min a b <= b.
Proof. destruct (Math_min_spec a b) as [[H ->] | [H ->]]; lra. Qed.


(** Case analysis on the numeric tests of a goal or hypothesis. *)
Ltac case_max a b :=
  let H := fresh "Hmax" in
  let E := fresh "Emax" in
  destruct (Math_max_spec a b) as [[H E] | [H E]]; rewrite ?E in *.

Ltac case_min a b :=
  let H := fresh "Hmin" in
  let E := fresh "Emin" in
  destruct (Math_min_spec a b) as [[H E] | [H E]]; rewrite ?E in *.

Ltac case_qle a b :=
  let E := fresh "Ele" in
  destruct (Qle_bool a b) eqn:E;
  [ pose proof (proj1 (Qle_bool_iff a b) E)
  | pose proof (proj1 (Qle_bool_false a b) E) ].

Ltac case_qlt a b :=
  let E := fresh "Elt" in
  destruct (Qlt_bool a b) eqn:E;
  [ pose proof (proj1 (Qlt_bool_iff a b) E)
  | pose proof (proj1 (Qlt_bool_false a b) E) ].


(** ** Chip conservation *)

Lemma newHand_state (cfg : Config) hs idx sc g :
  Engine.state (fst (Engine.newHand cfg hs idx sc g)) = Engine.initialState cfg.
Proof.
  unfold Engine.newHand. destruct (Engine.dealDeck g) as [deck g']. reflexivity.
Qed.

Lemma chips_initial (cfg : Config) :
  chips (Engine.initialState cfg) == 2 * START_STACK cfg.
Proof. unfold chips, Engine.initialState; simpl. ring. Qed.

(** A payment moves chips from the stack of the acting seat to the pot. *)
Lemma chips_pay (s : HandState) (p : Seat) (x : Q) (sk : Q * Q) :
  sk = set2 (stack s) p (get2 (stack s) p - x) ->
  pot s + x + fst sk + snd sk == chips s.
Proof.
  intros ->. unfold chips. destruct p; simpl; ring.
Qed.

Lemma applyAction_chips (cfg : Config) (s : HandState) (a : Action) :
  chips (Engine.applyAction cfg s a) == chips s.
Proof.
  unfold Engine.applyAction.
  set (tc := Math_max 0 (currentBet s - get2 (commit s) (toAct s))).
  destruct (action_eqb a CALL && Qle_bool tc eps) eqn:Hnorm.
  - unfold chips; simpl. reflexivity.
  - destruct a; try (unfold chips; simpl; reflexivity);
      cbv zeta;
      repeat match goal with
             | |- context [if ?c then _ else _] => destruct c
             end;
      unfold chips; simpl;
      eapply chips_pay; reflexivity.
Qed.

Lemma advanceStreet_chips (sess : Engine.Session) :
  chips (Engine.state (Engine.advanceStreet sess)) = chips (Engine.state sess).
Proof.
  unfold Engine.advanceStreet, Engine.enforceBoardInvariant.
  cbv zeta.
  repeat match goal with
         | |- context [if ?c then _ else _] => destruct c
         end; reflexivity.
Qed.

(** C1.  Chip conservation: in every session reachable from a freshly dealt
    hand by applying actions and advancing streets, the pot and the two
    stacks add up to twice the starting stack. *)
Theorem chip_conservation (cfg : Config) (sess : Engine.Session) :
  hand_reachable cfg sess ->
  pot (Engine.state sess) + fst (stack (Engine.state sess))
    + snd (stack (Engine.state sess)) == 2 * START_STACK cfg.
Proof.
  intros H. change (chips (Engine.state sess) == 2 * START_STACK cfg).
  induction H as [hs idx sc g | sess a H IH | sess H IH].
  - rewrite newHand_state. apply chips_initial.
  - simpl. rewrite applyAction_chips. exact IH.
  - rewrite advanceStreet_chips. exact IH.
Qed.

Lemma flop_hand_reachable : hand_reachable default_config flop_hand.
Proof.
  unfold flop_hand, act, fresh_hand.
  apply reach_street, reach_action, reach_action, reach_deal.
Qed.

Lemma chip_conservation_witness :
  hand_reachable default_config flop_hand /\
  pot (Engine.state flop_hand) + fst (stack (Engine.state flop_hand))
    + snd (stack (Engine.state flop_hand)) == 2 * 200.
Proof.
  split; [exact flop_hand_reachable |].
  exact (chip_conservation default_config flop_hand flop_hand_reachable).
Defined.

(** ** Legal actions *)

Ltac break_ifs :=
  repeat match goal with
         | |- context [if ?c then _ else _] => destruct c eqn:?
         end.

(** C4.  Legal-action characterization, with the thresholds of the code:
    for a non-terminal state, when [to_call <= eps] the legal actions are
    CHECK and, when the acting stack exceeds [eps], BET_HALF, BET_POT and
    ALL_IN postflop or RAISE_HALF, RAISE_POT and ALL_IN preflop; otherwise
    they are FOLD and CALL, RAISE_HALF and RAISE_POT iff
    [stack > to_call + eps] and [raises < MAX_RAISES], and ALL_IN iff
    [stack > to_call + eps]; nothing else is emitted, and nothing twice. *)
Theorem legal_actions_characterization (cfg : Config) (s : HandState) :
  terminal s = false ->
  let to_call := Math_max 0 (currentBet s - get2 (commit s) (toAct s)) in
  let stk := get2 (stack s) (toAct s) in
  let legal := Engine.legalActions cfg s in
  List.NoDup legal /\
  (to_call <= eps ->
     In CHECK legal /\
     (forall a, In a [BET_HALF; BET_POT] ->
        (In a legal <-> eps < stk /\ streetIdx s <> 0%nat)) /\
     (forall a, In a [RAISE_HALF; RAISE_POT] ->
        (In a legal <-> eps < stk /\ streetIdx s = 0%nat)) /\
     (In ALL_IN legal <-> eps < stk) /\
     ~ In FOLD legal /\ ~ In CALL legal) /\
  (eps < to_call ->
     In FOLD legal /\ In CALL legal /\
     (forall a, In a [RAISE_HALF; RAISE_POT] ->
        (In a legal <->
         to_call + eps < stk /\ (raises s < MAX_RAISES cfg)%Z)) /\
     (In ALL_IN legal <-> to_call + eps < stk) /\
     ~ In CHECK legal /\ ~ In BET_HALF legal /\ ~ In BET_POT legal).
Proof.
  intros Hterm to_call stk legal.
  subst legal. unfold Engine.legalActions, ActionModel.legalActions.
  rewrite Hterm. cbv zeta. fold to_call. fold stk.
  case_qle to_call eps.
  - case_qlt eps stk.
    + destruct (Nat.eqb_spec (streetIdx s) 0) as [Hpre | Hpost].
      * split; [repeat constructor; simpl; intuition discriminate |].
        split; [intros _ | intros Hc; lra].
        simpl. repeat split; try tauto; intuition (subst; try discriminate; auto).
      * split; [repeat constructor; simpl; intuition discriminate |].
        split; [intros _ | intros Hc; lra].
        simpl. repeat split; try tauto; intuition (subst; try discriminate; auto).
    + split; [repeat constructor; simpl; intuition discriminate |].
      split; [intros _ | intros Hc; lra].
      simpl. repeat split; try tauto;
        intuition (subst; try discriminate; auto; try lra).
  - split.
    + break_ifs; repeat constructor; simpl; intuition discriminate.
    + split; [intros Hc; lra | intros _].
      case_qlt (to_call + eps) stk.
      * destruct (Z.ltb_spec (raises s) (MAX_RAISES cfg)) as [Hr | Hr]; simpl;
          repeat split; try tauto;
          intuition (subst; try discriminate; auto; try lia).
      * simpl. repeat split; try tauto;
          intuition (subst; try discriminate; auto; try lra).
Qed.

Lemma legal_actions_characterization_witness :
  terminal (Engine.state three_raises) = false /\
  In FOLD (Engine.legalActions default_config (Engine.state three_raises)) /\
  ~ In CHECK (Engine.legalActions default_config (Engine.state three_raises)).
Proof.
  split; [reflexivity |].
  pose proof (legal_actions_characterization default_config
                (Engine.state three_raises) eq_refl) as H.
  cbv zeta in H. destruct H as [_ [_ H]].
  assert (Hc : eps < Math_max 0
                 (currentBet (Engine.state three_raises)
                  - get2 (commit (Engine.state three_raises))
                         (toAct (Engine.state three_raises)))).
  { vm_compute. reflexivity. }
  specialize (H Hc). tauto.
Defined.

(** The claim with the thresholds [stack > 0] fails: on the flop, an
    unopened pot and an acting stack of [5e-10] chips only allow CHECK. *)
Lemma legal_actions_counterexample :
  terminal dust_stack_state = false /\
  Math_max 0 (currentBet dust_stack_state
              - get2 (commit dust_stack_state) (toAct dust_stack_state))
    <= eps /\
  0 < get2 (stack dust_stack_state) (toAct dust_stack_state) /\
  streetIdx dust_stack_state <> 0%nat /\
  Engine.legalActions default_config dust_stack_state = [CHECK] /\
  ~ In BET_HALF (Engine.legalActions default_config dust_stack_state).
Proof.
  split; [reflexivity |].
  split; [vm_compute; discriminate |].
  split; [vm_compute; reflexivity |].
  split; [discriminate |].
  split; [vm_compute; reflexivity |].
  vm_compute. intros [H | []]. discriminate.
Qed.

(** ** The raise counter *)

Lemma applyAction_raises (cfg : Config) (s : HandState) (a : Action) :
  (raises s <= raises (Engine.applyAction cfg s a) <= raises s + 1)%Z.
Proof.
  unfold Engine.applyAction. cbv zeta.
  set (tc := Math_max 0 (currentBet s - get2 (commit s) (toAct s))).
  destruct (action_eqb a CALL && Qle_bool tc eps).
  - simpl. lia.
  - destruct a; break_ifs; simpl; lia.
Qed.

Lemma advanceStreet_raises (sess : Engine.Session) :
  raises (Engine.state (Engine.advanceStreet sess)) = 0%Z.
Proof.
  unfold Engine.advanceStreet, Engine.enforceBoardInvariant. cbv zeta.
  break_ifs; reflexivity.
Qed.

Lemma play_reachable_raises_nonneg (cfg : Config) (sess : Engine.Session) :
  play_reachable cfg sess -> (0 <= raises (Engine.state sess))%Z.
Proof.
  induction 1 as [hs idx sc g | sess a H IH Hin | sess H IH].
  - rewrite newHand_state. simpl. lia.
  - simpl. pose proof (applyAction_raises cfg (Engine.state sess) a). lia.
  - rewrite advanceStreet_raises. lia.
Qed.

Lemma legal_reachable_play (cfg : Config) (sess : Engine.Session) :
  legal_reachable cfg sess -> play_reachable cfg sess.
Proof.
  induction 1; [apply play_deal | apply play_action; assumption].
Qed.

(** A RAISE_HALF or RAISE_POT facing a bet is only legal below the cap. *)
Lemma legal_raise_below_cap (cfg : Config) (s : HandState) (a : Action) :
  In a (Engine.legalActions cfg s) ->
  a = RAISE_HALF \/ a = RAISE_POT ->
  eps < Math_max 0 (currentBet s - get2 (commit s) (toAct s)) ->
  (raises s < MAX_RAISES cfg)%Z.
Proof.
  intros Hin Ha Hc.
  unfold Engine.legalActions, ActionModel.legalActions in Hin.
  destruct (terminal s); [destruct Hin |].
  cbv zeta in Hin.
  set (to_call := Math_max 0 (currentBet s - get2 (commit s) (toAct s))) in *.
  case_qle to_call eps; [lra |].
  destruct (Z.ltb_spec (raises s) (MAX_RAISES cfg)) as [Hr | Hr]; [exact Hr |].
  rewrite andb_false_r in Hin.
  destruct (Qlt_bool (to_call + eps) (get2 (stack s) (toAct s)));
    simpl in Hin; intuition (subst; discriminate).
Qed.

(** C2.  The raise counter, as the code caps it: in every session reachable
    from a freshly dealt hand by legal actions (and street advances) the
    counter is non-negative, a legal action raises it by at most one, and a
    legal RAISE_HALF or RAISE_POT facing a bet leaves it at most
    [MAX_RAISES]. *)
Theorem raise_counter_cap (cfg : Config) (sess : Engine.Session) :
  play_reachable cfg sess ->
  (0 <= raises (Engine.state sess))%Z /\
  forall a, In a (Engine.legalActions cfg (Engine.state sess)) ->
    let s' := Engine.applyAction cfg (Engine.state sess) a in
    (raises s' <= raises (Engine.state sess) + 1)%Z /\
    (a = RAISE_HALF \/ a = RAISE_POT ->
     eps < Math_max 0 (currentBet (Engine.state sess)
                       - get2 (commit (Engine.state sess))
                              (toAct (Engine.state sess))) ->
     (raises s' <= MAX_RAISES cfg)%Z).
Proof.
  intros Hreach.
  split; [exact (play_reachable_raises_nonneg cfg sess Hreach) |].
  intros a Hin s'. subst s'.
  pose proof (applyAction_raises cfg (Engine.state sess) a) as Hstep.
  split; [lia |].
  intros Ha Hc.
  pose proof (legal_raise_below_cap cfg _ a Hin Ha Hc). lia.
Qed.

Lemma three_raises_reachable : legal_reachable default_config three_raises.
Proof.
  unfold three_raises, act, fresh_hand.
  do 3 (apply legal_action; [| vm_compute; tauto]).
  apply legal_deal.
Qed.

Lemma raise_counter_cap_witness :
  play_reachable default_config three_raises /\
  (0 <= raises (Engine.state three_raises))%Z.
Proof.
  split; [apply legal_reachable_play, three_raises_reachable |].
  apply (raise_counter_cap default_config three_raises).
  apply legal_reachable_play, three_raises_reachable.
Defined.

(** The cap is exceeded by legal play: after three RAISE_HALF from the
    deal, ALL_IN is legal and is counted as a fourth raise. *)
Lemma raise_counter_counterexample :
  legal_reachable default_config over_cap_hand /\
  raises (Engine.state over_cap_hand) = 4%Z /\
  MAX_RAISES default_config = 3%Z.
Proof.
  split; [| split; [vm_compute; reflexivity | reflexivity]].
  unfold over_cap_hand, act.
  apply legal_action; [apply three_raises_reachable | vm_compute; tauto].
Qed.

(** ** Terminal hands *)

(** C8.  Terminal closure and idempotent settlement: a terminal state has
    no legal action, and a second call of [settleTerminal] returns the
    result of the first and leaves the session, hence its score, as the
    first call left it. *)
Theorem terminal_closure_settle_idempotent
  (evalHand : list (option card) -> Z) (cfg : Config)
  (s : HandState) (sess : Engine.Session) :
  Engine.legalActions cfg (set_terminal s true) = [] /\
  let first := Engine.settleTerminal evalHand cfg sess in
  let second := Engine.settleTerminal evalHand cfg (snd first) in
  fst second = fst first /\
  snd second = snd first /\
  Engine.score (snd second) = Engine.score (snd first).
Proof.
  split; [reflexivity |].
  cbv zeta.
  assert (H : Engine.settleTerminal evalHand cfg
                (snd (Engine.settleTerminal evalHand cfg sess))
              = Engine.settleTerminal evalHand cfg sess).
  { unfold Engine.settleTerminal at 2 3.
    destruct (Engine.resolved sess) eqn:Hres;
      [destruct (Engine.lastResult sess) eqn:Hlast |].
    - simpl. unfold Engine.settleTerminal. rewrite Hres, Hlast. reflexivity.
    - destruct (negb _ && negb _); reflexivity.
    - destruct (negb _ && negb _); reflexivity. }
  rewrite H. auto.
Qed.

(** ** Opponent range beliefs *)

Lemma Qdiv_nonneg (a s : Q) : 0 <= a -> 0 < s -> 0 <= a / s.
Proof.
  intros Ha Hs. apply Qle_shift_div_l; [exact Hs | lra].
Qed.

Lemma normalizeRangeBelief_normalized (b : Engine.Belief) :
  normalized (Engine.normalizeRangeBelief b).
Proof.
  unfold Engine.normalizeRangeBelief, normalized. cbv zeta. simpl.
  pose proof (Math_max_lb_l 0 (Engine.weak b)).
  pose proof (Math_max_lb_l 0 (Engine.medium b)).
  pose proof (Math_max_lb_l 0 (Engine.strong b)).
  set (w := Math_max 0 (Engine.weak b)) in *.
  set (m := Math_max 0 (Engine.medium b)) in *.
  set (s := Math_max 0 (Engine.strong b)) in *.
  case_qle (w + m + s) eps; simpl.
  - repeat split; lra.
  - assert (Hpos : 0 < w + m + s) by (unfold eps in *; lra).
    repeat split; try (apply Qdiv_nonneg; assumption).
    field. lra.
Qed.

(** Each increment of [updateRangeBeliefFromAction] keeps the sum. *)
Lemma shiftBelief_sum (b : Engine.Belief) (a : Action) (tc : Q) :
  let b' := Engine.shiftBelief b a tc in
  Engine.weak b' + Engine.medium b' + Engine.strong b'
  == Engine.weak b + Engine.medium b + Engine.strong b.
Proof.
  unfold Engine.shiftBelief. cbv zeta.
  destruct (Qlt_bool eps tc), a; simpl; ring.
Qed.

(** On a belief of sum 1 the fallback of [normalizeRangeBelief] is not
    taken: the result is the clamped belief rescaled. *)
Lemma normalize_is_clamp_rescale (b : Engine.Belief) :
  Engine.weak b + Engine.medium b + Engine.strong b == 1 ->
  eps < Math_max 0 (Engine.weak b) + Math_max 0 (Engine.medium b)
        + Math_max 0 (Engine.strong b) /\
  Engine.normalizeRangeBelief b = clamp_rescale_spec b.
Proof.
  intros Hsum.
  pose proof (Math_max_lb_r 0 (Engine.weak b)).
  pose proof (Math_max_lb_r 0 (Engine.medium b)).
  pose proof (Math_max_lb_r 0 (Engine.strong b)).
  assert (Hs : eps < Math_max 0 (Engine.weak b) + Math_max 0 (Engine.medium b)
                     + Math_max 0 (Engine.strong b))
    by (unfold eps; lra).
  split; [exact Hs |].
  unfold Engine.normalizeRangeBelief, clamp_rescale_spec. cbv zeta. simpl.
  apply Qle_bool_false in Hs. rewrite Hs. reflexivity.
Qed.

#[local] Arguments Engine.normalizeRangeBelief : simpl never.
#[local] Arguments Engine.shiftBelief : simpl never.
#[local] Arguments clamp_rescale_spec : simpl never.

Lemma ensureRangeBeliefs_shape (sess : Engine.Session) :
  exists b0 b1 rest,
    Engine.rangeBeliefs (Engine.ensureRangeBeliefs sess) = b0 :: b1 :: rest /\
    normalized b0 /\ normalized b1.
Proof.
  unfold Engine.ensureRangeBeliefs. cbv zeta.
  destruct (Engine.rangeBeliefs sess) as [| x [| y rest]]; simpl;
    eexists _, _, _; (split; [reflexivity |]);
    split; apply normalizeRangeBelief_normalized.
Qed.

(** A normalized belief has a sum within [eps] of 1. *)
Lemma normalized_facts (b : Engine.Belief) :
  normalized b ->
  0 <= Engine.weak b /\ 0 <= Engine.medium b /\ 0 <= Engine.strong b /\
  Engine.weak b + Engine.medium b + Engine.strong b == 1 /\
  Qabs (Engine.weak b + Engine.medium b + Engine.strong b - 1) <= eps.
Proof.
  intros (Hw & Hm & Hs & Hsum). repeat split; try assumption.
  rewrite Hsum. vm_compute. discriminate.
Qed.

(** C6.  Belief normalization: after an update of the belief of either seat
    by any action, the beliefs of both seats have non-negative components
    of sum 1 (so within 1e-9 of 1), and the updated belief is the
    incremented one with its negative components clamped to 0, rescaled to
    sum 1. *)
Theorem belief_normalization (sess : Engine.Session) (seat : Seat)
  (a : Action) (toCallBefore : Q) :
  let sess' := Engine.updateRangeBeliefFromAction sess seat a toCallBefore in
  (forall p : Seat, exists b,
     Engine.rangeBeliefs sess' !! Engine.seat_nat p = Some b /\
     0 <= Engine.weak b /\ 0 <= Engine.medium b /\ 0 <= Engine.strong b /\
     Engine.weak b + Engine.medium b + Engine.strong b == 1 /\
     Qabs (Engine.weak b + Engine.medium b + Engine.strong b - 1) <= eps) /\
  exists before,
    Engine.rangeBeliefs (Engine.ensureRangeBeliefs sess)
      !! Engine.seat_nat seat = Some before /\
    Engine.rangeBeliefs sess' !! Engine.seat_nat seat
    = Some (clamp_rescale_spec (Engine.shiftBelief before a toCallBefore)).
Proof.
  cbv zeta. unfold Engine.updateRangeBeliefFromAction. cbv zeta.
  destruct (ensureRangeBeliefs_shape sess) as (b0 & b1 & rest & Hshape & N0 & N1).
  rewrite Hshape.
  assert (Hnew : forall b, normalized b ->
            Engine.normalizeRangeBelief (Engine.shiftBelief b a toCallBefore)
            = clamp_rescale_spec (Engine.shiftBelief b a toCallBefore)).
  { intros b (_ & _ & _ & Hsum).
    apply normalize_is_clamp_rescale.
    rewrite (shiftBelief_sum b a toCallBefore). exact Hsum. }
  pose proof (normalizeRangeBelief_normalized
                (Engine.shiftBelief b0 a toCallBefore)) as M0.
  pose proof (normalizeRangeBelief_normalized
                (Engine.shiftBelief b1 a toCallBefore)) as M1.
  destruct seat.
  - change ((b0 :: b1 :: rest) !! Engine.seat_nat Seat0) with (Some b0).
    cbv iota beta.
    set (nb := Engine.normalizeRangeBelief
                 (Engine.shiftBelief b0 a toCallBefore)) in *.
    change (Engine.rangeBeliefs
              (Engine.set_rangeBeliefs (Engine.ensureRangeBeliefs sess)
                 (<[Engine.seat_nat Seat0 := nb]> (b0 :: b1 :: rest))))
      with (nb :: b1 :: rest).
    split.
    + intros [|].
      * exists nb. split; [reflexivity |].
        exact (normalized_facts nb M0).
      * exists b1. split; [reflexivity |].
        exact (normalized_facts b1 N1).
    + exists b0. split; [reflexivity |]. subst nb.
      rewrite (Hnew b0 N0). reflexivity.
  - change ((b0 :: b1 :: rest) !! Engine.seat_nat Seat1) with (Some b1).
    cbv iota beta.
    set (nb := Engine.normalizeRangeBelief
                 (Engine.shiftBelief b1 a toCallBefore)) in *.
    change (Engine.rangeBeliefs
              (Engine.set_rangeBeliefs (Engine.ensureRangeBeliefs sess)
                 (<[Engine.seat_nat Seat1 := nb]> (b0 :: b1 :: rest))))
      with (b0 :: nb :: rest).
    split.
    + intros [|].
      * exists b0. split; [reflexivity |].
        exact (normalized_facts b0 N0).
      * exists nb. split; [reflexivity |].
        exact (normalized_facts nb M1).
    + exists b1. split; [reflexivity |]. subst nb.
      rewrite (Hnew b1 N1). reflexivity.
Qed.

(** ** Conditioned equity *)




(** ** The equity estimator *)

Section EquityEstimator.

Variable evalHand : list (option card) -> Z.

Lemma one_trial_tally heroHand board oppHand avail tl g :
  tally_ok tl ->
  let tl' := fst (Engine.one_trial evalHand heroHand board oppHand avail tl g) in
  tally_ok tl' /\ Engine.t_total tl' = (Engine.t_total tl + 1)%Z.
Proof using Type.
  intros (Hw & Ht & Hsum). cbv zeta. unfold Engine.one_trial.
  destruct (match oppHand with
            | Some oh => (map Some oh, g)
            | None => Engine.sample_opp avail g
            end) as [opp g1].
  cbv zeta.
  destruct (Engine.fill_board _ _ _ g1) as [boardFill g2].
  unfold tally_ok.
  destruct (_ <? _)%Z; [| destruct (_ =? _)%Z]; simpl; lia.
Qed.

Lemma trial_loop_tally trials heroHand board oppHand avail :
  forall tl g,
  tally_ok tl ->
  let tl' :=
    fst (Engine.trial_loop evalHand trials heroHand board oppHand avail tl g) in
  tally_ok tl' /\
  Engine.t_total tl' = (Engine.t_total tl + Z.of_nat trials)%Z.
Proof using Type.
  induction trials as [| n IH]; intros tl g Hok; cbv zeta.
  - simpl. split; [exact Hok | lia].
  - simpl.
    pose proof (one_trial_tally heroHand board oppHand avail tl g Hok) as H1.
    cbv zeta in H1.
    destruct (Engine.one_trial evalHand heroHand board oppHand avail tl g)
      as [tl1 g1].
    simpl in H1. destruct H1 as [Hok1 Htot1].
    specialize (IH tl1 g1 Hok1). cbv zeta in IH.
    destruct IH as [Hok' Htot']. split; [exact Hok' | lia].
Qed.

(** One pass of the loop deals the cards of [trial_deal] and counts the
    deal once, as a win or as a tie or as neither. *)
Lemma one_trial_deal heroHand board oppHand avail tl g :
  let d := fst (trial_deal board oppHand avail g) in
  Engine.one_trial evalHand heroHand board oppHand avail tl g
  = (Engine.mkTally
       (Engine.t_wins tl + count_deals (hero_wins evalHand heroHand) [d])
       (Engine.t_ties tl + count_deals (hero_ties evalHand heroHand) [d])
       (Engine.t_total tl + 1),
     snd (trial_deal board oppHand avail g)).
Proof using Type.
  cbv zeta. unfold Engine.one_trial, trial_deal.
  destruct (match oppHand with
            | Some oh => (map Some oh, g)
            | None => Engine.sample_opp avail g
            end) as [opp g1].
  cbv zeta.
  destruct (Engine.fill_board _ _ _ g1) as [boardFill g2].
  cbn [fst snd]. unfold count_deals, hero_wins, hero_ties.
  cbn [List.filter fst snd].
  destruct (Z.ltb_spec (evalHand (opp ++ boardFill))
              (evalHand (map Some heroHand ++ boardFill))) as [Hlt | Hge].
  - destruct (Z.eqb_spec (evalHand (map Some heroHand ++ boardFill))
                (evalHand (opp ++ boardFill))) as [He | _]; [lia |].
    cbn [length Engine.t_wins Engine.t_ties Engine.t_total].
    rewrite Z.add_0_r. reflexivity.
  - destruct (evalHand (map Some heroHand ++ boardFill)
              =? evalHand (opp ++ boardFill))%Z;
      cbn [length Engine.t_wins Engine.t_ties Engine.t_total];
      rewrite ?Z.add_0_r; [reflexivity |].
    destruct tl; reflexivity.
Qed.

Lemma count_deals_cons test d deals :
  count_deals test (d :: deals)
  = (count_deals test [d] + count_deals test deals)%Z.
Proof using Type.
  unfold count_deals. cbn [List.filter].
  destruct (test d); cbn [length]; lia.
Qed.

(** The counters after the loop: the wins and the ties among the deals of
    the trials, and their number. *)
Lemma trial_loop_counts trials heroHand board oppHand avail :
  forall tl g,
  let deals := trial_deals trials board oppHand avail g in
  let tl' :=
    fst (Engine.trial_loop evalHand trials heroHand board oppHand avail tl g) in
  length deals = trials /\
  Engine.t_wins tl'
  = (Engine.t_wins tl + count_deals (hero_wins evalHand heroHand) deals)%Z /\
  Engine.t_ties tl'
  = (Engine.t_ties tl + count_deals (hero_ties evalHand heroHand) deals)%Z.
Proof using Type.
  induction trials as [| n IH]; intros tl g; cbv zeta.
  - cbn [trial_deals Engine.trial_loop fst length]. unfold count_deals.
    cbn [List.filter length]. repeat split; lia.
  - cbn [trial_deals Engine.trial_loop].
    rewrite one_trial_deal.
    destruct (trial_deal board oppHand avail g) as [d g'].
    cbn [fst snd].
    specialize (IH (Engine.mkTally
       (Engine.t_wins tl + count_deals (hero_wins evalHand heroHand) [d])
       (Engine.t_ties tl + count_deals (hero_ties evalHand heroHand) [d])
       (Engine.t_total tl + 1)) g').
    cbv zeta in IH. destruct IH as (Hlen & Hw & Ht).
    cbn [Engine.t_wins Engine.t_ties] in Hw, Ht.
    rewrite Hw, Ht.
    rewrite (count_deals_cons (hero_wins evalHand heroHand) d
               (trial_deals n board oppHand avail g')).
    rewrite (count_deals_cons (hero_ties evalHand heroHand) d
               (trial_deals n board oppHand avail g')).
    cbn [length].
    repeat split; lia.
Qed.

(** C7.  The equity estimator: for a hero hand of two cards and [N >= 1]
    trials, all [N] trials are counted, [wins] is the number of trials
    whose deal the hero hand wins and [ties] the number of those it ties,
    and the result is [eq = (wins + 0.5 ties) / total] with [total = N]
    and [eq] in [0, 1]; for a hero hand of any other size the result is
    [eq = 0.5]. *)
Theorem equity_estimator_result (heroHand board : list card)
  (oppHand : option (list card)) (N : nat) (g : Rng) :
  (1 <= N)%nat ->
  let res := fst (Engine.evalStrength evalHand heroHand board oppHand N g) in
  let tl := fst (Engine.trial_loop evalHand N heroHand board oppHand
                   (Engine.available heroHand board oppHand)
                   (Engine.mkTally 0 0 0) g) in
  let deals := trial_deals N board oppHand
                 (Engine.available heroHand board oppHand) g in
  let wins := count_deals (hero_wins evalHand heroHand) deals in
  let ties := count_deals (hero_ties evalHand heroHand) deals in
  (length heroHand = 2%nat ->
     length deals = N /\
     Engine.t_wins tl = wins /\
     Engine.t_ties tl = ties /\
     Engine.t_total tl = Z.of_nat N /\
     Engine.samples_res res = Z.of_nat N /\
     Engine.eq_res res
     == (inject_Z wins + 0.5 * inject_Z ties) / inject_Z (Z.of_nat N) /\
     Engine.eq_res res
     == (inject_Z (Engine.t_wins tl) + 0.5 * inject_Z (Engine.t_ties tl))
        / inject_Z (Engine.t_total tl) /\
     0 <= Engine.eq_res res <= 1) /\
  (length heroHand <> 2%nat -> Engine.eq_res res = 0.5).
Proof using Type.
  intros HN. cbv zeta. unfold Engine.evalStrength. cbv zeta.
  destruct (Nat.eqb_spec (length heroHand) 2) as [Hlen | Hlen]; simpl negb;
    cbv iota.
  - split; [intros _ | intros Hne; contradiction].
    assert (Hok0 : tally_ok (Engine.mkTally 0 0 0))
      by (unfold tally_ok; simpl; lia).
    pose proof (trial_loop_tally N heroHand board oppHand
                  (Engine.available heroHand board oppHand)
                  (Engine.mkTally 0 0 0) g Hok0) as H.
    pose proof (trial_loop_counts N heroHand board oppHand
                  (Engine.available heroHand board oppHand)
                  (Engine.mkTally 0 0 0) g) as Hcount.
    cbv zeta in H, Hcount.
    destruct (Engine.trial_loop evalHand N heroHand board oppHand
                (Engine.available heroHand board oppHand)
                (Engine.mkTally 0 0 0) g) as [tl g'].
    simpl in H. cbn [fst Engine.t_wins Engine.t_ties] in Hcount.
    cbn [fst Engine.eq_res Engine.samples_res].
    destruct H as [(Hw & Ht & Hsum) Htot].
    destruct Hcount as (Hdeals & Hwins & Hties).
    rewrite Z.add_0_l in Hwins, Hties.
    assert (Htot' : Engine.t_total tl = Z.of_nat N) by lia.
    destruct (Z.eqb_spec (Engine.t_total tl) 0) as [Hz | Hnz]; [lia |].
    split; [exact Hdeals |]. split; [exact Hwins |]. split; [exact Hties |].
    split; [exact Htot' |]. split; [exact Htot' |].
    split; [rewrite <- Hwins, <- Hties, <- Htot'; reflexivity |].
    split; [reflexivity |].
    assert (HposZ : (0 < Engine.t_total tl)%Z) by lia.
    assert (Hpos : 0 < inject_Z (Engine.t_total tl)).
    { change 0 with (inject_Z 0). rewrite <- Zlt_Qlt. exact HposZ. }
    assert (Hwq : 0 <= inject_Z (Engine.t_wins tl)).
    { change 0 with (inject_Z 0). rewrite <- Zle_Qle. exact Hw. }
    assert (Htq : 0 <= inject_Z (Engine.t_ties tl)).
    { change 0 with (inject_Z 0). rewrite <- Zle_Qle. exact Ht. }
    assert (Hsq : inject_Z (Engine.t_wins tl) + inject_Z (Engine.t_ties tl)
                  <= inject_Z (Engine.t_total tl)).
    { rewrite <- inject_Z_plus. rewrite <- Zle_Qle. exact Hsum. }
    split.
    + apply Qle_shift_div_l; [exact Hpos | lra].
    + apply Qle_shift_div_r; [exact Hpos | lra].
  - split; [intros He; contradiction | intros _; reflexivity].
Qed.

End EquityEstimator.

Lemma equity_estimator_result_witness :
  (1 <= 6)%nat /\
  Engine.eq_res
    (fst (Engine.evalStrength rank_sum_evaluator ["7s"; "5h"]
            ["2c"; "7d"; "3h"] None 6 cycling_rng)) == 5 # 12.
Proof.
  split; [lia |].
  destruct (equity_estimator_result rank_sum_evaluator ["7s"; "5h"]
              ["2c"; "7d"; "3h"] None 6 cycling_rng) as [H _]; [lia |].
  destruct (H eq_refl) as (_ & _ & _ & _ & _ & Heq & _).
  rewrite Heq. vm_compute. reflexivity.
Defined.

(** ** Infoset keys *)

Lemma hsBand_finite_range (c : Q) :
  0 <= c <= 0.999999 ->
  exists k : Z,
    js_max (JFin 0) (js_min (JFin 9) (js_floor (js_scale (JFin c) 10)))
    = JFin (inject_Z k) /\ (0 <= k <= 9)%Z.
Proof.
  intros [Hlo Hhi]. cbn [js_max js_min js_floor js_scale].
  set (f := Qfloor (c * 10)).
  assert (Hf0 : (0 <= f)%Z).
  { change 0%Z with (Qfloor 0). apply Qfloor_resp_le. lra. }
  assert (Hf9 : (f <= 9)%Z).
  { change 9%Z with (Qfloor 9.99999). apply Qfloor_resp_le. lra. }
  unfold Math_min, Math_max.
  destruct (Qle_bool 9 (inject_Z f)).
  - exists 9%Z. split; [reflexivity | lia].
  - destruct (Qle_bool 0 (inject_Z f)).
    + exists f. split; [reflexivity | lia].
    + exists 0%Z. split; [reflexivity | lia].
Qed.

Lemma hsBand_range (hs : JsNum) :
  exists k : Z,
    InfosetV1.hsBand hs = JFin (inject_Z k) /\ (0 <= k <= 9)%Z.
Proof.
  unfold InfosetV1.hsBand. cbv zeta.
  assert (Hc : exists c, js_max (JFin 0) (js_min (JFin 0.999999) (or_zero hs))
                         = JFin c /\ 0 <= c <= 0.999999).
  { destruct hs as [| | | q]; simpl.
    - exists (Math_max 0 (Math_min 0.999999 0)). split; [reflexivity |].
      vm_compute. split; discriminate.
    - exists (Math_max 0 0.999999). split; [reflexivity |].
      vm_compute. split; discriminate.
    - exists 0. split; [reflexivity | lra].
    - assert (Hb : forall x, 0 <= Math_max 0 (Math_min 0.999999 x) <= 0.999999).
      { intros x. case_min 0.999999 x; case_max 0 0.999999; case_max 0 x; lra. }
      destruct (Qeq_bool q 0); simpl; eexists; (split; [reflexivity | apply Hb]). }
  destruct Hc as (c & -> & Hrange).
  apply hsBand_finite_range. exact Hrange.
Qed.

Lemma sprBand_in_bands (spr : JsNum) : In (InfosetV1.sprBand spr) spr_bands.
Proof.
  unfold InfosetV1.sprBand, spr_bands.
  destruct (negb (isFinite spr)); [simpl; tauto |].
  repeat match goal with
         | |- context [if ?c then _ else _] => destruct c
         end; simpl; tauto.
Qed.

Lemma string_append_assoc (a b c : string) :
  (a +:+ b) +:+ c = a +:+ (b +:+ c).
Proof.
  induction a as [| ch a IH]; [reflexivity |].
  change (String ch ((a +:+ b) +:+ c) = String ch (a +:+ (b +:+ c))).
  f_equal. exact IH.
Qed.

Lemma digit_to_string (k : Z) :
  (0 <= k <= 9)%Z ->
  js_to_string (JFin (inject_Z k)) = Some (string_of_Z k).
Proof.
  intros Hk. unfold js_to_string. rewrite Qfloor_Z.
  rewrite Qeq_bool_refl. reflexivity.
Qed.

(** C10.  Infoset keying is total on degenerate numbers: for every number,
    NaN and the infinities included, the strength band is an integer in
    [0, 9] and the SPR band is one of the five band strings, ["8_plus"] on
    NaN and the infinities; so [buildInfosetKey] yields a key of the
    canonical form for every [hs] and [spr]. *)
Theorem infoset_keying_total :
  (forall hs : JsNum, exists k : Z,
     InfosetV1.hsBand hs = JFin (inject_Z k) /\ (0 <= k <= 9)%Z) /\
  (forall spr : JsNum, In (InfosetV1.sprBand spr) spr_bands) /\
  InfosetV1.sprBand JNaN = "8_plus" /\
  InfosetV1.sprBand JPosInf = "8_plus" /\
  InfosetV1.sprBand JNegInf = "8_plus" /\
  (forall (s : HandState) (player : Seat) (hs : JsNum)
          (spr : option JsNum) (tex : option InfosetV1.Texture),
     exists key : string,
       InfosetV1.buildInfosetKey s player hs spr tex = Some key /\
       well_formed_key key).
Proof.
  split; [exact hsBand_range |].
  split; [exact sprBand_in_bands |].
  do 3 (split; [reflexivity |]).
  intros s player hs spr tex.
  unfold InfosetV1.buildInfosetKey. cbv zeta.
  destruct (hsBand_range hs) as (k & -> & Hk).
  rewrite (digit_to_string k Hk).
  eexists. split; [reflexivity |].
  set (tv := default (InfosetV1.texture (board s)) tex).
  set (band := InfosetV1.sprBand _).
  set (betState := if Qlt_bool eps _ then _ else _).
  unfold well_formed_key, InfosetV1.textureBits.
  exists (InfosetV1.resolveStreet s), (InfosetV1.positionLabelHU player),
    band, betState, (InfosetV1.paired tv), (InfosetV1.twoTone tv),
    (InfosetV1.monotone tv), (InfosetV1.connected tv),
    (Z.max 0 (raises s)), k.
  split; [rewrite !string_append_assoc; reflexivity |].
  split; [destruct player; simpl; tauto |].
  split; [apply sprBand_in_bands |].
  split; [subst betState; destruct (Qlt_bool eps _); simpl; tauto |].
  split; [lia | exact Hk].
Qed.

(** ** The blueprint trainer *)

Lemma action_index_lt (a : Action) : (action_index a < 8)%nat.
Proof. destruct a; simpl; lia. Qed.

Lemma action_index_inj (a b : Action) :
  action_index a = action_index b -> a = b.
Proof. destruct a, b; simpl; intros H; congruence. Qed.

Lemma at8_set8_eq (l : list Q) (a : Action) (v : Q) :
  length l = 8%nat -> Trainer.at8 (Trainer.set8 l a v) a = v.
Proof.
  intros Hl. unfold Trainer.at8, Trainer.set8.
  rewrite list_lookup_insert_eq; [reflexivity |].
  pose proof (action_index_lt a). lia.
Qed.

Lemma at8_set8_ne (l : list Q) (a b : Action) (v : Q) :
  a <> b -> Trainer.at8 (Trainer.set8 l a v) b = Trainer.at8 l b.
Proof.
  intros Hne. unfold Trainer.at8, Trainer.set8.
  rewrite list_lookup_insert_ne; [reflexivity |].
  intros H. apply Hne. now apply action_index_inj.
Qed.

Lemma length_set8 {T : Type} (l : list T) (a : Action) (v : T) :
  length (Trainer.set8 l a v) = length l.
Proof. unfold Trainer.set8. apply length_insert. Qed.







Section TrainerFacts.

Variable evalHand : list (option card) -> Z.
Variable cfg : Config.
Variable trials : nat.

Lemma evalStrengthRandomRange_nodeMap heroHand b n sto :
  Trainer.nodeMap
    (snd (Trainer.evalStrengthRandomRange evalHand heroHand b n sto))
  = Trainer.nodeMap sto.
Proof using Type.
  unfold Trainer.evalStrengthRandomRange.
  destruct (negb _); [reflexivity |].
  destruct (Trainer.equityCache sto !! _); [reflexivity |].
  destruct (Trainer.trial_loop _ _ _ _ _ _ _). reflexivity.
Qed.

Lemma estimateHsCached_nodeMap ctx st p n sto :
  Trainer.nodeMap (snd (Trainer.estimateHsCached evalHand ctx st p n sto))
  = Trainer.nodeMap sto.
Proof using Type.
  unfold Trainer.estimateHsCached.
  destruct (Trainer.equityCache sto !! _); [reflexivity |].
  pose proof (evalStrengthRandomRange_nodeMap
                (get2 (Trainer.hands ctx) p) (board st) n sto) as H.
  destruct (Trainer.evalStrengthRandomRange _ _ _ _ _) as [hs sto'].
  exact H.
Qed.





End TrainerFacts.




(** ** The realtime subgame solver *)

Lemma fold_left_Qplus_acc (l : list Q) :
  forall acc, fold_left Qplus l acc == acc + fold_left Qplus l 0.
Proof.
  induction l as [| x l IH]; intros acc; simpl; [ring |].
  rewrite (IH (acc + x)), (IH (0 + x)). ring.
Qed.

Lemma sumQ_nil : Engine.sumQ [] == 0.
Proof. reflexivity. Qed.

Lemma sumQ_cons (x : Q) (l : list Q) :
  Engine.sumQ (x :: l) == x + Engine.sumQ l.
Proof.
  unfold Engine.sumQ. simpl. rewrite fold_left_Qplus_acc. ring.
Qed.

Lemma sumQ_nonneg (l : list Q) :
  Forall (fun x => 0 <= x) l -> 0 <= Engine.sumQ l.
Proof.
  induction 1 as [| x l Hx Hl IH]; [rewrite sumQ_nil; lra |].
  rewrite sumQ_cons. lra.
Qed.

Lemma sumQ_member_le (l : list Q) (x : Q) :
  Forall (fun x => 0 <= x) l -> In x l -> x <= Engine.sumQ l.
Proof.
  induction 1 as [| y l Hy Hl IH]; intros Hin; [destruct Hin |].
  rewrite sumQ_cons. pose proof (sumQ_nonneg l Hl).
  destruct Hin as [-> | Hin]; [lra |]. specialize (IH Hin). lra.
Qed.

Lemma sumQ_map_div (l : list Q) (s : Q) :
  Engine.sumQ (map (fun v => v / s) l) == Engine.sumQ l / s.
Proof.
  induction l as [| x l IH]; simpl.
  - rewrite sumQ_nil. unfold Qdiv. ring.
  - rewrite !sumQ_cons, IH. unfold Qdiv. ring.
Qed.

Lemma sumQ_map_const {T : Type} (l : list T) (u : Q) :
  Engine.sumQ (map (fun _ => u) l) == inject_Z (Z.of_nat (length l)) * u.
Proof.
  induction l as [| x l IH].
  - simpl. rewrite sumQ_nil. ring.
  - change (map (fun _ : T => u) (x :: l)) with (u :: map (fun _ : T => u) l).
    rewrite sumQ_cons, IH.
    change (length (x :: l)) with (S (length l)).
    rewrite Nat2Z.inj_succ. unfold Z.succ. rewrite inject_Z_plus. ring.
Qed.

Lemma sumQ_zip_with_linear (c1 c2 : Q) (a : list Q) :
  forall b, length a = length b ->
  Engine.sumQ (zip_with (fun s p => c1 * s + c2 * p) a b)
  == c1 * Engine.sumQ a + c2 * Engine.sumQ b.
Proof.
  induction a as [| x a IH]; intros [| y b] Hlen; simpl in Hlen;
    try discriminate.
  - simpl. rewrite sumQ_nil. ring.
  - simpl. rewrite !sumQ_cons. rewrite IH by lia. ring.
Qed.

Lemma sumQ_zip_with_plus (a : list Q) :
  forall b, length a = length b ->
  Engine.sumQ (zip_with Qplus a b) == Engine.sumQ a + Engine.sumQ b.
Proof.
  induction a as [| x a IH]; intros [| y b] Hlen; simpl in Hlen;
    try discriminate.
  - simpl. rewrite sumQ_nil. ring.
  - simpl. rewrite !sumQ_cons. rewrite IH by lia. ring.
Qed.

Lemma Forall_map_nonneg_div (l : list Q) (s : Q) :
  0 < s -> Forall (fun x => 0 <= x) l ->
  Forall (fun x => 0 <= x) (map (fun v => v / s) l).
Proof.
  intros Hs H. induction H as [| x l Hx Hl IH]; simpl; constructor.
  - now apply Qdiv_nonneg.
  - exact IH.
Qed.

Lemma Forall_max0 (l : list Q) :
  Forall (fun x => 0 <= x) (map (Math_max 0) l).
Proof.
  induction l as [| x l IH]; simpl; constructor; [apply Math_max_lb_l | exact IH].
Qed.

(** Dividing a non-negative vector by its positive sum. *)
Lemma normalize_distribution (l : list Q) :
  Forall (fun x => 0 <= x) l -> 0 < Engine.sumQ l ->
  distribution (map (fun v => v / Engine.sumQ l) l).
Proof.
  intros Hnn Hpos. split.
  - now apply Forall_map_nonneg_div.
  - rewrite sumQ_map_div. field. lra.
Qed.

Lemma tiny_pos : 0 < Engine.tiny.
Proof. reflexivity. Qed.

Lemma toLegalPrior_distribution (legal : list Action)
  (priorProbs : option (list Q)) :
  legal <> [] ->
  length (Engine.toLegalPrior legal priorProbs) = length legal /\
  distribution (Engine.toLegalPrior legal priorProbs).
Proof.
  intros Hne. unfold Engine.toLegalPrior. cbv zeta.
  set (arr := map (fun a => Math_max 0 (Engine.prior_at priorProbs a)) legal).
  assert (Harr : Forall (fun x => 0 <= x) arr).
  { subst arr. clear. induction legal as [| a l IH]; simpl; constructor;
      [apply Math_max_lb_l | exact IH]. }
  case_qle (Engine.sumQ arr) Engine.tiny.
  - split; [apply length_map |].
    set (n := inject_Z (Z.of_nat (length legal))).
    assert (Hn : 1 <= n).
    { subst n. change 1 with (inject_Z 1). rewrite <- Zle_Qle.
      destruct legal; [contradiction | simpl; lia]. }
    assert (Hmax : Math_max 1 n = n).
    { unfold Math_max. apply Qle_bool_iff in Hn. now rewrite Hn. }
    rewrite Hmax. split.
    + assert (Hu : 0 <= 1 / n) by (apply Qdiv_nonneg; lra).
      apply List.Forall_forall. intros x Hin.
      apply in_map_iff in Hin. destruct Hin as (a & <- & _). exact Hu.
    + rewrite sumQ_map_const. fold n. field. lra.
  - pose proof tiny_pos.
    split; [subst arr; now rewrite !length_map |].
    apply normalize_distribution; [exact Harr | lra].
Qed.

Lemma Forall_zip_with_blend (c1 c2 : Q) (a : list Q) :
  0 <= c1 -> 0 <= c2 ->
  forall b,
  Forall (fun x => 0 <= x) a -> Forall (fun x => 0 <= x) b ->
  Forall (fun x => 0 <= x) (zip_with (fun s p => c1 * s + c2 * p) a b).
Proof.
  intros H1 H2. induction a as [| x a IH]; intros b Ha Hb; simpl;
    [constructor |].
  destruct b as [| y b]; [constructor |].
  inversion Ha; subst. inversion Hb; subst.
  constructor; [| now apply IH].
  assert (0 <= c1 * x) by (apply Qmult_le_0_compat; assumption).
  assert (0 <= c2 * y) by (apply Qmult_le_0_compat; assumption).
  lra.
Qed.

Lemma Forall_zip_with_plus (a : list Q) :
  forall b,
  Forall (fun x => 0 <= x) a -> Forall (fun x => 0 <= x) b ->
  Forall (fun x => 0 <= x) (zip_with Qplus a b).
Proof.
  induction a as [| x a IH]; intros b Ha Hb; simpl; [constructor |].
  destruct b as [| y b]; [constructor |].
  inversion Ha; subst. inversion Hb; subst.
  constructor; [lra | now apply IH].
Qed.

Section SolverFacts.

Variable Math_pow : Q -> Q -> Q.
Variable RT_PRIOR_WEIGHT_env : Q.
Variable cfg : Config.
Variable st : HandState.
Variable legal : list Action.
Variable hs : Q.
Variable texture : option Engine.BoardTexture.
Variable oppProfile : option Engine.OppProfile.
Variable oppRangeBelief : option Engine.Belief.
Variable depthLimit : Q.

Lemma RT_PRIOR_WEIGHT_range :
  0 <= Engine.RT_PRIOR_WEIGHT RT_PRIOR_WEIGHT_env <= 1.
Proof using Type.
  unfold Engine.RT_PRIOR_WEIGHT.
  case_min 1 RT_PRIOR_WEIGHT_env; case_max 0 1;
    case_max 0 RT_PRIOR_WEIGHT_env; lra.
Qed.

(** The strategy of an iteration is a probability vector over the legal
    actions. *)
Lemma rt_strategy_distribution (prior regrets : list Q) :
  distribution prior -> length regrets = length prior ->
  length (Engine.rt_strategy RT_PRIOR_WEIGHT_env prior regrets) = length prior /\
  distribution (Engine.rt_strategy RT_PRIOR_WEIGHT_env prior regrets).
Proof using Type.
  intros [Hpn Hps] Hlen. unfold Engine.rt_strategy. cbv zeta.
  set (positive := map (Math_max 0) regrets).
  set (W := Engine.RT_PRIOR_WEIGHT RT_PRIOR_WEIGHT_env).
  pose proof RT_PRIOR_WEIGHT_range as HW. fold W in HW.
  case_qle (Engine.sumQ positive) Engine.tiny; [split; [reflexivity | now split] |].
  pose proof tiny_pos.
  assert (Hpos : 0 < Engine.sumQ positive) by lra.
  destruct (normalize_distribution positive (Forall_max0 regrets) Hpos)
    as [Hmn Hms].
  set (matched := map (fun v => v / Engine.sumQ positive) positive) in *.
  assert (Hml : length matched = length prior)
    by (subst matched positive; now rewrite !length_map).
  set (blended := zip_with (fun s p => (1 - W) * s + W * p) matched prior).
  assert (Hbl : length blended = length prior).
  { subst blended. rewrite length_zip_with. lia. }
  assert (Hbn : Forall (fun x => 0 <= x) blended).
  { subst blended. apply Forall_zip_with_blend; try assumption; lra. }
  assert (Hbs : Engine.sumQ blended == 1).
  { subst blended. rewrite sumQ_zip_with_linear by exact Hml.
    rewrite Hms, Hps. ring. }
  assert (Hz : Qeq_bool (Engine.sumQ blended) 0 = false).
  { destruct (Qeq_bool (Engine.sumQ blended) 0) eqn:E; [| reflexivity].
    apply Qeq_bool_iff in E. lra. }
  rewrite Hz.
  split; [now rewrite length_map |].
  apply normalize_distribution; [exact Hbn | lra].
Qed.

Lemma rt_util_length (acts : list Action) (g : Rng) :
  length (fst (Engine.rt_util cfg st hs texture oppProfile oppRangeBelief
                 depthLimit acts g)) = length acts.
Proof using Type.
  revert g. induction acts as [| a acts IH]; intros g; simpl; [reflexivity |].
  set (g1 := mkRng (draws g) (S (pos g)) (draws_range g)).
  specialize (IH g1).
  destruct (Engine.rt_util _ _ _ _ _ _ _ acts g1) as [us g2].
  simpl in IH |- *. f_equal. exact IH.
Qed.

Lemma rt_iteration_inv (prior : list Q) (ls : Engine.RtLoop) :
  distribution prior -> length prior = length legal ->
  rt_inv legal ls ->
  rt_inv legal (Engine.rt_iteration Math_pow RT_PRIOR_WEIGHT_env cfg st legal hs
            texture oppProfile oppRangeBelief depthLimit prior ls).
Proof using Type.
  intros Hprior Hpl (Hr & Hs & Hsn & Hss & Hit).
  unfold Engine.rt_iteration. cbv zeta.
  destruct (rt_strategy_distribution prior (Engine.rt_regrets ls) Hprior)
    as [Hsl [Hstn Hsts]]; [lia |].
  pose proof (rt_util_length legal (Engine.rt_rng ls)) as Hul.
  destruct (Engine.rt_util _ _ _ _ _ _ _ legal (Engine.rt_rng ls)) as [util g'].
  simpl in Hul. unfold rt_inv. cbn [Engine.rt_regrets Engine.rt_strategySum
                                     Engine.rt_iterations].
  split; [rewrite length_zip_with; lia |].
  split; [rewrite length_zip_with; lia |].
  split; [now apply Forall_zip_with_plus |].
  split; [| lia].
  rewrite sumQ_zip_with_plus by lia.
  rewrite Hss, Hsts, inject_Z_plus. reflexivity.
Qed.

Lemma rt_loop_inv (start : Z) (maxMs : Q) (readings : list Z)
  (prior : list Q) :
  distribution prior -> length prior = length legal ->
  forall ls, rt_inv legal ls ->
  rt_inv legal (Engine.rt_loop Math_pow RT_PRIOR_WEIGHT_env cfg st legal hs texture
            oppProfile oppRangeBelief depthLimit start maxMs readings prior ls).
Proof using Type.
  intros Hprior Hpl.
  induction readings as [| now later IH]; intros ls Hinv; simpl; [exact Hinv |].
  destruct (Qlt_bool _ maxMs); [| exact Hinv].
  apply IH. now apply rt_iteration_inv.
Qed.

End SolverFacts.

(** *** Writing the result array *)

Lemma sumQ_insert (l : list Q) :
  forall (i : nat) (old v : Q),
  l !! i = Some old ->
  Engine.sumQ (<[i := v]> l) == Engine.sumQ l - old + v.
Proof.
  induction l as [| x l IH]; intros i old v H; [destruct i; discriminate |].
  destruct i as [| i].
  - injection H as ->. simpl. rewrite !sumQ_cons. ring.
  - simpl in H |- *. rewrite !sumQ_cons. rewrite (IH i old v H). ring.
Qed.

Lemma In_insert (l : list Q) :
  forall (i : nat) (v x : Q), In x (<[i := v]> l) -> x = v \/ In x l.
Proof.
  induction l as [| y l IH]; intros i v x H; [destruct i; destruct H |].
  destruct i as [| i]; simpl in H.
  - destruct H as [<- | H]; [now left | right; now right].
  - destruct H as [<- | H]; [right; now left |].
    destruct (IH i v x H) as [-> | Hin]; [now left | right; now right].
Qed.

(** The loop [out[legal[i]] = values[i]] on distinct actions: every value
    is written to a slot of its own. *)
Lemma fill_out_spec (legal : list Action) :
  List.NoDup legal ->
  forall (vals out : list Q),
  length vals = length legal ->
  length out = 8%nat ->
  (forall a, In a legal -> out !! action_index a = Some 0) ->
  let out' :=
    fold_left (fun o av => <[action_index (fst av) := snd av]> o)
      (zip legal vals) out in
  length out' = 8%nat /\
  Engine.sumQ out' == Engine.sumQ out + Engine.sumQ vals /\
  (forall a, ~ In a legal -> out' !! action_index a = out !! action_index a) /\
  (forall x, In x out' -> In x out \/ In x vals) /\
  (forall i a v, legal !! i = Some a -> vals !! i = Some v ->
                 out' !! action_index a = Some v).
Proof.
  induction 1 as [| a legal Hnin Hnd IH]; intros vals out Hlv Hlo Hzero.
  - destruct vals; [| discriminate]. simpl.
    split; [exact Hlo |]. split; [rewrite sumQ_nil; ring |].
    split; [reflexivity |]. split; [tauto |].
    intros i a v H. destruct i; discriminate.
  - destruct vals as [| v vals]; [discriminate |].
    simpl in Hlv. cbv zeta. simpl.
    set (out1 := <[action_index a := v]> out).
    assert (Hl1 : length out1 = 8%nat) by (subst out1; now rewrite length_insert).
    assert (Hz1 : forall b, In b legal -> out1 !! action_index b = Some 0).
    { intros b Hb. subst out1. rewrite list_lookup_insert_ne.
      - apply Hzero. now right.
      - intros E. apply action_index_inj in E. subst b. contradiction. }
    destruct (IH vals out1 ltac:(lia) Hl1 Hz1)
      as (Hlen & Hsum & Hother & Hmem & Hentry).
    split; [exact Hlen |].
    split.
    { rewrite Hsum. subst out1.
      rewrite (sumQ_insert out (action_index a) 0 v) by (apply Hzero; now left).
      rewrite sumQ_cons. ring. }
    split.
    { intros b Hb. rewrite Hother by (intros Hin; apply Hb; now right).
      subst out1. apply list_lookup_insert_ne.
      intros E. apply action_index_inj in E. subst b. apply Hb. now left. }
    split.
    { intros x Hx. destruct (Hmem x Hx) as [H1 | H2].
      - subst out1. destruct (In_insert _ _ _ _ H1) as [-> | Hin];
          [right; now left | now left].
      - right. now right. }
    intros i b w Hi Hw. destruct i as [| i].
    + injection Hi as <-. injection Hw as <-.
      rewrite (Hother a Hnin). subst out1.
      apply list_lookup_insert_eq.
      pose proof (action_index_lt a). lia.
    + exact (Hentry i b w Hi Hw).
Qed.

Lemma rt_out_spec (legal : list Action) (prior ss : list Q) :
  List.NoDup legal ->
  distribution prior -> length prior = length legal ->
  length ss = length legal ->
  let out := Engine.rt_out legal prior ss in
  length out = 8%nat /\
  Engine.sumQ out == 1 /\
  (forall a, ~ In a legal -> out !! action_index a = Some 0) /\
  Forall (fun x => 0 <= x <= 1) out /\
  (forall i a, legal !! i = Some a ->
     out !! action_index a
     = (if Qle_bool (Engine.sumQ (map (Math_max 0) ss)) Engine.tiny
        then prior
        else map (fun v => Math_max 0 v
                           / Engine.sumQ (map (Math_max 0) ss)) ss) !! i).
Proof.
  intros Hnd Hprior Hpl Hsl. cbv zeta. unfold Engine.rt_out. cbv zeta.
  set (sum := Engine.sumQ (map (Math_max 0) ss)).
  set (values := if Qle_bool sum Engine.tiny then prior
                 else map (fun v => Math_max 0 v / sum) ss).
  assert (Hvals : length values = length legal /\ distribution values).
  { subst values. case_qle sum Engine.tiny; [now split |].
    pose proof tiny_pos.
    split; [now rewrite length_map |].
    replace (map (fun v => Math_max 0 v / sum) ss)
      with (map (fun v => v / sum) (map (Math_max 0) ss))
      by (rewrite map_map; reflexivity).
    apply normalize_distribution; [apply Forall_max0 | fold sum; lra]. }
  destruct Hvals as [Hvl [Hvn Hvs]].
  assert (Hz : forall a, In a legal -> replicate 8 0 !! action_index a = Some 0)
    by (intros a _; destruct a; reflexivity).
  destruct (fill_out_spec legal Hnd values (replicate 8 0) Hvl eq_refl Hz)
    as (Hlen & Hsum & Hother & Hmem & Hentry).
  split; [exact Hlen |].
  split; [rewrite Hsum, Hvs; reflexivity |].
  split.
  { intros a Ha. rewrite (Hother a Ha). destruct a; reflexivity. }
  split.
  { apply List.Forall_forall. intros x Hx.
    destruct (Hmem x Hx) as [H0 | Hv].
    - simpl in H0. assert (x = 0) by intuition congruence. subst x. lra.
    - split.
      + rewrite List.Forall_forall in Hvn. now apply Hvn.
      + rewrite <- Hvs. now apply sumQ_member_le. }
  intros i a Hi.
  destruct (values !! i) as [v |] eqn:Hv.
  - exact (Hentry i a v Hi Hv).
  - exfalso. apply lookup_ge_None in Hv.
    apply lookup_lt_Some in Hi. lia.
Qed.

Lemma map_max0_nonneg (l : list Q) :
  Forall (fun x => 0 <= x) l -> map (Math_max 0) l = l.
Proof.
  induction 1 as [| x l Hx Hl IH]; simpl; [reflexivity |].
  rewrite IH. f_equal. unfold Math_max.
  apply Qle_bool_iff in Hx. now rewrite Hx.
Qed.

(** *** Rounding to six decimals *)

Lemma toFixed6_bounds (x : Q) :
  0 <= x <= 1 ->
  0 <= toFixed 6 x <= 1 /\
  x - 0.0000005 <= toFixed 6 x <= x + 0.0000005.
Proof.
  intros [Hx0 Hx1]. unfold toFixed. cbv zeta.
  assert (Hneg : Qlt_bool x 0 = false) by (now apply Qlt_bool_false).
  rewrite Hneg.
  change (Z.to_pos (10 ^ Z.of_nat 6)) with 1000000%positive.
  change (inject_Z (10 ^ Z.of_nat 6)) with 1000000.
  assert (Habs : Qabs x * 1000000 + (1 # 2) == x * 1000000 + (1 # 2))
    by (rewrite (Qabs_pos x Hx0); reflexivity).
  rewrite Habs.
  set (y := x * 1000000 + (1 # 2)).
  pose proof (Qfloor_le y) as Hlo.
  pose proof (Qlt_floor y) as Hhi.
  assert (Hn0 : (0 <= Qfloor y)%Z).
  { change 0%Z with (Qfloor 0). apply Qfloor_resp_le. subst y. lra. }
  assert (Hn1 : (Qfloor y <= 1000000)%Z).
  { change 1000000%Z with (Qfloor (1000000 + (1 # 2))).
    apply Qfloor_resp_le. subst y. lra. }
  rewrite inject_Z_plus in Hhi.
  assert (Hq : Qmake (Qfloor y) 1000000 == inject_Z (Qfloor y) * (1 # 1000000)).
  { unfold Qeq, Qmult, inject_Z. simpl. lia. }
  rewrite Hq.
  rewrite Zle_Qle in Hn0. rewrite Zle_Qle in Hn1.
  set (m := inject_Z (Qfloor y)) in *. subst y.
  change (inject_Z 0) with 0 in Hn0.
  change (inject_Z 1000000) with 1000000 in Hn1.
  change (inject_Z 1) with 1 in Hhi.
  repeat split; lra.
Qed.

Lemma sumQ_rounded (l : list Q) :
  Forall (fun x => 0 <= x <= 1) l ->
  Forall (fun x => 0 <= x <= 1) (map (toFixed 6) l) /\
  Engine.sumQ l - inject_Z (Z.of_nat (length l)) * 0.0000005
  <= Engine.sumQ (map (toFixed 6) l)
  <= Engine.sumQ l + inject_Z (Z.of_nat (length l)) * 0.0000005.
Proof.
  induction 1 as [| x l Hx Hl IH].
  - split; [constructor |]. vm_compute. split; discriminate.
  - destruct IH as [IHf IHs].
    destruct (toFixed6_bounds x Hx) as [Hr Hd].
    change (map (toFixed 6) (x :: l)) with (toFixed 6 x :: map (toFixed 6) l).
    split; [constructor; assumption |].
    rewrite !sumQ_cons.
    change (length (x :: l)) with (S (length l)).
    rewrite Nat2Z.inj_succ. unfold Z.succ. rewrite inject_Z_plus.
    change (inject_Z 1) with 1.
    set (k := inject_Z (Z.of_nat (length l))) in *.
    lra.
Qed.

Lemma solveRtSubgameDCFR_some
  (Math_pow : Q -> Q -> Q) (RT_PRIOR_WEIGHT_env : Q) (cfg : Config)
  (st : HandState) (legal : list Action) (hs : Q)
  (texture : option Engine.BoardTexture)
  (oppProfile : option Engine.OppProfile)
  (oppRangeBelief : option Engine.Belief) (depthLimit : Q)
  (priorProbs : option (list Q)) (thinkMs : Q) (start : Z)
  (readings : list Z) (finish : Z) (g : Rng) :
  legal <> [] ->
  Engine.solveRtSubgameDCFR Math_pow RT_PRIOR_WEIGHT_env cfg st legal hs
    texture oppProfile oppRangeBelief depthLimit priorProbs thinkMs start
    readings finish g
  = let prior := Engine.toLegalPrior legal priorProbs in
    let ls :=
      Engine.rt_loop Math_pow RT_PRIOR_WEIGHT_env cfg st legal hs texture
        oppProfile oppRangeBelief depthLimit start
        (Math_max 200 (Math_min 800 thinkMs)) readings prior
        (Engine.mkRtLoop (map (fun _ => 0) legal) (map (fun _ => 0) legal)
           0 g) in
    Some (Engine.mkRtResult
            (map (toFixed 6)
               (Engine.rt_out legal prior (Engine.rt_strategySum ls)))
            (Engine.rt_iterations ls) (finish - start)).
Proof.
  intros Hne. unfold Engine.solveRtSubgameDCFR.
  destruct legal; [contradiction | reflexivity].
Qed.

(** C5.  Output of the realtime subgame solver, for a non-empty list of
    distinct legal actions and any readings of the clock: the solver
    returns a vector of length 8, the six-decimal rounding of a vector [out]
    that sums to exactly 1; [out] holds, at each legal action, the average
    of the strategies of the iterations run before the budget expired (the
    prior when none was run) and 0 elsewhere.  The returned entries lie in
    [0, 1], are 0 at the actions that are not legal, and sum to 1 within
    [4e-6]. *)
Theorem realtime_subgame_output
  (Math_pow : Q -> Q -> Q) (RT_PRIOR_WEIGHT_env : Q) (cfg : Config)
  (st : HandState) (legal : list Action) (hs : Q)
  (texture : option Engine.BoardTexture)
  (oppProfile : option Engine.OppProfile)
  (oppRangeBelief : option Engine.Belief) (depthLimit : Q)
  (priorProbs : option (list Q)) (thinkMs : Q) (start : Z)
  (readings : list Z) (finish : Z) (g : Rng) :
  legal <> [] ->
  List.NoDup legal ->
  let prior := Engine.toLegalPrior legal priorProbs in
  let ls :=
    Engine.rt_loop Math_pow RT_PRIOR_WEIGHT_env cfg st legal hs texture
      oppProfile oppRangeBelief depthLimit start
      (Math_max 200 (Math_min 800 thinkMs)) readings prior
      (Engine.mkRtLoop (map (fun _ => 0) legal) (map (fun _ => 0) legal)
         0 g) in
  let n := Engine.rt_iterations ls in
  let ssum := Engine.rt_strategySum ls in
  let out := Engine.rt_out legal prior ssum in
  exists r,
    Engine.solveRtSubgameDCFR Math_pow RT_PRIOR_WEIGHT_env cfg st legal hs
      texture oppProfile oppRangeBelief depthLimit priorProbs thinkMs start
      readings finish g = Some r /\
    Engine.iterations r = n /\
    Engine.probs r = map (toFixed 6) out /\
    length (Engine.probs r) = 8%nat /\
    (forall a, ~ In a legal ->
       exists p, Engine.probs r !! action_index a = Some p /\ p == 0) /\
    Forall (fun p => 0 <= p <= 1) (Engine.probs r) /\
    Qabs (Engine.sumQ (Engine.probs r) - 1) <= 0.000004 /\
    Engine.sumQ out == 1 /\
    (0 <= n)%Z /\
    Forall (fun x => 0 <= x) ssum /\
    Engine.sumQ ssum == inject_Z n /\
    (forall i a, legal !! i = Some a ->
       out !! action_index a
       = (if (n =? 0)%Z then prior
          else map (fun v => v / Engine.sumQ ssum) ssum) !! i).
Proof.
  intros Hne Hnd prior ls n ssum out.
  destruct (toLegalPrior_distribution legal priorProbs Hne) as [Hpl Hprior].
  fold prior in Hpl, Hprior.
  assert (Hinv0 : rt_inv legal
                    (Engine.mkRtLoop (map (fun _ => 0) legal)
                       (map (fun _ => 0) legal) 0 g)).
  { unfold rt_inv. simpl.
    rewrite !length_map. split; [reflexivity |]. split; [reflexivity |].
    split.
    - apply List.Forall_forall. intros x Hx. apply in_map_iff in Hx.
      destruct Hx as (a & <- & _). lra.
    - split; [| lia]. rewrite sumQ_map_const. ring. }
  pose proof (rt_loop_inv Math_pow RT_PRIOR_WEIGHT_env cfg st legal hs texture
                oppProfile oppRangeBelief depthLimit start
                (Math_max 200 (Math_min 800 thinkMs)) readings prior
                Hprior Hpl _ Hinv0) as (Hrl & Hsl & Hsn & Hss & Hn).
  fold ls in Hrl, Hsl, Hsn, Hss, Hn. fold ssum in Hsl, Hsn, Hss. fold n in Hss, Hn.
  destruct (rt_out_spec legal prior ssum Hnd Hprior Hpl Hsl)
    as (Hol & Hos & Hoz & Hor & Hoe).
  fold out in Hol, Hos, Hoz, Hor, Hoe.
  destruct (sumQ_rounded out Hor) as [Hpr Hps].
  rewrite Hol in Hps.
  eexists. split; [apply solveRtSubgameDCFR_some; exact Hne |].
  cbv zeta. cbn [Engine.probs Engine.iterations].
  fold prior. fold ls. fold ssum. fold out.
  split; [reflexivity |].
  split; [reflexivity |].
  split; [rewrite length_map; exact Hol |].
  split.
  { intros a Ha. exists (toFixed 6 0). split.
    - rewrite list_lookup_fmap, (Hoz a Ha). reflexivity.
    - reflexivity. }
  split; [exact Hpr |].
  split.
  { apply Qabs_Qle_condition. rewrite Hos in Hps.
    change (inject_Z (Z.of_nat 8)) with 8 in Hps. lra. }
  split; [exact Hos |].
  split; [exact Hn |].
  split; [exact Hsn |].
  split; [exact Hss |].
  intros i a Hi. rewrite (Hoe i a Hi).
  rewrite (map_max0_nonneg ssum Hsn).
  destruct (Z.eqb_spec n 0) as [Hz | Hnz].
  - assert (Hle : Qle_bool (Engine.sumQ ssum) Engine.tiny = true).
    { apply Qle_bool_iff. rewrite Hss, Hz. vm_compute. discriminate. }
    rewrite Hle. reflexivity.
  - assert (Hgt : Qle_bool (Engine.sumQ ssum) Engine.tiny = false).
    { apply Qle_bool_false. rewrite Hss.
      assert (H1 : (1 <= n)%Z) by lia.
      rewrite Zle_Qle in H1. change (inject_Z 1) with 1 in H1.
      unfold Engine.tiny. lra. }
    rewrite Hgt. f_equal.
    apply map_ext_in. intros v Hv.
    rewrite List.Forall_forall in Hsn. specialize (Hsn v Hv).
    unfold Math_max. apply Qle_bool_iff in Hsn. now rewrite Hsn.
Qed.

Lemma realtime_subgame_output_witness :
  [FOLD; CALL; ALL_IN] <> [] /\
  List.NoDup [FOLD; CALL; ALL_IN] /\
  exists r, rt_example = Some r /\ length (Engine.probs r) = 8%nat.
Proof.
  assert (Hne : [FOLD; CALL; ALL_IN] <> []) by discriminate.
  assert (Hnd : List.NoDup [FOLD; CALL; ALL_IN])
    by (repeat constructor; simpl; intuition discriminate).
  split; [exact Hne |]. split; [exact Hnd |].
  destruct (realtime_subgame_output pow_approx 0.65 default_config
              (Engine.state three_raises) [FOLD; CALL; ALL_IN] 0.5 None None
              None 5 None 300 0 [100; 400]%Z 400 zero_rng Hne Hnd)
    as (r & Hr & _ & _ & Hlen & _).
  exists r. split; [exact Hr | exact Hlen].
Defined.

(** The returned vector does not sum to 1: with three legal actions and no
    prior, one iteration leaves the average strategy at 1/3 each, returned
    as 0.333333 each. *)
Lemma realtime_subgame_counterexample :
  Engine.legalActions default_config (Engine.state three_raises)
  = [FOLD; CALL; ALL_IN] /\
  exists r,
    rt_example = Some r /\
    Engine.iterations r = 1%Z /\
    Engine.probs r
    = [333333 # 1000000; 0 # 1000000; 333333 # 1000000; 0 # 1000000;
       0 # 1000000; 0 # 1000000; 0 # 1000000; 333333 # 1000000] /\
    Engine.sumQ (Engine.probs r) == 0.999999 /\
    ~ Engine.sumQ (Engine.probs r) == 1.
Proof.
  split; [vm_compute; reflexivity |].
  destruct rt_example as [r |] eqn:E; [| vm_compute in E; discriminate].
  vm_compute in E. injection E as <-.
  eexists. split; [reflexivity |].
  split; [reflexivity |]. split; [reflexivity |].
  split; [vm_compute; reflexivity | vm_compute; discriminate].
Qed.

(** * Further properties of the code *)

(** ** Invariants of legal play *)

Lemma eps_pos : 0 < eps.
Proof. reflexivity. Qed.

(** What the membership of an action in [legalActions] says about the
    amount to call and the stack of the acting seat. *)
Lemma legal_facts (cfg : Config) (s : HandState) (a : Action) :
  In a (Engine.legalActions cfg s) ->
  let tc := Math_max 0 (currentBet s - get2 (commit s) (toAct s)) in
  let stk := get2 (stack s) (toAct s) in
  terminal s = false /\
  match a with
  | FOLD | CALL => eps < tc
  | CHECK => tc <= eps
  | BET_HALF | BET_POT => tc <= eps /\ eps < stk /\ streetIdx s <> 0%nat
  | RAISE_HALF | RAISE_POT =>
      (tc <= eps /\ eps < stk /\ streetIdx s = 0%nat) \/
      (eps < tc /\ tc + eps < stk)
  | ALL_IN => (tc <= eps /\ eps < stk) \/ (eps < tc /\ tc + eps < stk)
  end.
Proof.
  intros Hin tc stk.
  unfold Engine.legalActions, ActionModel.legalActions in Hin.
  destruct (terminal s); [destruct Hin |].
  split; [reflexivity |].
  cbv zeta in Hin. fold tc in Hin. fold stk in Hin.
  case_qle tc eps.
  - case_qlt eps stk.
    + destruct (Nat.eqb_spec (streetIdx s) 0) as [Hpre | Hpost];
        simpl in Hin; intuition (subst; auto; try discriminate).
    + simpl in Hin. intuition (subst; auto; try discriminate).
  - case_qlt (tc + eps) stk;
      destruct (Z.ltb (raises s) (MAX_RAISES cfg));
      simpl in Hin; intuition (subst; auto; try discriminate).
Qed.


Ltac split_minmax :=
  repeat match goal with
         | |- context [Math_max ?a ?b] =>
             let H := fresh "Hmax" in
             let E := fresh "Emax" in
             destruct (Math_max_spec a b) as [[H E] | [H E]];
             rewrite ?E in *; clear E
         | |- context [Math_min ?a ?b] =>
             let H := fresh "Hmin" in
             let E := fresh "Emin" in
             destruct (Math_min_spec a b) as [[H E] | [H E]];
             rewrite ?E in *; clear E
         | H0 : context [Math_max ?a ?b] |- _ =>
             let H := fresh "Hmax" in
             let E := fresh "Emax" in
             destruct (Math_max_spec a b) as [[H E] | [H E]];
             rewrite ?E in *; clear E
         | H0 : context [Math_min ?a ?b] |- _ =>
             let H := fresh "Hmin" in
             let E := fresh "Emin" in
             destruct (Math_min_spec a b) as [[H E] | [H E]];
             rewrite ?E in *; clear E
         end.

(** Evaluation of the state machine on a state given by its fields; the
    arithmetic is left as it stands. *)
Ltac run_action :=
  cbv - [Math_max Math_min Qle_bool Qlt_bool Qplus Qminus Qmult Qdiv Qopp
         Qle Qlt Qeq eps String.append Z.add Z.le Z.lt BIG_BLIND SMALL_BLIND
         START_STACK MAX_RAISES].

Ltac run_action_in H :=
  cbv - [Math_max Math_min Qle_bool Qlt_bool Qplus Qminus Qmult Qdiv Qopp
         Qle Qlt Qeq eps String.append Z.add Z.le Z.lt BIG_BLIND SMALL_BLIND
         START_STACK MAX_RAISES] in H.

(** The amounts of the state after [applyAction]; a CALL is taken to face
    a bet. *)
Lemma applyAction_money (cfg : Config) (s : HandState) (a : Action) :
  (a = CALL ->
   Qle_bool (Math_max 0 (currentBet s - get2 (commit s) (toAct s))) eps
   = false) ->
  let p := toAct s in
  let x := real_pay cfg s a in
  money (Engine.applyAction cfg s a)
  = match a with
    | FOLD | CHECK => money s
    | CALL | ALL_IN =>
        (set2 (stack s) p (get2 (stack s) p - x),
         set2 (commit s) p (get2 (commit s) p + x),
         pot s + x,
         if Qlt_bool (currentBet s) (get2 (commit s) p + x)
         then get2 (commit s) p + x else currentBet s)
    | _ =>
        (set2 (stack s) p (get2 (stack s) p - x),
         set2 (commit s) p (get2 (commit s) p + x),
         pot s + x,
         get2 (commit s) p + x)
    end.
Proof.
  intros Hc.
  destruct s as [idx str pt cb [c0 c1] [s0 s1] r cc [a0 a1] h t w p b].
  destruct a, p.
  5, 6: specialize (Hc eq_refl);
    cbv beta iota zeta delta [toAct currentBet commit get2 fst snd] in Hc;
    unfold Engine.applyAction;
    cbv beta iota zeta delta [toAct currentBet commit get2 fst snd];
    rewrite Hc.
  all: clear Hc; run_action;
    repeat match goal with
           | |- context [if Qlt_bool ?a ?b then _ else _] =>
               destruct (Qlt_bool a b)
           end;
    reflexivity.
Qed.

(** The bounds of the chips moved by a legal action. *)
Lemma real_pay_bounds (cfg : Config) (s : HandState) (a : Action) :
  state_ok s ->
  In a (Engine.legalActions cfg s) ->
  let p := toAct s in
  let x := real_pay cfg s a in
  0 <= x <= get2 (stack s) p /\
  match a with
  | CALL => get2 (commit s) p + x <= currentBet s
  | BET_HALF | BET_POT | RAISE_HALF | RAISE_POT | ALL_IN =>
      currentBet s <= get2 (commit s) p + x
  | _ => True
  end.
Proof.
  intros Hok Hin p x.
  destruct (legal_facts cfg s a Hin) as [_ Hfacts].
  pose proof eps_pos as Heps. clear Hin.
  assert (Hone : eps < 1) by reflexivity.
  subst x. unfold real_pay, Engine.actionTarget, ActionModel.actionTarget.
  cbv zeta. fold p.
  assert (Hp : 0 <= get2 (stack s) p /\ 0 <= get2 (commit s) p /\
               get2 (commit s) p <= currentBet s).
  { unfold state_ok in Hok. destruct p; cbn [get2]; intuition. }
  clear Hok. destruct Hp as (Hs & Hc & Hcb).
  set (stk := get2 (stack s) p) in *.
  set (c := get2 (commit s) p) in *.
  set (cb := currentBet s) in *.
  cbv zeta in Hfacts. fold p in Hfacts. fold c in Hfacts. fold stk in Hfacts.
  fold cb in Hfacts.
  assert (Htc : Math_max 0 (cb - c) == cb - c).
  { case_max 0 (cb - c); lra. }
  set (tc := Math_max 0 (cb - c)) in *. clearbody tc.
  destruct a.
  - (* FOLD *) split_minmax; repeat split; lra.
  - (* CHECK *) split_minmax; repeat split; lra.
  - (* CALL *) split_minmax; repeat split; lra.
  - (* BET_HALF *)
    destruct Hfacts as (Hu & Hstk & _).
    assert (Hd : 1 <= Math_max 1 (pot s * 0.5)) by apply Math_max_lb_l.
    set (d := Math_max 1 (pot s * 0.5)) in *.
    split_minmax; repeat split; lra.
  - (* BET_POT *)
    destruct Hfacts as (Hu & Hstk & _).
    assert (Hd : 1 <= Math_max 1 (pot s)) by apply Math_max_lb_l.
    set (d := Math_max 1 (pot s)) in *.
    split_minmax; repeat split; lra.
  - (* RAISE_HALF *)
    set (d := if Nat.eqb (streetIdx s) 0
              then Math_max (tc * 2) (BIG_BLIND cfg * 2)
              else Math_max tc (Math_max 1 (pot s * 0.5))).
    assert (Hd : 0 <= d).
    { subst d. destruct (Nat.eqb (streetIdx s) 0).
      - pose proof (Math_max_lb_l (tc * 2) (BIG_BLIND cfg * 2)). lra.
      - pose proof (Math_max_lb_l tc (Math_max 1 (pot s * 0.5))). lra. }
    clearbody d.
    destruct Hfacts as [(Hu & Hstk & _) | (Hf & Hstk)];
      split_minmax; repeat split; lra.
  - (* RAISE_POT *)
    set (d := if Nat.eqb (streetIdx s) 0
              then Math_max (tc * 3) (BIG_BLIND cfg * 3)
              else Math_max tc (Math_max 1 (pot s))).
    assert (Hd : 0 <= d).
    { subst d. destruct (Nat.eqb (streetIdx s) 0).
      - pose proof (Math_max_lb_l (tc * 3) (BIG_BLIND cfg * 3)). lra.
      - pose proof (Math_max_lb_l tc (Math_max 1 (pot s))). lra. }
    clearbody d.
    destruct Hfacts as [(Hu & Hstk & _) | (Hf & Hstk)];
      split_minmax; repeat split; lra.
  - (* ALL_IN *)
    destruct Hfacts as [(Hu & Hstk) | (Hf & Hstk)];
      split_minmax; repeat split; lra.
Qed.

Lemma applyAction_state_ok (cfg : Config) (s : HandState) (a : Action) :
  state_ok s ->
  In a (Engine.legalActions cfg s) ->
  state_ok (Engine.applyAction cfg s a).
Proof.
  intros Hok Hin.
  pose proof (real_pay_bounds cfg s a Hok Hin) as Hb.
  destruct (legal_facts cfg s a Hin) as [_ Hfacts].
  assert (Hc : a = CALL ->
               Qle_bool (Math_max 0 (currentBet s - get2 (commit s) (toAct s)))
                 eps = false).
  { intros ->. now apply Qle_bool_false. }
  pose proof (applyAction_money cfg s a Hc) as Hm.
  cbv zeta in Hb, Hm, Hfacts.
  set (x := real_pay cfg s a) in *. clearbody x.
  set (s' := Engine.applyAction cfg s a) in *. clearbody s'.
  unfold state_ok in *.
  destruct Hb as [[Hx0 Hx1] Hb].
  assert (Htc : Math_max 0 (currentBet s - get2 (commit s) (toAct s))
                == currentBet s - get2 (commit s) (toAct s)).
  { case_max 0 (currentBet s - get2 (commit s) (toAct s));
      destruct (toAct s); cbn [get2] in *; lra. }
  set (tc := Math_max 0 (currentBet s - get2 (commit s) (toAct s))) in *.
  clearbody tc. clear Hc Hin.
  unfold money in Hm.
  destruct a; injection Hm as -> -> -> ->;
    destruct (toAct s); cbn [get2 set2 fst snd] in *;
    try match goal with
        | |- context [if Qlt_bool ?a ?b then _ else _] => case_qlt a b
        end;
    repeat match goal with
           | H : _ /\ _ |- _ => destruct H
           end;
    repeat match goal with |- _ /\ _ => split end;
    try lra;
    match goal with
    | H : _ \/ _ |- _ => destruct H; try (left; lra); try (right; lra)
    end.
Qed.

Lemma initialState_state_ok (cfg : Config) :
  sane_config cfg -> state_ok (Engine.initialState cfg).
Proof.
  unfold sane_config, state_ok, Engine.initialState.
  cbn [stack commit pot currentBet fst snd].
  intros (H0 & H1 & H2). repeat split; try lra; right; reflexivity.
Qed.

Lemma advanceStreet_state_ok (sess : Engine.Session) :
  state_ok (Engine.state sess) ->
  state_ok (Engine.state (Engine.advanceStreet sess)).
Proof.
  unfold Engine.advanceStreet, Engine.enforceBoardInvariant, state_ok.
  cbv zeta. intros Hok.
  repeat match goal with
         | |- context [if ?c then _ else _] => destruct c
         end;
    cbn [Engine.state Engine.set_state Engine.set_sess_board
         stack commit pot currentBet fst snd set_toAct set_acted
         set_consecutiveChecks set_raises set_commit set_currentBet
         set_street set_streetIdx];
    repeat split; try lra; try (left; reflexivity).
Qed.

Lemma play_reachable_state_ok (cfg : Config) (sess : Engine.Session) :
  sane_config cfg -> play_reachable cfg sess -> state_ok (Engine.state sess).
Proof.
  intros Hcfg Hreach. induction Hreach as [hs idx sc g | sess a _ IH Hin | sess _ IH].
  - rewrite newHand_state. now apply initialState_state_ok.
  - cbn [Engine.state Engine.set_state]. now apply applyAction_state_ok.
  - now apply advanceStreet_state_ok.
Qed.

Lemma play_reachable_chips (cfg : Config) (sess : Engine.Session) :
  play_reachable cfg sess -> chips (Engine.state sess) == 2 * START_STACK cfg.
Proof.
  intros Hreach. induction Hreach as [hs idx sc g | sess a _ IH Hin | sess _ IH].
  - rewrite newHand_state. apply chips_initial.
  - cbn [Engine.state Engine.set_state]. rewrite applyAction_chips. exact IH.
  - rewrite advanceStreet_chips. exact IH.
Qed.

(** X1.  Legal play never produces a negative amount: with blinds
    [0 <= SB <= BB <= START_STACK], in every session reached from a fresh
    hand by legal actions and street advances both stacks, the pot and both
    street commitments are non-negative, no commitment exceeds [currentBet],
    and [currentBet] is the commitment of one of the seats. *)
Theorem reachable_state_invariant (cfg : Config) (sess : Engine.Session) :
  sane_config cfg ->
  play_reachable cfg sess ->
  let st := Engine.state sess in
  0 <= fst (stack st) /\ 0 <= snd (stack st) /\ 0 <= pot st /\
  0 <= fst (commit st) <= currentBet st /\
  0 <= snd (commit st) <= currentBet st /\
  (currentBet st == fst (commit st) \/ currentBet st == snd (commit st)).
Proof.
  intros Hcfg Hreach st.
  pose proof (play_reachable_state_ok cfg sess Hcfg Hreach) as Hok.
  unfold state_ok in Hok. fold st in Hok. tauto.
Qed.

Lemma sane_default_config : sane_config default_config.
Proof. unfold sane_config. cbn. lra. Qed.

Lemma reachable_state_invariant_witness :
  sane_config default_config /\
  play_reachable default_config three_raises /\
  fst (commit (Engine.state three_raises))
  <= currentBet (Engine.state three_raises).
Proof.
  split; [exact sane_default_config |].
  split; [exact (legal_reachable_play _ _ three_raises_reachable) |].
  exact (proj2 (proj1 (proj2 (proj2 (proj2
    (reachable_state_invariant default_config three_raises
       sane_default_config
       (legal_reachable_play _ _ three_raises_reachable))))))).
Defined.

(** ** Settlement *)

Lemma play_reachable_unresolved (cfg : Config) (sess : Engine.Session) :
  play_reachable cfg sess -> Engine.resolved sess = false.
Proof.
  intros Hreach. induction Hreach as [hs idx sc g | sess a _ IH Hin | sess _ IH].
  - unfold Engine.newHand. destruct (Engine.dealDeck g). reflexivity.
  - exact IH.
  - unfold Engine.advanceStreet, Engine.enforceBoardInvariant. cbv zeta.
    repeat match goal with
           | |- context [if ?c then _ else _] => destruct c
           end; exact IH.
Qed.

(** The stacks [settleTerminal] pays out do not depend on the human seat;
    the net score moves by the payout of the human seat less the starting
    stack, and one of the three counters is incremented. *)
Lemma settle_net (evalHand : list (option card) -> Z) (cfg : Config)
  (sess : Engine.Session) :
  Engine.resolved sess = false ->
  let st := Engine.state sess in
  exists final : Q * Q,
    (final = (fst (stack st) + pot st, snd (stack st)) \/
     final = (fst (stack st), snd (stack st) + pot st) \/
     final = (fst (stack st) + pot st * 0.5, snd (stack st) + pot st * 0.5)) /\
    forall h : Seat,
      let sess' :=
        snd (Engine.settleTerminal evalHand cfg (set_humanSeat sess h)) in
      let sc := Engine.score sess in
      let sc' := Engine.score sess' in
      Engine.net sc' = Engine.net sc + (get2 final h - START_STACK cfg) /\
      one_counter_incremented (get2 final h - START_STACK cfg) sc sc' /\
      Engine.resolved sess' = true.
Proof.
  intros Hres st.
  unfold Engine.settleTerminal, set_humanSeat.
  cbn [Engine.resolved Engine.lastResult Engine.state Engine.score
       Engine.humanSeat Engine.hero Engine.vill Engine.fullBoard].
  rewrite Hres. fold st.
  destruct (negb (winner st =? 0)%Z && negb (winner st =? 1)%Z).
  - set (w := if (_ <? _)%Z then 0%Z else if (_ <? _)%Z then 1%Z else (-1)%Z).
    cbv zeta.
    cbn [stack pot set_winner fst snd].
    destruct (w =? 0)%Z; [| destruct (w =? 1)%Z];
      (eexists; split; [| intros h;
        match goal with
        | |- context [if Qlt_bool eps ?x then _ else _] =>
            case_qlt eps x; [| case_qlt x (- eps)]
        end;
        cbn [snd Engine.score Engine.resolved Engine.net Engine.wins
             Engine.losses Engine.ties];
        (split; [reflexivity | split; [| reflexivity]]);
        unfold one_counter_incremented;
        cbn [Engine.wins Engine.losses Engine.ties];
        [left | right; left | right; right]; repeat split; lra]);
      tauto.
  - cbv zeta.
    destruct (winner st =? 0)%Z; [| destruct (winner st =? 1)%Z];
      (eexists; split; [| intros h;
        match goal with
        | |- context [if Qlt_bool eps ?x then _ else _] =>
            case_qlt eps x; [| case_qlt x (- eps)]
        end;
        cbn [snd Engine.score Engine.resolved Engine.net Engine.wins
             Engine.losses Engine.ties];
        (split; [reflexivity | split; [| reflexivity]]);
        unfold one_counter_incremented;
        cbn [Engine.wins Engine.losses Engine.ties];
        [left | right; left | right; right]; repeat split; lra]);
      tauto.
Qed.

Lemma set_humanSeat_same (sess : Engine.Session) :
  set_humanSeat sess (Engine.humanSeat sess) = sess.
Proof. destruct sess; reflexivity. Qed.

(** X2.  Settlement is zero-sum and bounded: for a session reached by
    legal play, settling it moves the net score by at least
    [-START_STACK] and at most [START_STACK], increments exactly one of
    the counters wins, losses, ties (wins if the gain exceeds [1e-9],
    losses if it is below [-1e-9], ties otherwise) and leaves the other
    two as they were, and marks the session resolved; and what the seat-0
    player would gain and what the seat-1 player would gain add up to
    zero. *)
Theorem settle_zero_sum_bounded (evalHand : list (option card) -> Z)
  (cfg : Config) (sess : Engine.Session) :
  sane_config cfg ->
  play_reachable cfg sess ->
  let sess' := snd (Engine.settleTerminal evalHand cfg sess) in
  let sc := Engine.score sess in
  let sc' := Engine.score sess' in
  - START_STACK cfg <= settle_gain evalHand cfg sess <= START_STACK cfg /\
  one_counter_incremented (settle_gain evalHand cfg sess) sc sc' /\
  Engine.resolved sess' = true /\
  settle_gain evalHand cfg (set_humanSeat sess Seat0)
  + settle_gain evalHand cfg (set_humanSeat sess Seat1) == 0.
Proof.
  intros Hcfg Hreach sess' sc sc'.
  pose proof (play_reachable_state_ok cfg sess Hcfg Hreach) as Hok.
  pose proof (play_reachable_chips cfg sess Hreach) as Hchips.
  pose proof (play_reachable_unresolved cfg sess Hreach) as Hres.
  destruct (settle_net evalHand cfg sess Hres) as (final & Hfinal & Hall).
  pose proof (Hall (Engine.humanSeat sess)) as Hself.
  pose proof (Hall Seat0) as H0. pose proof (Hall Seat1) as H1.
  rewrite set_humanSeat_same in Hself.
  cbv zeta in Hself, H0, H1.
  destruct Hself as (Hn & Hc & Hr), H0 as (Hn0 & _), H1 as (Hn1 & _).
  unfold settle_gain. subst sess' sc sc'.
  cbn [Engine.score set_humanSeat] in *.
  rewrite Hn, Hn0, Hn1.
  unfold state_ok, chips in *.
  set (st := Engine.state sess) in *.
  split; [| split; [| split; [exact Hr |]]].
  2: { revert Hc. unfold one_counter_incremented.
       set (x := get2 final (Engine.humanSeat sess) - START_STACK cfg).
       intros [(Hg & Hc) | [(Hg & Hc) | (Hg & Hc)]];
         [left | right; left | right; right]; (split; [lra | exact Hc]). }
  - destruct Hfinal as [-> | [-> | ->]]; destruct (Engine.humanSeat sess);
      cbn [get2 fst snd]; lra.
  - destruct Hfinal as [-> | [-> | ->]]; cbn [get2 fst snd]; lra.
Qed.

Lemma settle_zero_sum_bounded_witness :
  sane_config default_config /\
  play_reachable default_config three_raises /\
  Engine.resolved
    (snd (Engine.settleTerminal count_evaluator default_config three_raises))
  = true.
Proof.
  split; [exact sane_default_config |].
  split; [exact (legal_reachable_play _ _ three_raises_reachable) |].
  exact (proj1 (proj2 (proj2
    (settle_zero_sum_bounded count_evaluator default_config three_raises
       sane_default_config
       (legal_reachable_play _ _ three_raises_reachable))))).
Defined.

(** ** Shuffling and dealing *)

(** [Math.floor(r * n)] for [0 <= r < 1] is an index below [n]. *)
Lemma floor_index_lt (r : Q) (n : nat) :
  0 <= r -> r < 1 -> (0 < n)%nat ->
  (Z.to_nat (Math_floor (r * inject_Z (Z.of_nat n))) < n)%nat.
Proof.
  intros Hr0 Hr1 Hn. unfold Math_floor.
  set (x := r * inject_Z (Z.of_nat n)).
  assert (Hnq : 0 < inject_Z (Z.of_nat n)).
  { change 0 with (inject_Z 0). rewrite <- Zlt_Qlt. lia. }
  assert (Hx0 : 0 <= x) by (subst x; nra).
  assert (Hx1 : x < inject_Z (Z.of_nat n)) by (subst x; nra).
  assert (H0 : (0 <= Qfloor x)%Z).
  { change 0%Z with (Qfloor 0). now apply Qfloor_resp_le. }
  assert (H1 : (Qfloor x < Z.of_nat n)%Z).
  { rewrite Zlt_Qlt. pose proof (Qfloor_le x). lra. }
  lia.
Qed.

Lemma random_index_lt (g : Rng) (n : nat) :
  (0 < n)%nat -> (fst (random_index g n) < n)%nat.
Proof.
  intros Hn. unfold random_index, Math_random. cbn [fst].
  destruct (draws_range g (pos g)) as [H0 H1].
  now apply floor_index_lt.
Qed.

(** The generator of the trainer returns numbers in [0, 1). *)
Lemma rand_range (s : Z) : 0 <= fst (Trainer.rand s) /\ fst (Trainer.rand s) < 1.
Proof.
  unfold Trainer.rand. cbn [fst].
  set (s' := ((1664525 * s + 1013904223) mod 4294967296)%Z).
  assert (Hs : (0 <= s' < 4294967296)%Z) by (apply Z.mod_pos_bound; lia).
  destruct Hs as [H0 H1].
  rewrite Zle_Qle in H0. rewrite Zlt_Qlt in H1.
  change (inject_Z 0) with 0 in H0.
  change (inject_Z 4294967296) with 4294967296 in H1.
  set (q := inject_Z s') in *.
  split.
  - apply Qle_shift_div_l; lra.
  - apply Qlt_shift_div_r; lra.
Qed.

Lemma randInt_lt (s : Z) (n : nat) :
  (0 < n)%nat -> (fst (Trainer.randInt s n) < n)%nat.
Proof.
  intros Hn. unfold Trainer.randInt.
  pose proof (rand_range s) as [H0 H1].
  destruct (Trainer.rand s) as [r s']. cbn [fst] in *.
  now apply floor_index_lt.
Qed.

(** Overwriting the element at [j] by [y] and putting the old one in
    front permutes [y :: l]. *)
Lemma insert_front_perm {T : Type} (l : list T) (j : nat) (x y : T) :
  l !! j = Some x -> x :: <[j := y]> l ≡ₚ y :: l.
Proof.
  revert j. induction l as [| z l IH]; intros [| j] Hj; try discriminate.
  - injection Hj as ->. cbn. apply perm_swap.
  - cbn in Hj. cbn [list_insert]. change (<[S j := y]> (z :: l)) with (z :: <[j := y]> l).
    rewrite perm_swap. rewrite (IH j Hj). apply perm_swap.
Qed.

(** The exchange [[arr[i], arr[j]] = [arr[j], arr[i]]] is a permutation. *)
Lemma swap_perm {T : Type} (arr : list T) (i j : nat) (ai aj : T) :
  arr !! i = Some ai -> arr !! j = Some aj ->
  <[j := ai]> (<[i := aj]> arr) ≡ₚ arr.
Proof.
  revert i j. induction arr as [| a arr IH]; intros [| i] [| j] Hi Hj;
    try discriminate; cbn in Hi, Hj.
  - injection Hi as ->. reflexivity.
  - injection Hi as ->.
    change (<[S j := ai]> (<[0%nat := aj]> (ai :: arr)))
      with (aj :: <[j := ai]> arr).
    now apply insert_front_perm.
  - injection Hj as ->.
    change (<[0%nat := ai]> (<[S i := aj]> (aj :: arr)))
      with (ai :: <[i := aj]> arr).
    now apply insert_front_perm.
  - change (<[S j := ai]> (<[S i := aj]> (a :: arr)))
      with (a :: <[j := ai]> (<[i := aj]> arr)).
    apply perm_skip. now apply IH.
Qed.

Lemma engine_shuffle_from_perm {T : Type} (i : nat) :
  forall (arr : list T) (g : Rng),
    fst (Engine.shuffle_from i arr g) ≡ₚ arr.
Proof.
  induction i as [| i IH]; intros arr g; [reflexivity |].
  cbn [Engine.shuffle_from].
  destruct (random_index g (S i + 1)) as [j g1].
  destruct (arr !! S i) as [ai |] eqn:Hi; [| apply IH].
  destruct (arr !! j) as [aj |] eqn:Hj; [| apply IH].
  rewrite IH. now apply swap_perm.
Qed.

Lemma trainer_shuffle_from_perm {T : Type} (i : nat) :
  forall (arr : list T) (s : Z),
    fst (Trainer.shuffle_from i arr s) ≡ₚ arr.
Proof.
  induction i as [| i IH]; intros arr s; [reflexivity |].
  cbn [Trainer.shuffle_from].
  destruct (Trainer.randInt s (S i + 1)) as [j s1].
  destruct (arr !! S i) as [ai |] eqn:Hi; [| apply IH].
  destruct (arr !! j) as [aj |] eqn:Hj; [| apply IH].
  rewrite IH. now apply swap_perm.
Qed.

Lemma dealDeck_perm (g : Rng) : fst (Engine.dealDeck g) ≡ₚ seq 0 52.
Proof. apply engine_shuffle_from_perm. Qed.

Lemma shuffleInPlace_perm {T : Type} (arr : list T) (s : Z) :
  fst (Trainer.shuffleInPlace arr s) ≡ₚ arr.
Proof. apply trainer_shuffle_from_perm. Qed.

(** X3.  Both shuffles only reorder: the array returned by [shuffle] of the
    server and by [shuffleInPlace] of the trainer is a permutation of the
    array given, whatever the random source; so [dealDeck] returns the
    numbers 0..51, each once. *)
Theorem shuffle_permutation {T : Type} (arr : list T) (g : Rng) (s : Z) :
  fst (Engine.shuffle arr g) ≡ₚ arr /\
  fst (Trainer.shuffleInPlace arr s) ≡ₚ arr /\
  fst (Engine.dealDeck g) ≡ₚ seq 0 52.
Proof.
  split; [apply engine_shuffle_from_perm |].
  split; [apply trainer_shuffle_from_perm | apply engine_shuffle_from_perm].
Qed.

Lemma full_deck_NoDup : NoDup Engine.full_deck.
Proof.
  apply (bool_decide_unpack (NoDup Engine.full_deck)). vm_compute. exact I.
Qed.

Lemma full_deck_indices : map Engine.cardFromIndex (seq 0 52) = Engine.full_deck.
Proof. vm_compute. reflexivity. Qed.

(** Nine cards popped from a permutation of the deck. *)
Lemma nine_cards (popped : list card) :
  popped ≡ₚ Engine.full_deck ->
  let hole1 := firstn 2 popped in
  let hole2 := firstn 2 (skipn 2 popped) in
  let five := firstn 5 (skipn 4 popped) in
  length hole1 = 2%nat /\ length hole2 = 2%nat /\ length five = 5%nat /\
  List.NoDup (hole1 ++ hole2 ++ five) /\
  (forall c, In c (hole1 ++ hole2 ++ five) -> In c Engine.full_deck).
Proof.
  intros Hperm hole1 hole2 five.
  assert (Hlen : length popped = 52%nat).
  { rewrite (Permutation_length Hperm). reflexivity. }
  assert (Hnine : hole1 ++ hole2 ++ five = take 9 popped).
  { subst hole1 hole2 five.
    change (drop 4 popped) with (drop (2 + 2) popped).
    rewrite <- (drop_drop popped 2 2).
    rewrite (take_take_drop (drop 2 popped) 2 5).
    rewrite (take_take_drop popped 2 (2 + 5)). reflexivity. }
  subst hole1 hole2 five.
  rewrite !length_take, !length_drop, Hlen.
  repeat split; try reflexivity.
  - rewrite Hnine. apply NoDup_ListNoDup.
    apply (sublist_NoDup _ popped); [| apply sublist_take].
    rewrite Hperm. apply full_deck_NoDup.
  - rewrite Hnine. intros c Hc.
    apply list_elem_of_In. rewrite <- Hperm.
    apply list_elem_of_In in Hc.
    apply elem_of_take in Hc. destruct Hc as (i & Hi & _).
    eapply list_elem_of_lookup_2. exact Hi.
Qed.

(** X4.  A deal hands out nine different cards of the 52-card deck: two to
    each seat and five to the board, both in [newHand] of the server and
    in [createHandContext] of the trainer, whatever the random source. *)
Theorem deal_distinct_cards (cfg : Config) (humanSeat : Seat) (handIndex : Z)
  (sc : Engine.Score) (g : Rng) (s : Z) :
  let sess := fst (Engine.newHand cfg humanSeat handIndex sc g) in
  let ctx := fst (fst (Trainer.createHandContext cfg s)) in
  (length (Engine.hero sess) = 2%nat /\ length (Engine.vill sess) = 2%nat /\
   length (Engine.fullBoard sess) = 5%nat /\
   List.NoDup (Engine.hero sess ++ Engine.vill sess ++ Engine.fullBoard sess) /\
   (forall c, In c (Engine.hero sess ++ Engine.vill sess
                    ++ Engine.fullBoard sess) ->
              In c Engine.full_deck)) /\
  (length (fst (Trainer.hands ctx)) = 2%nat /\
   length (snd (Trainer.hands ctx)) = 2%nat /\
   length (Trainer.fullBoard ctx) = 5%nat /\
   List.NoDup (fst (Trainer.hands ctx) ++ snd (Trainer.hands ctx)
               ++ Trainer.fullBoard ctx) /\
   (forall c, In c (fst (Trainer.hands ctx) ++ snd (Trainer.hands ctx)
                    ++ Trainer.fullBoard ctx) ->
              In c Engine.full_deck)).
Proof.
  intros sess ctx. split.
  - subst sess. unfold Engine.newHand.
    pose proof (dealDeck_perm g) as Hperm.
    destruct (Engine.dealDeck g) as [deck g']. cbn [fst] in *.
    cbn [Engine.hero Engine.vill Engine.fullBoard].
    apply nine_cards.
    rewrite <- full_deck_indices.
    apply Permutation_map. rewrite <- Permutation_rev. exact Hperm.
  - subst ctx. unfold Trainer.createHandContext, Trainer.sampleDeck.
    pose proof (shuffleInPlace_perm Engine.full_deck s) as Hperm.
    destruct (Trainer.shuffleInPlace Engine.full_deck s) as [deck s'].
    cbn [fst snd] in *.
    cbn [Trainer.hands Trainer.fullBoard fst snd].
    apply nine_cards.
    rewrite <- Permutation_rev. exact Hperm.
Qed.

(** ** The visible board *)

Lemma applyAction_streetIdx (cfg : Config) (s : HandState) (a : Action) :
  streetIdx (Engine.applyAction cfg s a) = streetIdx s.
Proof.
  unfold Engine.applyAction. cbv zeta.
  set (tc := Math_max 0 (currentBet s - get2 (commit s) (toAct s))).
  destruct (action_eqb a CALL && Qle_bool tc eps).
  - reflexivity.
  - destruct a; break_ifs; reflexivity.
Qed.

Lemma expected_board_length_le (idx : nat) :
  (expected_board_length idx <= 5)%nat.
Proof.
  unfold expected_board_length.
  destruct idx as [| [| [| [| idx]]]]; cbn; try lia.
  destruct idx; cbn; lia.
Qed.


Lemma deal_cards_lengths (cfg : Config) hs idx sc g :
  length (Engine.fullBoard (fst (Engine.newHand cfg hs idx sc g))) = 5%nat.
Proof.
  unfold Engine.newHand.
  pose proof (dealDeck_perm g) as Hperm.
  destruct (Engine.dealDeck g) as [deck g']. cbn [fst] in *.
  cbn [Engine.fullBoard].
  apply nine_cards.
  rewrite <- full_deck_indices.
  apply Permutation_map. rewrite <- Permutation_rev. exact Hperm.
Qed.

Lemma newHand_board (cfg : Config) hs idx sc g :
  Engine.sess_board (fst (Engine.newHand cfg hs idx sc g)) = [].
Proof.
  unfold Engine.newHand. destruct (Engine.dealDeck g) as [deck g']. reflexivity.
Qed.

(** The board shown is the prefix of the full board that the street calls
    for. *)
Lemma hand_reachable_board (cfg : Config) (sess : Engine.Session) :
  hand_reachable cfg sess ->
  Engine.sess_board sess
  = firstn (expected_board_length (streetIdx (Engine.state sess)))
      (Engine.fullBoard sess) /\
  length (Engine.fullBoard sess) = 5%nat.
Proof.
  intros Hreach.
  induction Hreach as [hs idx sc g | sess a _ IH | sess _ IH].
  - rewrite newHand_board, newHand_state.
    split; [reflexivity | apply deal_cards_lengths].
  - destruct IH as [IHb IHl].
    cbn [Engine.set_state Engine.sess_board Engine.fullBoard Engine.state].
    rewrite applyAction_streetIdx. now split.
  - destruct IH as [IHb IHl].
    unfold Engine.advanceStreet, Engine.enforceBoardInvariant.
    cbv zeta.
    cbn [Engine.set_state Engine.sess_board Engine.fullBoard Engine.state
         Engine.set_sess_board streetIdx set_streetIdx set_street].
    rewrite Nat.add_1_r.
    unfold expected_board_length in *.
    destruct (streetIdx (Engine.state sess)) as [| [| [| n]]] eqn:Hidx;
      cbn [Nat.eqb nth] in *;
      repeat match goal with
             | |- context [if ?c then _ else _] => destruct c eqn:?
             end;
      cbn [Engine.set_state Engine.sess_board Engine.fullBoard Engine.state
           Engine.set_sess_board streetIdx set_streetIdx set_street
           set_toAct set_acted set_consecutiveChecks set_raises set_commit
           set_currentBet nth] in *;
      try (split; [reflexivity | exact IHl]).
    all: split; [| exact IHl].
    all: match goal with
         | H : (length _ =? _)%nat = true |- _ => apply Nat.eqb_eq in H
         end.
    all: destruct n; cbn [nth] in *;
      now apply nil_length_inv in Heqb.
Qed.

(** X5.  The board never needs repair: in every session reached from a
    fresh hand by actions and street advances the visible board is the
    prefix of the five-card full board of length 0, 3, 4 or 5 that the
    street index calls for (0 past the river), so [enforceBoardInvariant]
    leaves the session as it is. *)
Theorem board_matches_street (cfg : Config) (sess : Engine.Session) :
  hand_reachable cfg sess ->
  let idx := streetIdx (Engine.state sess) in
  Engine.sess_board sess
  = firstn (expected_board_length idx) (Engine.fullBoard sess) /\
  length (Engine.fullBoard sess) = 5%nat /\
  length (Engine.sess_board sess) = expected_board_length idx /\
  Engine.enforceBoardInvariant sess = sess.
Proof.
  intros Hreach idx.
  destruct (hand_reachable_board cfg sess Hreach) as [Hb Hl]. fold idx in Hb.
  assert (Hlen : length (Engine.sess_board sess) = expected_board_length idx).
  { rewrite Hb, length_take, Hl.
    pose proof (expected_board_length_le idx). lia. }
  repeat split; try assumption.
  unfold Engine.enforceBoardInvariant.
  fold idx. fold (expected_board_length idx).
  rewrite Hlen, Nat.eqb_refl. reflexivity.
Qed.

Lemma board_matches_street_witness :
  hand_reachable default_config flop_hand /\
  length (Engine.sess_board flop_hand) = 3%nat.
Proof.
  split; [exact flop_hand_reachable |].
  exact (proj1 (proj2 (proj2
    (board_matches_street default_config flop_hand flop_hand_reachable)))).
Defined.

(** ** The action history *)

Lemma append_cons (c : ascii) (h s : string) :
  String c h +:+ s = String c (h +:+ s).
Proof. reflexivity. Qed.

Lemma length_append_one (h : string) (c : ascii) :
  String.length (h +:+ String c EmptyString) = S (String.length h).
Proof.
  induction h as [| x h IH]; [reflexivity |].
  rewrite append_cons. cbn [String.length]. now rewrite IH.
Qed.

Lemma substring_last (h : string) (c : ascii) :
  substring (String.length h) 1 (h +:+ String c EmptyString)
  = String c EmptyString.
Proof.
  induction h as [| x h IH]; [reflexivity |].
  rewrite append_cons. cbn [String.length substring]. exact IH.
Qed.

Lemma endsWith_append_one (h : string) (c d : ascii) :
  endsWith (h +:+ String c EmptyString) (String d EmptyString)
  = Ascii.eqb c d.
Proof.
  unfold endsWith. rewrite length_append_one.
  cbn [String.length]. rewrite Nat.sub_succ, Nat.sub_0_r.
  rewrite substring_last.
  cbn [Nat.leb andb String.eqb].
  destruct (Ascii.eqb c d); reflexivity.
Qed.

(** The letter [applyAction] appends to the history. *)
Lemma applyAction_history (cfg : Config) (s : HandState) (a : Action) :
  exists c : ascii,
    history (Engine.applyAction cfg s a)
    = history s +:+ String c EmptyString /\
    (a = FOLD /\ c = "f"%char \/
     a <> FOLD /\ In c ["k"; "c"; "b"; "r"; "a"]%char).
Proof.
  unfold Engine.applyAction. cbv zeta.
  set (tc := Math_max 0 (currentBet s - get2 (commit s) (toAct s))).
  destruct (action_eqb a CALL && Qle_bool tc eps) eqn:Hn.
  - exists "k"%char. split; [reflexivity |]. right.
    split; [| cbn; tauto].
    destruct a; try discriminate.
  - destruct a; break_ifs; eexists; (split; [reflexivity |]);
      first [ left; split; reflexivity
            | right; split; [discriminate | cbn; tauto] ].
Qed.

(** X6.  Every action is recorded by one letter, and only a fold by [f]:
    [applyAction] appends exactly one character to the history, and when an
    unresolved session is settled after it, [settleTerminal] reports
    the terminal type "fold" if the action was FOLD and "showdown"
    otherwise. *)
Theorem fold_is_reported_as_fold (evalHand : list (option card) -> Z)
  (cfg : Config) (sess : Engine.Session) (a : Action) :
  Engine.resolved sess = false ->
  let st' := Engine.applyAction cfg (Engine.state sess) a in
  let res := fst (Engine.settleTerminal evalHand cfg
                    (Engine.set_state sess st')) in
  String.length (history st') = S (String.length (history (Engine.state sess)))
  /\ (a = FOLD -> Engine.terminal_type res = "fold"%string)
  /\ (a <> FOLD -> Engine.terminal_type res = "showdown"%string).
Proof.
  intros Hres st' res.
  destruct (applyAction_history cfg (Engine.state sess) a)
    as (c & Hh & Hc).
  fold st' in Hh.
  assert (Htype : Engine.terminal_type res
                  = if Ascii.eqb c "f" then "fold"%string
                    else "showdown"%string).
  { subst res. unfold Engine.settleTerminal.
    cbn [Engine.resolved Engine.set_state Engine.lastResult Engine.state].
    rewrite Hres. rewrite Hh.
    rewrite (endsWith_append_one (history (Engine.state sess)) c "f").
    cbv zeta.
    repeat match goal with
           | |- context [let '(_, _) := ?p in _] => destruct p
           end.
    reflexivity. }
  split; [rewrite Hh; apply length_append_one |].
  rewrite Htype.
  destruct Hc as [[-> ->] | [Hne Hin]].
  - split; [reflexivity | congruence].
  - split; [congruence | intros _].
    cbn in Hin. destruct Hin as [<- | [<- | [<- | [<- | [<- | []]]]]];
      reflexivity.
Qed.

Lemma fold_is_reported_as_fold_witness :
  Engine.resolved three_raises = false /\
  Engine.terminal_type
    (fst (Engine.settleTerminal count_evaluator default_config
            (Engine.set_state three_raises
               (Engine.applyAction default_config
                  (Engine.state three_raises) FOLD))))
  = "fold"%string.
Proof.
  split; [reflexivity |].
  exact (proj1 (proj2
    (fold_is_reported_as_fold count_evaluator default_config three_raises
       FOLD eq_refl)) eq_refl).
Defined.

(** ** Guards on the chosen action *)

Lemma action_eqb_eq (a b : Action) : action_eqb a b = true <-> a = b.
Proof.
  unfold action_eqb. destruct (Action_eq_dec a b); split; congruence.
Qed.

Lemma action_eqb_refl (a : Action) : action_eqb a a = true.
Proof. now apply action_eqb_eq. Qed.

Lemma includes_action_In (legal : list Action) (a : Action) :
  includes_action legal a = true <-> In a legal.
Proof.
  unfold includes_action. rewrite existsb_exists. split.
  - intros (x & Hx & Heq). apply action_eqb_eq in Heq. now subst.
  - intros Hin. exists a. split; [exact Hin | apply action_eqb_refl].
Qed.

Lemma In_filter_not_fold (legal : list Action) (a : Action) :
  In a (filter (fun x => negb (action_eqb x FOLD)) legal)
  <-> In a legal /\ a <> FOLD.
Proof.
  rewrite <- !list_elem_of_In, list_elem_of_filter.
  rewrite negb_True, Is_true_true, action_eqb_eq. tauto.
Qed.

(** X7.  Removing a dominated fold only ever removes FOLD.  Every other
    action of [legal] is kept and none is added; FOLD is dropped exactly
    when it is in [legal], [toCall] exceeds [1e-9], [pot + toCall] is not
    zero and [equity] exceeds [toCall / (pot + toCall) + margin]; on the
    legal actions of a non-terminal state the result is never empty. *)
Theorem removeDominatedFold_only_fold (legal : list Action)
  (toCall pot equity margin : Q) (cfg : Config) (s : HandState) :
  let out := Engine.removeDominatedFold legal toCall pot equity margin in
  (forall a, a <> FOLD -> (In a out <-> In a legal)) /\
  (In FOLD out -> In FOLD legal) /\
  (In FOLD legal ->
   (~ In FOLD out <->
    eps < toCall /\ ~ pot + toCall == 0 /\
    toCall / (pot + toCall) + margin < equity)) /\
  (terminal s = false ->
   Engine.removeDominatedFold (Engine.legalActions cfg s) toCall pot equity
     margin <> []).
Proof.
  intros out.
  assert (Hshape :
    (out = legal /\
     (In FOLD legal ->
      ~ (eps < toCall /\ ~ pot + toCall == 0 /\
         toCall / (pot + toCall) + margin < equity))) \/
    (out = filter (fun x => negb (action_eqb x FOLD)) legal /\
     eps < toCall /\ ~ pot + toCall == 0 /\
     toCall / (pot + toCall) + margin < equity)).
  { subst out. unfold Engine.removeDominatedFold.
    destruct (includes_action legal FOLD) eqn:Hf; cbn [negb].
    - case_qle toCall eps; [left; split; [reflexivity | intros _ ?; lra] |].
      destruct (Qeq_bool (pot + toCall) 0) eqn:Hz.
      + apply Qeq_bool_iff in Hz. left. split; [reflexivity | tauto].
      + cbv zeta.
        case_qle equity (toCall / (pot + toCall) + margin).
        * left. split; [reflexivity | intros _ ?; lra].
        * right. split; [reflexivity |]. split; [assumption |].
          split; [| assumption].
          intros Hq. apply Qeq_bool_iff in Hq. congruence.
    - left. split; [reflexivity |]. intros Hin.
      apply includes_action_In in Hin. congruence. }
  split; [| split; [| split]].
  - intros a Ha. destruct Hshape as [[-> _] | [-> _]]; [tauto |].
    rewrite In_filter_not_fold. tauto.
  - destruct Hshape as [[-> _] | [-> _]]; [tauto |].
    rewrite In_filter_not_fold. tauto.
  - intros Hin. destruct Hshape as [[-> Hno] | [-> Hyes]].
    + specialize (Hno Hin). tauto.
    + rewrite In_filter_not_fold. tauto.
  - intros Hterm Hempty.
    assert (Hex : exists a, a <> FOLD /\ In a (Engine.legalActions cfg s)).
    { unfold Engine.legalActions, ActionModel.legalActions.
      rewrite Hterm. cbv zeta.
      destruct (Qle_bool _ eps).
      - exists CHECK. split; [discriminate | now left].
      - exists CALL. split; [discriminate | right; now left]. }
    destruct Hex as (a & Ha & Hin).
    unfold Engine.removeDominatedFold in Hempty.
    repeat match type of Hempty with
           | (if ?c then _ else _) = _ => destruct c
           end;
      try (rewrite Hempty in Hin; destruct Hin).
    assert (Hin' : In a (filter (fun x => negb (action_eqb x FOLD))
                           (Engine.legalActions cfg s)))
      by (apply In_filter_not_fold; tauto).
    rewrite Hempty in Hin'. destruct Hin'.
Qed.

(** The loop computing [bestEV], from any starting value. *)
Lemma best_ev_fold (evByAct : Action -> option Q) (legal : list Action) :
  forall acc : option Q,
    let step := fun (bestEV : option Q) (a : Action) =>
      match evByAct a, bestEV with
      | Some ev, Some b => if Qlt_bool b ev then Some ev else bestEV
      | Some ev, None => Some ev
      | None, _ => bestEV
      end in
    let r := fold_left step legal acc in
    (r = acc \/ exists a, In a legal /\ evByAct a = r /\ r <> None) /\
    (forall b0, acc = Some b0 -> exists b, r = Some b /\ b0 <= b) /\
    (forall a e, In a legal -> evByAct a = Some e ->
                 exists b, r = Some b /\ e <= b).
Proof.
  induction legal as [| x legal IH]; intros acc step r.
  - subst r. cbn [fold_left]. split; [now left |].
    split.
    + intros b0 ->. exists b0. split; [reflexivity | lra].
    + intros a e [].
  - subst r. cbn [fold_left].
    specialize (IH (step acc x)). cbv zeta in IH. fold step in IH.
    destruct IH as (IH1 & IH2 & IH3).
    set (r := fold_left step legal (step acc x)) in *.
    assert (Hstep :
      (step acc x = acc \/ (evByAct x = step acc x /\ step acc x <> None)) /\
      (forall b0, acc = Some b0 -> exists b, step acc x = Some b /\ b0 <= b) /\
      (forall e, evByAct x = Some e ->
                 exists b, step acc x = Some b /\ e <= b)).
    { subst step. cbv beta.
      destruct (evByAct x) as [ev |], acc as [b |].
      - case_qlt b ev.
        + split; [right; split; [reflexivity | discriminate] |].
          split.
          * intros b0 [= <-]. exists ev. split; [reflexivity | lra].
          * intros e [= <-]. exists ev. split; [reflexivity | lra].
        + split; [now left |]. split.
          * intros b0 [= <-]. exists b. split; [reflexivity | lra].
          * intros e [= <-]. exists b. split; [reflexivity | lra].
      - split; [right; split; [reflexivity | discriminate] |].
        split; [discriminate |].
        intros e [= <-]. exists ev. split; [reflexivity | lra].
      - split; [now left |]. split; [| discriminate].
        intros b0 [= <-]. exists b. split; [reflexivity | lra].
      - split; [now left |]. split; discriminate. }
    destruct Hstep as (S1 & S2 & S3).
    split; [| split].
    + destruct IH1 as [Hr | (a & Ha & Hev & Hn)].
      * destruct S1 as [Hs | [Hs Hn]].
        -- left. congruence.
        -- right. exists x. split; [now left |].
           split; congruence.
      * right. exists a. split; [now right | now split].
    + intros b0 Hacc. destruct (S2 b0 Hacc) as (b1 & Hb1 & Hle1).
      destruct (IH2 b1 Hb1) as (b & Hb & Hle). exists b.
      split; [exact Hb | lra].
    + intros a e [<- | Hin] Hev.
      * destruct (S3 e Hev) as (b1 & Hb1 & Hle1).
        destruct (IH2 b1 Hb1) as (b & Hb & Hle). exists b.
        split; [exact Hb | lra].
      * now apply (IH3 a e).
Qed.

Lemma best_ev_spec (legal : list Action) (evByAct : Action -> option Q) :
  (forall a e, In a legal -> evByAct a = Some e ->
     exists b, Engine.best_ev legal evByAct = Some b /\ e <= b) /\
  (forall b, Engine.best_ev legal evByAct = Some b ->
     exists a, In a legal /\ evByAct a = Some b).
Proof.
  destruct (best_ev_fold evByAct legal None) as (H1 & _ & H3).
  split; [exact H3 |].
  intros b Hb. unfold Engine.best_ev in Hb.
  destruct H1 as [Hnone | (a & Ha & Hev & _)].
  - rewrite Hb in Hnone. discriminate.
  - exists a. split; [exact Ha |]. now rewrite Hev.
Qed.

Lemma In_insert_by_score (a x : Action) (l : list Action) :
  In x (Engine.insert_by_score a l) <-> x = a \/ In x l.
Proof.
  induction l as [| b l IH]; cbn [Engine.insert_by_score].
  - cbn. intuition.
  - destruct (_ <=? _)%Z; cbn [In]; [intuition |].
    rewrite IH. intuition.
Qed.

Lemma In_sort_by_score (x : Action) (l : list Action) :
  In x (Engine.sort_by_score l) <-> In x l.
Proof.
  induction l as [| a l IH]; [reflexivity |].
  cbn [Engine.sort_by_score fold_right].
  fold (Engine.sort_by_score l).
  rewrite In_insert_by_score, IH. cbn. intuition.
Qed.

(** The first element of a sorted array has the least score. *)
Lemma head_sort_by_score (l : list Action) :
  match Engine.sort_by_score l with
  | [] => True
  | h :: _ =>
      forall b, In b (Engine.sort_by_score l) ->
                (Engine.actionAggressionScore h
                 <= Engine.actionAggressionScore b)%Z
  end.
Proof.
  induction l as [| a l IH]; [exact I |].
  cbn [Engine.sort_by_score fold_right].
  fold (Engine.sort_by_score l).
  destruct (Engine.sort_by_score l) as [| h rest];
    cbn [Engine.insert_by_score].
  - intros b [<- | []]. lia.
  - destruct (Z.leb_spec (Engine.actionAggressionScore a)
                (Engine.actionAggressionScore h)) as [Hle | Hgt].
    + intros b [<- | Hb]; [lia |]. specialize (IH b Hb). lia.
    + intros b Hb. cbn [In] in Hb. rewrite In_insert_by_score in Hb.
      destruct Hb as [<- | [-> | Hb]]; [lia | lia |].
      apply IH. now right.
Qed.

(** X8.  [pickActionByEV] returns the least aggressive of the nearly best
    actions: when some legal action has an EV and the tolerance is not
    negative, the action returned is legal, its EV is within the tolerance
    of the EV of every legal action, and no legal action whose EV is
    within the tolerance of the best has a smaller aggression score.  It
    returns [null] exactly on an empty list. *)
Theorem pickActionByEV_least_aggressive (legal : list Action)
  (evByAct : Action -> option Q) (tolerance : Q) (a0 : Action) (e0 : Q) :
  0 <= tolerance ->
  In a0 legal ->
  evByAct a0 = Some e0 ->
  (Engine.pickActionByEV [] evByAct tolerance = None) /\
  exists a e,
    Engine.pickActionByEV legal evByAct tolerance = Some a /\
    In a legal /\ evByAct a = Some e /\
    (forall b eb, In b legal -> evByAct b = Some eb -> eb - e <= tolerance) /\
    (forall b eb, In b legal -> evByAct b = Some eb ->
       (forall c ec, In c legal -> evByAct c = Some ec ->
                     ec - eb <= tolerance) ->
       (Engine.actionAggressionScore a
        <= Engine.actionAggressionScore b)%Z).
Proof.
  intros Htol Hin0 Hev0. split; [reflexivity |].
  destruct (best_ev_spec legal evByAct) as [Hub Hatt].
  destruct (Hub a0 e0 Hin0 Hev0) as (best & Hbest & _).
  destruct (Hatt best Hbest) as (amax & Hamax & Hevmax).
  unfold Engine.pickActionByEV.
  destruct legal as [| first rest]; [destruct Hin0 |].
  set (legal := first :: rest) in *.
  rewrite Hbest. cbv zeta.
  set (nearBest :=
         filter (fun a => Engine.near_best (Some best) (evByAct a) tolerance)
           legal).
  assert (Hnear : forall x, In x nearBest <->
            In x legal /\ exists e, evByAct x = Some e /\ best - e <= tolerance).
  { intros x. subst nearBest.
    rewrite <- !list_elem_of_In, list_elem_of_filter, Is_true_true.
    unfold Engine.near_best. destruct (evByAct x) as [e |].
    - rewrite Qle_bool_iff. split.
      + intros [H1 H2]. split; [exact H2 |]. now exists e.
      + intros [H2 (e' & [= <-] & H1)]. now split.
    - split; [intros [H _]; discriminate |].
      intros [_ (e & He & _)]. discriminate. }
  assert (Hmax_near : In amax nearBest).
  { apply Hnear. split; [exact Hamax |]. exists best.
    split; [exact Hevmax | lra]. }
  pose proof (head_sort_by_score nearBest) as Hhead.
  destruct (Engine.sort_by_score nearBest) as [| a sorted] eqn:Hsort.
  - apply In_sort_by_score in Hmax_near. rewrite Hsort in Hmax_near.
    destruct Hmax_near.
  - assert (Ha : In a nearBest).
    { apply In_sort_by_score. rewrite Hsort. now left. }
    apply Hnear in Ha. destruct Ha as [Hal (e & He & Hclose)].
    exists a, e. split; [reflexivity |].
    split; [exact Hal |]. split; [exact He |]. split.
    + intros b eb Hb Hevb.
      destruct (Hub b eb Hb Hevb) as (best' & Hbest' & Hle).
      rewrite Hbest in Hbest'. injection Hbest' as <-. lra.
    + intros b eb Hb Hevb Hall.
      apply Hhead. rewrite <- Hsort. apply In_sort_by_score.
      apply Hnear. split; [exact Hb |]. exists eb.
      split; [exact Hevb |].
      exact (Hall amax best Hamax Hevmax).
Qed.

Lemma pickActionByEV_least_aggressive_witness :
  0 <= 0.12 /\
  exists a,
    Engine.pickActionByEV [FOLD; CALL; ALL_IN]
      (fun a => match a with
                | FOLD => Some 0
                | CALL => Some 1.05
                | ALL_IN => Some 1.1
                | _ => None
                end) 0.12 = Some a /\
    In a [FOLD; CALL; ALL_IN].
Proof.
  split; [lra |].
  destruct (pickActionByEV_least_aggressive [FOLD; CALL; ALL_IN]
              (fun a => match a with
                        | FOLD => Some 0
                        | CALL => Some 1.05
                        | ALL_IN => Some 1.1
                        | _ => None
                        end) 0.12 FOLD 0
              ltac:(lra) (or_introl eq_refl) eq_refl)
    as (_ & a & e & Hpick & Hin & _).
  exists a. split; [exact Hpick | exact Hin].
Defined.

(** X9.  The conservative override only ever steps down to a legal
    action.  Its result is the chosen action or one of CALL, CHECK,
    BET_HALF, RAISE_HALF taken from [legal]; a chosen action other than
    FOLD and CHECK is never replaced by a more aggressive one; and off
    paired boards a chosen FOLD, CHECK or CALL is returned as it is.
    [null] is returned for [null]. *)
Theorem applyConservativeOverride_steps_down (st : HandState)
  (legal : list Action) (hs : Q) (texture : option Engine.BoardTexture)
  (spr : option Q) (ch : Action) :
  Engine.applyConservativeOverride st legal None hs texture spr = None /\
  exists r,
    Engine.applyConservativeOverride st legal (Some ch) hs texture spr
    = Some r /\
    (r = ch \/ In r legal /\ In r [CALL; CHECK; BET_HALF; RAISE_HALF]) /\
    (ch <> FOLD -> ch <> CHECK ->
     (Engine.actionAggressionScore r <= Engine.actionAggressionScore ch)%Z) /\
    (Engine.tex_flag Engine.paired texture = false ->
     In ch [FOLD; CHECK; CALL] -> r = ch).
Proof.
  split; [reflexivity |].
  unfold Engine.applyConservativeOverride. cbv zeta.
  pose proof (proj1 (includes_action_In legal CALL)) as HC.
  pose proof (proj1 (includes_action_In legal CHECK)) as HK.
  pose proof (proj1 (includes_action_In legal BET_HALF)) as HB.
  pose proof (proj1 (includes_action_In legal RAISE_HALF)) as HR.
  revert HC HK HB HR.
  generalize (includes_action legal CALL) as canCall.
  generalize (includes_action legal CHECK) as canCheck.
  generalize (includes_action legal BET_HALF) as canBetHalf.
  generalize (includes_action legal RAISE_HALF) as canRaiseHalf.
  intros canRaiseHalf canBetHalf canCheck canCall HC HK HB HR.
  generalize (Engine.tex_flag Engine.paired texture) as paired.
  generalize (Engine.tex_flag Engine.dry texture) as dry.
  generalize (Engine.tex_flag Engine.wet texture) as wet.
  repeat match goal with
         | |- context [Qlt_bool ?a ?b] =>
             generalize (Qlt_bool a b); intro
         | |- context [Qle_bool ?a ?b] =>
             generalize (Qle_bool a b); intro
         | |- context [Engine.spr_gt ?a ?b] =>
             generalize (Engine.spr_gt a b); intro
         end.
  intros wet dry paired.
  destruct ch; cbn; unfold andb, orb, negb;
    repeat match goal with
           | |- context [if ?c then _ else _] =>
               is_var c; destruct c; cbn; unfold andb, orb, negb
           end;
    (eexists; split; [reflexivity |]);
    (split; [| split]);
    try (intros; cbn [Engine.actionAggressionScore]; lia);
    try (intros; congruence);
    try (now left);
    try (right; split; [auto | cbn; tauto]);
    try (intros _ Hin; cbn in Hin; intuition congruence).
Qed.

(** ** Range beliefs *)

(** How an update moves the strong and the weak share of a normalized
    belief. *)
Lemma shift_moves_shares (b : Engine.Belief) (a : Action) (tc : Q) :
  normalized b ->
  let nb := clamp_rescale_spec (Engine.shiftBelief b a tc) in
  (Engine.isAggressive a = true ->
   Engine.strong b <= Engine.strong nb /\ Engine.weak nb <= Engine.weak b) /\
  (Engine.isAggressive a = false -> Engine.strong nb <= Engine.strong b).
Proof.
  intros (Hw & Hm & Hs & Hsum) nb. subst nb.
  destruct b as [w m s]. cbn [Engine.weak Engine.medium Engine.strong] in *.
  unfold clamp_rescale_spec, Engine.shiftBelief.
  destruct (Qlt_bool eps tc), a;
    cbn [Engine.isAggressive Engine.weak Engine.medium Engine.strong];
    (split; [intros Hagg; try discriminate Hagg
            | intros Hagg; try discriminate Hagg]);
    split_minmax;
    repeat match goal with
           | |- _ /\ _ => split
           | |- _ <= _ / _ => apply Qle_shift_div_l; [lra |]
           | |- _ / _ <= _ => apply Qle_shift_div_r; [lra |]
           end;
    nra.
Qed.

(** The belief [updateRangeBeliefFromAction] stores for [seat]. *)
Lemma updateRangeBelief_stored (sess : Engine.Session) (seat : Seat)
  (a : Action) (tc : Q) :
  exists before,
    Engine.rangeBeliefs (Engine.ensureRangeBeliefs sess)
      !! Engine.seat_nat seat = Some before /\
    normalized before /\
    Engine.rangeBeliefs (Engine.updateRangeBeliefFromAction sess seat a tc)
      !! Engine.seat_nat seat
    = Some (clamp_rescale_spec (Engine.shiftBelief before a tc)).
Proof.
  unfold Engine.updateRangeBeliefFromAction. cbv zeta.
  destruct (ensureRangeBeliefs_shape sess) as (b0 & b1 & rest & Hshape & N0 & N1).
  rewrite Hshape.
  assert (Hnew : forall b, normalized b ->
            Engine.normalizeRangeBelief (Engine.shiftBelief b a tc)
            = clamp_rescale_spec (Engine.shiftBelief b a tc)).
  { intros b (_ & _ & _ & Hsum).
    apply normalize_is_clamp_rescale.
    rewrite (shiftBelief_sum b a tc). exact Hsum. }
  destruct seat.
  - exists b0. split; [reflexivity |]. split; [exact N0 |].
    change ((b0 :: b1 :: rest) !! Engine.seat_nat Seat0) with (Some b0).
    cbv iota beta. rewrite (Hnew b0 N0). reflexivity.
  - exists b1. split; [reflexivity |]. split; [exact N1 |].
    change ((b0 :: b1 :: rest) !! Engine.seat_nat Seat1) with (Some b1).
    cbv iota beta. rewrite (Hnew b1 N1). reflexivity.
Qed.

(** X10.  Aggression reads as strength.  When the belief about a seat is
    updated after a bet, a raise or an all-in, its strong share does not
    decrease and its weak share does not increase; after a fold, a check
    or a call its strong share does not increase. *)
Theorem aggression_raises_strong_share (sess : Engine.Session) (seat : Seat)
  (a : Action) (toCallBefore : Q) :
  exists before after,
    Engine.rangeBeliefs (Engine.ensureRangeBeliefs sess)
      !! Engine.seat_nat seat = Some before /\
    Engine.rangeBeliefs
      (Engine.updateRangeBeliefFromAction sess seat a toCallBefore)
      !! Engine.seat_nat seat = Some after /\
    (In a [BET_HALF; BET_POT; RAISE_HALF; RAISE_POT; ALL_IN] ->
     Engine.strong before <= Engine.strong after /\
     Engine.weak after <= Engine.weak before) /\
    (In a [FOLD; CHECK; CALL] ->
     Engine.strong after <= Engine.strong before).
Proof.
  destruct (updateRangeBelief_stored sess seat a toCallBefore)
    as (before & Hb & Hn & Ha).
  exists before, (clamp_rescale_spec (Engine.shiftBelief before a toCallBefore)).
  split; [exact Hb |]. split; [exact Ha |].
  destruct (shift_moves_shares before a toCallBefore Hn) as [Hagg Hpas].
  split; intros Hin.
  - apply Hagg. cbn in Hin.
    destruct Hin as [<- | [<- | [<- | [<- | [<- | []]]]]]; reflexivity.
  - apply Hpas. cbn in Hin.
    destruct Hin as [<- | [<- | [<- | []]]]; reflexivity.
Qed.

(** ** The prior of the realtime solver *)

(** X11.  [toLegalPrior] always yields a probability vector over the legal
    actions: for a non-empty [legal], whatever the prior array (missing,
    too short, with negative entries), the result has one entry per legal
    action, no entry is negative and they add up to 1; without a prior
    every entry is [1 / legal.length]. *)
Theorem toLegalPrior_total (legal : list Action)
  (priorProbs : option (list Q)) :
  legal <> [] ->
  let p := Engine.toLegalPrior legal priorProbs in
  length p = length legal /\
  Forall (fun x => 0 <= x) p /\
  Engine.sumQ p == 1 /\
  Forall (fun x => x == 1 / inject_Z (Z.of_nat (length legal)))
         (Engine.toLegalPrior legal None).
Proof.
  intros Hne p.
  destruct (toLegalPrior_distribution legal priorProbs Hne) as [Hlen [Hnn Hsum]].
  split; [exact Hlen |]. split; [exact Hnn |]. split; [exact Hsum |].
  unfold Engine.toLegalPrior. cbv zeta.
  set (arr := map (fun a => Math_max 0 (Engine.prior_at None a)) legal).
  assert (Hzero : Engine.sumQ arr == 0).
  { subst arr. unfold Engine.prior_at.
    change (Math_max 0 0) with 0.
    rewrite (sumQ_map_const legal 0). ring. }
  assert (Hle : Qle_bool (Engine.sumQ arr) Engine.tiny = true).
  { apply Qle_bool_iff. rewrite Hzero. pose proof tiny_pos. lra. }
  rewrite Hle.
  set (n := inject_Z (Z.of_nat (length legal))).
  assert (Hn : 1 <= n).
  { subst n. change 1 with (inject_Z 1). rewrite <- Zle_Qle.
    destruct legal; [contradiction | cbn [length]; lia]. }
  assert (Hmax : Math_max 1 n = n).
  { unfold Math_max. apply Qle_bool_iff in Hn. now rewrite Hn. }
  rewrite Hmax.
  apply List.Forall_forall. intros x Hin.
  apply in_map_iff in Hin. destruct Hin as (a & <- & _). reflexivity.
Qed.

Lemma toLegalPrior_total_witness :
  [FOLD; CALL; ALL_IN] <> [] /\
  Engine.sumQ
    (Engine.toLegalPrior [FOLD; CALL; ALL_IN]
       (Some [0.5; 0; -1; 0; 0; 0; 0])) == 1.
Proof.
  split; [discriminate |].
  exact (proj1 (proj2 (proj2
    (toLegalPrior_total [FOLD; CALL; ALL_IN] (Some [0.5; 0; -1; 0; 0; 0; 0])
       ltac:(discriminate))))).
Defined.

(** ** The equity estimator against a known hand *)

Section KnownShowdown.

Variable evalHand : list (option card) -> Z.

(** With five board cards and a known opponent hand a trial draws nothing
    and compares the same two hands. *)
Lemma one_trial_known (heroHand board oppHand avail : list card)
  (tl : Engine.Tally) (g : Rng) :
  (5 <= length board)%nat ->
  let h := evalHand (map Some heroHand ++ map Some board) in
  let o := evalHand (map Some oppHand ++ map Some board) in
  Engine.one_trial evalHand heroHand board (Some oppHand) avail tl g
  = (Engine.mkTally
       (Engine.t_wins tl + (if (o <? h)%Z then 1 else 0))
       (Engine.t_ties tl + (if (o <? h)%Z then 0
                            else if (h =? o)%Z then 1 else 0))
       (Engine.t_total tl + 1), g).
Proof using Type.
  intros Hlen h o. unfold Engine.one_trial.
  replace (5 - length board)%nat with 0%nat by lia.
  cbn [Engine.fill_board]. fold h. fold o.
  destruct tl as [w t n]. cbn [Engine.t_wins Engine.t_ties Engine.t_total].
  destruct (o <? h)%Z; [| destruct (h =? o)%Z];
    cbn [Engine.t_wins Engine.t_ties Engine.t_total];
    rewrite ?Z.add_0_r; reflexivity.
Qed.

Lemma trial_loop_known (heroHand board oppHand avail : list card) (g : Rng)
  (trials : nat) :
  (5 <= length board)%nat ->
  forall tl,
  let h := evalHand (map Some heroHand ++ map Some board) in
  let o := evalHand (map Some oppHand ++ map Some board) in
  Engine.trial_loop evalHand trials heroHand board (Some oppHand) avail tl g
  = (Engine.mkTally
       (Engine.t_wins tl + (if (o <? h)%Z then Z.of_nat trials else 0))
       (Engine.t_ties tl + (if (o <? h)%Z then 0
                            else if (h =? o)%Z then Z.of_nat trials else 0))
       (Engine.t_total tl + Z.of_nat trials), g).
Proof using Type.
  intros Hlen. induction trials as [| n IH]; intros tl h o.
  - cbn [Engine.trial_loop]. destruct tl as [w t k].
    cbn [Engine.t_wins Engine.t_ties Engine.t_total].
    destruct (o <? h)%Z; [| destruct (h =? o)%Z];
      rewrite ?Z.add_0_r; reflexivity.
  - cbn [Engine.trial_loop].
    rewrite (one_trial_known heroHand board oppHand avail tl g Hlen).
    rewrite IH. fold h. fold o.
    cbn [Engine.t_wins Engine.t_ties Engine.t_total].
    rewrite Nat2Z.inj_succ.
    destruct (o <? h)%Z; [| destruct (h =? o)%Z]; f_equal; f_equal; lia.
Qed.

(** X12.  On a complete board against a known hand the estimate is the
    showdown itself: with five board cards and the opponent hand given,
    [evalStrength] consumes no randomness and returns equity 1 if the hero
    hand evaluates higher, 1/2 if both evaluate the same and 0 otherwise,
    over the number of trials asked for. *)
Theorem evalStrength_known_showdown (heroHand board oppHand : list card)
  (N : nat) (g : Rng) :
  length heroHand = 2%nat ->
  (5 <= length board)%nat ->
  (1 <= N)%nat ->
  let res := Engine.evalStrength evalHand heroHand board (Some oppHand) N g in
  let h := evalHand (map Some heroHand ++ map Some board) in
  let o := evalHand (map Some oppHand ++ map Some board) in
  snd res = g /\
  Engine.samples_res (fst res) = Z.of_nat N /\
  Engine.eq_res (fst res)
  == (if (o <? h)%Z then 1 else if (h =? o)%Z then 1 # 2 else 0).
Proof using Type.
  intros Hhero Hboard HN res h o. subst res.
  unfold Engine.evalStrength. cbv zeta.
  rewrite Hhero. cbn [Nat.eqb negb].
  rewrite (trial_loop_known heroHand board oppHand _ g N Hboard).
  fold h. fold o.
  cbn [Engine.t_wins Engine.t_ties Engine.t_total fst snd
       Engine.eq_res Engine.samples_res].
  rewrite !Z.add_0_l.
  split; [reflexivity |]. split; [reflexivity |].
  assert (Hn : 0 < inject_Z (Z.of_nat N)).
  { change 0 with (inject_Z 0). rewrite <- Zlt_Qlt. lia. }
  destruct (Z.eqb_spec (Z.of_nat N) 0) as [H0 | _]; [lia |].
  destruct (o <? h)%Z; [| destruct (h =? o)%Z];
    change (inject_Z 0) with 0;
    revert Hn; generalize (inject_Z (Z.of_nat N)) as n; intros n Hn;
    field; lra.
Qed.

End KnownShowdown.

Lemma evalStrength_known_showdown_witness :
  length ["As"; "Ks"]%string = 2%nat /\
  (5 <= length ["2c"; "7d"; "9h"; "Jc"; "3s"]%string)%nat /\
  (1 <= 3)%nat /\
  Engine.eq_res
    (fst (Engine.evalStrength count_evaluator ["As"; "Ks"]%string
            ["2c"; "7d"; "9h"; "Jc"; "3s"]%string
            (Some ["Qd"; "Jd"]%string) 3 zero_rng)) == 1 # 2.
Proof.
  split; [reflexivity |]. split; [cbn; lia |]. split; [lia |].
  exact (proj2 (proj2
    (evalStrength_known_showdown count_evaluator ["As"; "Ks"]%string
       ["2c"; "7d"; "9h"; "Jc"; "3s"]%string ["Qd"; "Jd"]%string 3 zero_rng
       eq_refl ltac:(cbn; lia) ltac:(lia)))).
Defined.

(** ** Strength bands and the two infoset keyers *)

(** The band of a finite strength after the two clamps. *)
Lemma band_of_finite (x : Q) :
  js_max (JFin 0)
    (js_min (JFin 9)
       (js_floor
          (js_scale (js_max (JFin 0) (js_min (JFin 0.999999) (JFin x))) 10)))
  = JFin (inject_Z (Z.max 0 (Z.min 9 (Qfloor (x * 10))))).
Proof.
  cbn [js_max js_min js_floor js_scale].
  set (c := Math_max 0 (Math_min 0.999999 x)).
  assert (Hf : Qfloor (c * 10) = Z.max 0 (Z.min 9 (Qfloor (x * 10)))).
  { subst c. case_min 0.999999 x.
    - replace (Math_max 0 0.999999) with 0.999999 by reflexivity.
      assert (H9 : (9 <= Qfloor (x * 10))%Z).
      { change 9%Z with (Qfloor 9.99999). apply Qfloor_resp_le. lra. }
      change (Qfloor (0.999999 * 10)) with 9%Z. lia.
    - case_max 0 x.
      + assert (H0 : (0 <= Qfloor (x * 10))%Z).
        { change 0%Z with (Qfloor 0). apply Qfloor_resp_le. lra. }
        assert (H9 : (Qfloor (x * 10) <= 9)%Z).
        { change 9%Z with (Qfloor 9.99999). apply Qfloor_resp_le. lra. }
        lia.
      + assert (H0 : (Qfloor (x * 10) <= 0)%Z).
        { change 0%Z with (Qfloor 0). apply Qfloor_resp_le. lra. }
        change (Qfloor (0 * 10)) with 0%Z. lia. }
  rewrite Hf.
  set (k := Z.max 0 (Z.min 9 (Qfloor (x * 10)))).
  assert (Hk : (0 <= k <= 9)%Z) by (subst k; lia).
  clearbody k. clear Hf c.
  unfold Math_min, Math_max.
  destruct (Qle_bool 9 (inject_Z k)) eqn:E9.
  - apply Qle_bool_iff in E9. change 9 with (inject_Z 9) in E9.
    rewrite <- Zle_Qle in E9.
    assert (k = 9%Z) by lia. subst k. reflexivity.
  - destruct (Qle_bool 0 (inject_Z k)) eqn:E0; [reflexivity |].
    apply Qle_bool_false in E0. change 0 with (inject_Z 0) in E0.
    rewrite <- Zlt_Qlt in E0. lia.
Qed.

Lemma hsBand_finite (x : Q) :
  InfosetV1.hsBand (JFin x)
  = JFin (inject_Z (Z.max 0 (Z.min 9 (Qfloor (x * 10))))).
Proof.
  unfold InfosetV1.hsBand. cbv zeta. cbn [or_zero].
  destruct (Qeq_bool x 0) eqn:E.
  - apply Qeq_bool_iff in E. rewrite band_of_finite.
    assert (Hx : x * 10 == 0 * 10) by (rewrite E; reflexivity).
    now rewrite (Qfloor_comp _ _ Hx).
  - apply band_of_finite.
Qed.

Lemma hsBandFromValue_not_NaN (hs : JsNum) :
  hs <> JNaN -> BlueprintV1.hsBandFromValue hs = InfosetV1.hsBand hs.
Proof.
  intros Hnan. destruct hs as [| | | x]; try reflexivity.
  - contradiction.
  - rewrite hsBand_finite. apply band_of_finite.
Qed.

(** X13.  The strength band is the decile: for a finite [hs] both
    [hsBand] of infoset_v1 and [hsBandFromValue] of blueprint_v1 return
    [floor(10 * hs)] cut to 0..9, so the band never decreases when [hs]
    grows; [Infinity] gives 9 and [-Infinity] gives 0 in both.  On [NaN]
    they differ: [hsBand] gives 0, [hsBandFromValue] gives [NaN]. *)
Theorem hsBand_is_decile (x y : Q) :
  InfosetV1.hsBand (JFin x)
  = JFin (inject_Z (Z.max 0 (Z.min 9 (Qfloor (x * 10))))) /\
  BlueprintV1.hsBandFromValue (JFin x) = InfosetV1.hsBand (JFin x) /\
  (x <= y ->
   (Z.max 0 (Z.min 9 (Qfloor (x * 10)))
    <= Z.max 0 (Z.min 9 (Qfloor (y * 10))))%Z) /\
  InfosetV1.hsBand JPosInf = JFin 9 /\
  BlueprintV1.hsBandFromValue JPosInf = JFin 9 /\
  InfosetV1.hsBand JNegInf = JFin 0 /\
  BlueprintV1.hsBandFromValue JNegInf = JFin 0 /\
  InfosetV1.hsBand JNaN = JFin 0 /\
  BlueprintV1.hsBandFromValue JNaN = JNaN.
Proof.
  split; [apply hsBand_finite |].
  split; [apply hsBandFromValue_not_NaN; discriminate |].
  split.
  - intros Hxy.
    assert (H : (Qfloor (x * 10) <= Qfloor (y * 10))%Z)
      by (apply Qfloor_resp_le; lra).
    lia.
  - repeat split; reflexivity.
Qed.

Lemma append_inv_head (a b c : string) : a +:+ b = a +:+ c -> b = c.
Proof.
  induction a as [| x a IH]; [trivial |].
  change (String x a +:+ b) with (String x (a +:+ b)).
  change (String x a +:+ c) with (String x (a +:+ c)).
  intros [= H]. now apply IH.
Qed.

(** X14.  The two keyers agree on heads-up keys.  For a state whose street
    name is set, a raise count of at most 99 and a strength that is not
    [NaN], [buildBlueprintV1InfosetKey] with two seats returns the key
    [buildInfosetKey] returns for the same SPR and the same four texture
    flags.  On [NaN] the keys differ: blueprint_v1 writes the band [NaN],
    infoset_v1 the band 0. *)
Theorem keyers_agree_heads_up (s : HandState) (player : Seat) (hs spr : JsNum)
  (t : Engine.BoardTexture) (c : ascii) (name : string) :
  street s = Some (String c name) ->
  (raises s <= 99)%Z ->
  let tex4 := InfosetV1.mkTexture (Engine.paired t) (Engine.twoTone t)
                (Engine.monotone t) (Engine.connected t) in
  (hs <> JNaN ->
   BlueprintV1.buildBlueprintV1InfosetKey s player hs spr (Some t) 2
   = InfosetV1.buildInfosetKey s player hs (Some spr) (Some tex4)) /\
  BlueprintV1.buildBlueprintV1InfosetKey s player JNaN spr (Some t) 2
  <> InfosetV1.buildInfosetKey s player JNaN (Some spr) (Some tex4).
Proof.
  intros Hstreet Hraises tex4.
  unfold BlueprintV1.buildBlueprintV1InfosetKey, InfosetV1.buildInfosetKey.
  cbv zeta.
  unfold InfosetV1.resolveStreet. rewrite Hstreet.
  cbn [default].
  replace (Z.max 0 (Z.min 99 (raises s))) with (Z.max 0 (raises s)) by lia.
  change (BlueprintV1.positionLabel 2 player)
    with (InfosetV1.positionLabelHU player).
  change (BlueprintV1.textureBits (Some t)) with (InfosetV1.textureBits tex4).
  change (BlueprintV1.sprBandFromValue spr) with (InfosetV1.sprBand spr).
  split.
  - intros Hnan. rewrite (hsBandFromValue_not_NaN hs Hnan). reflexivity.
  - change (BlueprintV1.hsBandFromValue JNaN) with JNaN.
    change (InfosetV1.hsBand JNaN) with (JFin 0).
    cbn [js_to_string].
    change (Qeq_bool 0 (inject_Z (Qfloor 0))) with true. cbv iota.
    change (string_of_Z (Qfloor 0)) with "0"%string.
    intros Heq. injection Heq as Heq.
    repeat (apply append_inv_head in Heq).
    discriminate Heq.
Qed.

Lemma keyers_agree_heads_up_witness :
  street (Engine.state flop_hand) = Some "flop"%string /\
  (raises (Engine.state flop_hand) <= 99)%Z /\
  BlueprintV1.buildBlueprintV1InfosetKey (Engine.state flop_hand) Seat0
    (JFin 0.55) (JFin 3)
    (Some (Engine.mkBoardTexture false false true true true false)) 2
  = InfosetV1.buildInfosetKey (Engine.state flop_hand) Seat0 (JFin 0.55)
      (Some (JFin 3)) (Some (InfosetV1.mkTexture false true false true)).
Proof.
  split; [reflexivity |]. split; [vm_compute; discriminate |].
  refine (proj1
    (keyers_agree_heads_up (Engine.state flop_hand) Seat0 (JFin 0.55) (JFin 3)
       (Engine.mkBoardTexture false false true true true false)
       "f"%char "lop"%string eq_refl _) _).
  - vm_compute. discriminate.
  - discriminate.
Defined.

(** ** The two board textures *)

Lemma length_remove_dups_le {T : Type} `{EqDecision T} (l : list T) :
  (length (remove_dups l) <= length l)%nat.
Proof.
  induction l as [| x l IH]; [reflexivity |].
  cbn [remove_dups]. destruct (decide_rel elem_of x l); cbn [length]; lia.
Qed.

Lemma length_remove_dups_eq {T : Type} `{EqDecision T} (l : list T) :
  length (remove_dups l) = length l <-> NoDup l.
Proof.
  induction l as [| x l IH].
  - split; [constructor | reflexivity].
  - cbn [remove_dups]. pose proof (length_remove_dups_le l) as Hle.
    destruct (decide_rel elem_of x l) as [Hin | Hnin]; cbn [length].
    + split; [lia |]. intros Hnd. apply NoDup_cons in Hnd. tauto.
    + rewrite NoDup_cons. split.
      * intros Hlen. split; [exact Hnin |]. apply IH. lia.
      * intros [_ Hnd]. apply IH in Hnd. lia.
Qed.

(** The loop of [isPaired] finds no repeated rank exactly when the ranks
    are distinct and none was seen before. *)
Lemma isPaired_from_false (seen : list (option ascii)) (board : list card) :
  InfosetV1.isPaired_from seen board = false <->
  NoDup (map (String.get 0) board) /\
  (forall r, r ∈ map (String.get 0) board -> r ∉ seen).
Proof.
  revert seen. induction board as [| c rest IH]; intros seen.
  - cbn. split; [intros _ | reflexivity].
    split; [constructor | intros r Hr; inversion Hr].
  - cbn [InfosetV1.isPaired_from map].
    destruct (bool_decide_reflect (String.get 0 c ∈ seen)) as [Hin | Hnin].
    + split; [discriminate |]. intros [_ Hall].
      exfalso. apply (Hall (String.get 0 c)); [now left | exact Hin].
    + rewrite IH, NoDup_cons. split.
      * intros [Hnd Hall]. split; [split; [| exact Hnd] |].
        -- intros Hr. apply (Hall _ Hr). now left.
        -- intros r Hr Hs. apply elem_of_cons in Hr.
           destruct Hr as [-> | Hr]; [contradiction |].
           apply (Hall r Hr). now right.
      * intros [[Hc Hnd] Hall]. split; [exact Hnd |].
        intros r Hr Hs. apply elem_of_cons in Hs.
        destruct Hs as [-> | Hs]; [contradiction |].
        apply (Hall r); [now right | exact Hs].
Qed.

Lemma isPaired_agree (board : list card) :
  BlueprintV1.isPaired board = InfosetV1.isPaired board.
Proof.
  unfold BlueprintV1.isPaired, BlueprintV1.boardRanksArray, InfosetV1.isPaired.
  cbv zeta.
  set (rr := map (String.get 0) board).
  pose proof (length_remove_dups_le rr) as Hle.
  pose proof (length_remove_dups_eq rr) as Heq.
  pose proof (isPaired_from_false [] board) as Hfalse. fold rr in Hfalse.
  destruct (InfosetV1.isPaired_from [] board).
  - apply Nat.ltb_lt.
    destruct (Nat.eq_dec (length (remove_dups rr)) (length rr)) as [E | E];
      [| lia].
    apply Heq in E.
    assert (true = false); [| discriminate].
    apply Hfalse. split; [exact E |]. intros r _ Hr. inversion Hr.
  - apply Nat.ltb_ge.
    assert (Hnd : NoDup rr) by (apply Hfalse; reflexivity).
    apply Heq in Hnd. lia.
Qed.

(** X15.  The two texture implementations agree: [boardTexture] of
    blueprint_v1, which counts ranks and suits with a set and an object,
    returns on every board the flags of [boardTexture] of the server,
    which goes through [texture] of infoset_v1.  A dry board is neither
    wet nor paired, and a board of fewer than three cards is never wet. *)
Theorem boardTexture_agree (board : list card) :
  BlueprintV1.boardTexture board = Engine.boardTexture board /\
  (Engine.dry (Engine.boardTexture board) = true ->
   Engine.wet (Engine.boardTexture board) = false /\
   Engine.paired (Engine.boardTexture board) = false) /\
  ((length board < 3)%nat -> Engine.wet (Engine.boardTexture board) = false).
Proof.
  split; [| split].
  - unfold BlueprintV1.boardTexture, Engine.boardTexture, InfosetV1.texture.
    cbv zeta. cbn [InfosetV1.paired InfosetV1.monotone InfosetV1.connected
                   InfosetV1.twoTone].
    rewrite isPaired_agree.
    change (BlueprintV1.isMonotone board) with (InfosetV1.isMonotone board).
    change (BlueprintV1.isConnected board) with (InfosetV1.isConnected board).
    assert (Htt : (3 <=? length board)%nat
                  && Nat.eqb (length (BlueprintV1.boardSuitCounts_keys board)) 2
                  = InfosetV1.isTwoTone board).
    { unfold InfosetV1.isTwoTone.
      change (length (BlueprintV1.boardSuitCounts_keys board))
        with (InfosetV1.suitCounts_size board).
      destruct (Nat.ltb_spec (length board) 3) as [Hlt | Hge].
      - apply andb_false_iff. left. apply Nat.leb_gt. exact Hlt.
      - apply Nat.leb_le in Hge. rewrite Hge. reflexivity. }
    rewrite Htt. reflexivity.
  - unfold Engine.boardTexture. cbv zeta.
    cbn [Engine.dry Engine.wet Engine.paired].
    intros Hdry. apply andb_true_iff in Hdry. destruct Hdry as [Hw Hp].
    apply negb_true_iff in Hw. apply negb_true_iff in Hp. now split.
  - intros Hlt. unfold Engine.boardTexture, InfosetV1.texture. cbv zeta.
    cbn [Engine.wet InfosetV1.paired InfosetV1.monotone InfosetV1.connected
         InfosetV1.twoTone].
    unfold InfosetV1.isMonotone, InfosetV1.isTwoTone, InfosetV1.isConnected.
    apply Nat.ltb_lt in Hlt. rewrite Hlt. reflexivity.
Qed.

(** ** Sampling and strategies of the trainer *)

(** X16.  The generator of the trainer stays in range: [makeRng] never
    starts from state 0, every call of [rand] returns a number in [0, 1)
    and a state in [0, 2^32), and [randInt(rand, n)] is an index below
    [n]. *)
Theorem trainer_rng_in_range (initial s : Z) (n : nat) :
  (1 <= Trainer.makeRng initial < 4294967296)%Z /\
  0 <= fst (Trainer.rand s) /\ fst (Trainer.rand s) < 1 /\
  (0 <= snd (Trainer.rand s) < 4294967296)%Z /\
  ((0 < n)%nat -> (fst (Trainer.randInt s n) < n)%nat).
Proof.
  split.
  - unfold Trainer.makeRng. cbv zeta.
    pose proof (Z.mod_pos_bound initial 4294967296 ltac:(lia)) as Hm.
    destruct (Z.eqb_spec (initial mod 4294967296) 0); lia.
  - pose proof (rand_range s) as [H0 H1].
    split; [exact H0 |]. split; [exact H1 |]. split.
    + unfold Trainer.rand. cbn [snd]. apply Z.mod_pos_bound. lia.
    + apply randInt_lt.
Qed.

Lemma fold_weight_acc (weights : list Q) (legal : list Action) :
  forall acc,
    fold_left (fun acc a => acc + Trainer.weight_at weights a) legal acc
    == acc + fold_left (fun acc a => acc + Trainer.weight_at weights a)
               legal 0.
Proof.
  induction legal as [| a legal IH]; intros acc; cbn [fold_left]; [ring |].
  rewrite IH. rewrite (IH (0 + _)). ring.
Qed.

(** The loop of [sampleActionByWeights] stops at a legal action, whose
    weight is positive when [r] is; it runs to the end only if [r] exceeds
    the total weight. *)
Lemma pick_by_weight_spec (weights : list Q) (legal : list Action) :
  forall r,
    match Trainer.pick_by_weight legal weights r with
    | Some a => In a legal /\ (0 < r -> 0 < Trainer.weight_at weights a)
    | None =>
        legal <> [] ->
        fold_left (fun acc a => acc + Trainer.weight_at weights a) legal 0 < r
    end.
Proof.
  induction legal as [| a legal IH]; intros r; cbn [Trainer.pick_by_weight].
  - intros H. contradiction.
  - case_qle (r - Trainer.weight_at weights a) 0.
    + split; [now left | intros Hr; lra].
    + specialize (IH (r - Trainer.weight_at weights a)).
      destruct (Trainer.pick_by_weight legal weights
                  (r - Trainer.weight_at weights a)) as [b |].
      * destruct IH as [Hin Hpos]. split; [now right |].
        intros _. apply Hpos. lra.
      * intros _. cbn [fold_left]. rewrite fold_weight_acc.
        destruct legal as [| b legal]; [cbn [fold_left]; lra |].
        specialize (IH ltac:(discriminate)). lra.
Qed.

(** X17.  Sampling never leaves the legal set: on a non-empty [legal],
    whatever the weights (missing, negative, all zero) and the generator
    state, [sampleActionByWeights] returns a member of [legal]; when the
    total weight exceeds [1e-12] and the number drawn is positive, the
    action returned has a positive weight. *)
Theorem sampleActionByWeights_legal (legal : list Action) (weights : list Q)
  (s : Z) :
  legal <> [] ->
  let total :=
    fold_left (fun acc a => acc + Trainer.weight_at weights a) legal 0 in
  exists a,
    fst (Trainer.sampleActionByWeights legal weights s) = Some a /\
    In a legal /\
    (Engine.tiny < total -> 0 < fst (Trainer.rand s) ->
     0 < Trainer.weight_at weights a).
Proof.
  intros Hne total. unfold Trainer.sampleActionByWeights. cbv zeta.
  fold total.
  case_qle total Engine.tiny.
  - pose proof (randInt_lt s (length legal)) as Hlt.
    destruct (Trainer.randInt s (length legal)) as [i s'].
    cbn [fst] in *.
    assert (Hi : (i < length legal)%nat).
    { apply Hlt. destruct legal; [contradiction | cbn [length]; lia]. }
    destruct (lookup_lt_is_Some_2 legal i Hi) as [a Ha].
    exists a. rewrite Ha. split; [reflexivity |].
    split; [| intros; lra].
    apply list_elem_of_In. eapply list_elem_of_lookup_2. exact Ha.
  - pose proof (rand_range s) as [Hr0 Hr1].
    destruct (Trainer.rand s) as [r0 s']. cbn [fst] in *.
    pose proof tiny_pos as Htiny.
    pose proof (pick_by_weight_spec weights legal (r0 * total)) as Hpick.
    destruct (Trainer.pick_by_weight legal weights (r0 * total)) as [a |].
    + destruct Hpick as [Hin Hpos]. exists a.
      split; [reflexivity |]. split; [exact Hin |].
      intros _ Hr. apply Hpos. nra.
    + specialize (Hpick Hne). fold total in Hpick. nra.
Qed.

Lemma sampleActionByWeights_legal_witness :
  [FOLD; CALL] <> [] /\
  exists a,
    fst (Trainer.sampleActionByWeights [FOLD; CALL]
           [0.25; 0; 0.75; 0; 0; 0; 0; 0] (Trainer.makeRng 1337)) = Some a /\
    In a [FOLD; CALL].
Proof.
  split; [discriminate |].
  destruct (sampleActionByWeights_legal [FOLD; CALL]
              [0.25; 0; 0.75; 0; 0; 0; 0; 0] (Trainer.makeRng 1337)
              ltac:(discriminate)) as (a & Ha & Hin & _).
  exists a. split; [exact Ha | exact Hin].
Defined.

(** ** Strategies over the legal actions *)

Lemma at8_replicate (a : Action) : Trainer.at8 (replicate 8 0) a = 0.
Proof. destruct a; reflexivity. Qed.

(** A loop [for (const a of legal) arr[a] = f(a, arr[a])] over distinct
    actions updates each legal entry once and no other. *)
Lemma fold_set8_length (f : Action -> Q -> Q) (legal : list Action) :
  forall arr,
    length (fold_left (fun w a => Trainer.set8 w a (f a (Trainer.at8 w a)))
              legal arr) = length arr.
Proof.
  induction legal as [| b legal IH]; intros arr; cbn [fold_left];
    [reflexivity |].
  rewrite IH. apply length_set8.
Qed.

Lemma fold_set8_other (f : Action -> Q -> Q) (legal : list Action)
  (a : Action) :
  ~ In a legal ->
  forall arr,
    Trainer.at8
      (fold_left (fun w a => Trainer.set8 w a (f a (Trainer.at8 w a)))
         legal arr) a
    = Trainer.at8 arr a.
Proof.
  induction legal as [| b legal IH]; intros Hnin arr; cbn [fold_left];
    [reflexivity |].
  rewrite IH; [| intros H; apply Hnin; now right].
  apply at8_set8_ne. intros ->. apply Hnin. now left.
Qed.

Lemma fold_set8_legal (f : Action -> Q -> Q) (legal : list Action)
  (a : Action) :
  List.NoDup legal -> In a legal ->
  forall arr, length arr = 8%nat ->
    Trainer.at8
      (fold_left (fun w a => Trainer.set8 w a (f a (Trainer.at8 w a)))
         legal arr) a
    = f a (Trainer.at8 arr a).
Proof.
  intros Hnd. induction Hnd as [| b legal Hnin Hnd IH]; intros Hin arr Hlen;
    [destruct Hin |].
  cbn [fold_left]. destruct Hin as [-> | Hin].
  - rewrite fold_set8_other by exact Hnin. now apply at8_set8_eq.
  - rewrite IH; [| exact Hin | now rewrite length_set8].
    rewrite at8_set8_ne; [reflexivity |].
    intros ->. contradiction.
Qed.

Lemma fold_plus_sumQ {T : Type} (v : T -> Q) (l : list T) :
  forall acc, fold_left (fun acc a => acc + v a) l acc
              == acc + Engine.sumQ (map v l).
Proof.
  induction l as [| x l IH]; intros acc; cbn [fold_left map].
  - rewrite sumQ_nil. ring.
  - rewrite IH, sumQ_cons. ring.
Qed.

Lemma sumQ_map_ext {T : Type} (f g : T -> Q) (l : list T) :
  (forall x, In x l -> f x == g x) ->
  Engine.sumQ (map f l) == Engine.sumQ (map g l).
Proof.
  induction l as [| x l IH]; intros H; cbn [map]; [reflexivity |].
  rewrite !sumQ_cons, (H x (or_introl eq_refl)).
  rewrite IH; [reflexivity |]. intros y Hy. apply H. now right.
Qed.

Lemma sumQ_map_nonneg {T : Type} (f : T -> Q) (l : list T) :
  (forall x, 0 <= f x) -> 0 <= Engine.sumQ (map f l).
Proof.
  intros H. apply sumQ_nonneg. apply List.Forall_forall.
  intros y Hy. apply in_map_iff in Hy. destruct Hy as (x & <- & _). apply H.
Qed.

Lemma length_pos_Q {T : Type} (l : list T) :
  l <> [] ->
  1 <= inject_Z (Z.of_nat (length l)) /\
  Math_max 1 (inject_Z (Z.of_nat (length l))) = inject_Z (Z.of_nat (length l)).
Proof.
  intros Hne.
  assert (Hn : 1 <= inject_Z (Z.of_nat (length l))).
  { change 1 with (inject_Z 1). rewrite <- Zle_Qle.
    destruct l; [contradiction | cbn [length]; lia]. }
  split; [exact Hn |].
  unfold Math_max. apply Qle_bool_iff in Hn. now rewrite Hn.
Qed.

(** The array after normalizing the entries [v a >= 0] of the legal
    actions by their total, or after setting them to [1 / legal.length]:
    a probability vector over [legal]. *)
Lemma normalized_over_legal (legal : list Action) (v : Action -> Q)
  (out : list Q) (total : Q) :
  legal <> [] ->
  (forall a, 0 <= v a) ->
  total == Engine.sumQ (map v legal) ->
  (forall a, In a legal ->
     Trainer.at8 out a
     = if Qle_bool total Engine.tiny
       then 1 / Math_max 1 (inject_Z (Z.of_nat (length legal)))
       else v a / total) ->
  (forall a, In a legal -> 0 <= Trainer.at8 out a) /\
  sum_over legal out == 1.
Proof.
  intros Hne Hv Htotal Hout.
  destruct (length_pos_Q legal Hne) as [Hn Hmax].
  pose proof tiny_pos as Htiny.
  unfold sum_over.
  case_qle total Engine.tiny.
  - rewrite Hmax in Hout. split.
    + intros a Ha. rewrite (Hout a Ha). apply Qdiv_nonneg; lra.
    + rewrite (sumQ_map_ext (Trainer.at8 out)
                 (fun _ => 1 / inject_Z (Z.of_nat (length legal))) legal).
      * rewrite sumQ_map_const. field. lra.
      * intros a Ha. now rewrite (Hout a Ha).
  - split.
    + intros a Ha. rewrite (Hout a Ha). apply Qdiv_nonneg; [apply Hv | lra].
    + rewrite (sumQ_map_ext (Trainer.at8 out) (fun a => v a / total) legal).
      * rewrite <- (map_map v (fun x => x / total)).
        rewrite sumQ_map_div, <- Htotal. field. lra.
      * intros a Ha. now rewrite (Hout a Ha).
Qed.

Lemma currentStrategy_pair (node : Trainer.Node) (legal : list Action) :
  forall strat sum,
    fold_left (fun '(strat, sum) a =>
                 let v := Math_max 0 (Trainer.at8 (Trainer.regrets node) a) in
                 (Trainer.set8 strat a v, sum + v))
              legal (strat, sum)
    = (fold_left (fun w a =>
                    Trainer.set8 w a
                      ((fun a _ =>
                          Math_max 0 (Trainer.at8 (Trainer.regrets node) a))
                         a (Trainer.at8 w a)))
         legal strat,
       fold_left (fun acc a =>
                    acc + Math_max 0 (Trainer.at8 (Trainer.regrets node) a))
         legal sum).
Proof.
  induction legal as [| a legal IH]; intros strat sum; cbn [fold_left];
    [reflexivity |].
  cbv zeta. rewrite IH. reflexivity.
Qed.

(** X18.  Regret matching yields a probability vector over the legal
    actions: for distinct legal actions, at least one, [currentStrategy]
    returns an array of eight entries that is zero off [legal],
    non-negative on it and of total 1; where the node holds no positive
    regret on [legal] every legal action gets [1 / legal.length],
    otherwise each gets its positive regret over their total. *)
Theorem currentStrategy_distribution (node : Trainer.Node)
  (legal : list Action) :
  List.NoDup legal ->
  legal <> [] ->
  let strat := Trainer.currentStrategy node legal in
  let pos := fun a => Math_max 0 (Trainer.at8 (Trainer.regrets node) a) in
  let total := Engine.sumQ (map pos legal) in
  length strat = 8%nat /\
  (forall a, ~ In a legal -> Trainer.at8 strat a = 0) /\
  (forall a, In a legal -> 0 <= Trainer.at8 strat a) /\
  sum_over legal strat == 1 /\
  (forall a, In a legal ->
     Trainer.at8 strat a
     == if Qle_bool total Engine.tiny
        then 1 / inject_Z (Z.of_nat (length legal))
        else pos a / total).
Proof.
  intros Hnd Hne strat pos total.
  subst strat. unfold Trainer.currentStrategy. cbv zeta.
  rewrite currentStrategy_pair. cbv beta iota zeta.
  fold pos.
  set (strat1 := fold_left (fun w a => Trainer.set8 w a (pos a)) legal
                   (replicate 8 0)).
  set (sum := fold_left (fun acc a => acc + pos a) legal 0).
  assert (Hsum : sum == total).
  { subst sum total. rewrite (fold_plus_sumQ pos legal 0). ring. }
  assert (Hlen1 : length strat1 = 8%nat).
  { subst strat1. rewrite (fold_set8_length (fun a _ => pos a)). reflexivity. }
  assert (Hs1_legal : forall a, In a legal -> Trainer.at8 strat1 a = pos a).
  { intros a Ha. subst strat1.
    now rewrite (fold_set8_legal (fun a _ => pos a) legal a Hnd Ha). }
  assert (Hs1_other : forall a, ~ In a legal -> Trainer.at8 strat1 a = 0).
  { intros a Ha. subst strat1.
    rewrite (fold_set8_other (fun a _ => pos a) legal a Ha).
    apply at8_replicate. }
  destruct (length_pos_Q legal Hne) as [Hn Hmax].
  set (u := 1 / Math_max 1 (inject_Z (Z.of_nat (length legal)))).
  set (out := if Qle_bool sum Engine.tiny
              then fold_left (fun w a => Trainer.set8 w a u) legal strat1
              else fold_left
                     (fun w a => Trainer.set8 w a (Trainer.at8 w a / sum))
                     legal strat1).
  assert (Hout_len : length out = 8%nat).
  { subst out. destruct (Qle_bool sum Engine.tiny).
    - now rewrite (fold_set8_length (fun _ _ => u)).
    - now rewrite (fold_set8_length (fun _ x => x / sum)). }
  assert (Hout_other : forall a, ~ In a legal -> Trainer.at8 out a = 0).
  { intros a Ha. subst out. destruct (Qle_bool sum Engine.tiny).
    - rewrite (fold_set8_other (fun _ _ => u) legal a Ha). now apply Hs1_other.
    - rewrite (fold_set8_other (fun _ x => x / sum) legal a Ha).
      now apply Hs1_other. }
  assert (Hout_legal : forall a, In a legal ->
            Trainer.at8 out a
            = if Qle_bool sum Engine.tiny then u else pos a / sum).
  { intros a Ha. subst out. destruct (Qle_bool sum Engine.tiny).
    - now rewrite (fold_set8_legal (fun _ _ => u) legal a Hnd Ha).
    - rewrite (fold_set8_legal (fun _ x => x / sum) legal a Hnd Ha strat1 Hlen1).
      now rewrite (Hs1_legal a Ha). }
  assert (Hpos : forall a, 0 <= pos a) by (intros a; apply Math_max_lb_l).
  destruct (normalized_over_legal legal pos out sum Hne Hpos Hsum Hout_legal)
    as [Hnn Hone].
  split; [exact Hout_len |]. split; [exact Hout_other |].
  split; [exact Hnn |]. split; [exact Hone |].
  intros a Ha.
  change (Trainer.at8 out a
          == (if Qle_bool total Engine.tiny
              then 1 / inject_Z (Z.of_nat (length legal))
              else pos a / total)).
  rewrite (Hout_legal a Ha).
  assert (Hb : Qle_bool sum Engine.tiny = Qle_bool total Engine.tiny).
  { case_qle sum Engine.tiny; symmetry.
    - apply Qle_bool_iff. lra.
    - apply Qle_bool_false. lra. }
  rewrite Hb. destruct (Qle_bool total Engine.tiny).
  - subst u. rewrite Hmax. reflexivity.
  - rewrite Hsum. reflexivity.
Qed.

Lemma currentStrategy_distribution_witness :
  List.NoDup [FOLD; CALL] /\ [FOLD; CALL] <> [] /\
  sum_over [FOLD; CALL] (Trainer.currentStrategy river_node [FOLD; CALL]) == 1.
Proof.
  assert (Hnd : List.NoDup [FOLD; CALL]).
  { repeat constructor; cbn; intuition discriminate. }
  split; [exact Hnd |]. split; [discriminate |].
  exact (proj1 (proj2 (proj2 (proj2
    (currentStrategy_distribution river_node [FOLD; CALL] Hnd
       ltac:(discriminate)))))).
Defined.

(** ** The preflop mix of the trainer *)

Lemma normalizeWeights_spec (weights : list Q) (legal : list Action) :
  List.NoDup legal ->
  legal <> [] ->
  length weights = 8%nat ->
  let out := Trainer.normalizeWeights weights legal in
  length out = 8%nat /\
  (forall a, ~ In a legal -> Trainer.at8 out a = Trainer.at8 weights a) /\
  (forall a, In a legal -> 0 <= Trainer.at8 out a) /\
  sum_over legal out == 1.
Proof.
  intros Hnd Hne Hlen out. subst out. unfold Trainer.normalizeWeights.
  cbv zeta.
  set (pos := fun a => Math_max 0 (Trainer.at8 weights a)).
  set (sum := fold_left (fun acc a => acc + Math_max 0 (Trainer.at8 weights a))
                legal 0).
  set (u := 1 / Math_max 1 (inject_Z (Z.of_nat (length legal)))).
  set (out := if Qle_bool sum Engine.tiny
              then fold_left (fun w a => Trainer.set8 w a u) legal weights
              else fold_left
                     (fun w a =>
                        Trainer.set8 w a (Math_max 0 (Trainer.at8 w a) / sum))
                     legal weights).
  assert (Hsum : sum == Engine.sumQ (map pos legal)).
  { transitivity (0 + Engine.sumQ (map pos legal));
      [exact (fold_plus_sumQ pos legal 0) | ring]. }
  assert (Hout_len : length out = 8%nat).
  { subst out. destruct (Qle_bool sum Engine.tiny).
    - now rewrite (fold_set8_length (fun _ _ => u)).
    - now rewrite (fold_set8_length (fun _ x => Math_max 0 x / sum)). }
  assert (Hout_other : forall a, ~ In a legal ->
            Trainer.at8 out a = Trainer.at8 weights a).
  { intros a Ha. subst out. destruct (Qle_bool sum Engine.tiny).
    - now rewrite (fold_set8_other (fun _ _ => u) legal a Ha).
    - now rewrite (fold_set8_other (fun _ x => Math_max 0 x / sum) legal a Ha). }
  assert (Hout_legal : forall a, In a legal ->
            Trainer.at8 out a
            = if Qle_bool sum Engine.tiny then u else pos a / sum).
  { intros a Ha. subst out. destruct (Qle_bool sum Engine.tiny).
    - now rewrite (fold_set8_legal (fun _ _ => u) legal a Hnd Ha).
    - now rewrite (fold_set8_legal (fun _ x => Math_max 0 x / sum) legal a
                     Hnd Ha weights Hlen). }
  assert (Hpos : forall a, 0 <= pos a) by (intros a; apply Math_max_lb_l).
  destruct (normalized_over_legal legal pos out sum Hne Hpos Hsum Hout_legal)
    as [Hnn Hone].
  change (length out = 8%nat /\
          (forall a, ~ In a legal -> Trainer.at8 out a = Trainer.at8 weights a) /\
          (forall a, In a legal -> 0 <= Trainer.at8 out a) /\
          sum_over legal out == 1).
  repeat split; assumption.
Qed.

(** A guarded assignment [if (legal.includes(x)) w[x] = v] leaves the
    entries of the other actions, and keeps the entries off [legal]. *)
Lemma guarded_set8 (legal : list Action) (w : list Q) (x : Action) (v : Q)
  (guard : bool) :
  (guard = true -> In x legal) ->
  let w' := if guard then Trainer.set8 w x v else w in
  length w' = length w /\
  (forall a, ~ In a legal -> Trainer.at8 w' a = Trainer.at8 w a).
Proof.
  intros Hg w'. subst w'. destruct guard.
  - split; [apply length_set8 |].
    intros a Ha. apply at8_set8_ne. intros ->. apply Ha. now apply Hg.
  - split; reflexivity.
Qed.

(** X19.  The preflop mix is a probability vector over the legal actions:
    for a hand of two cards and distinct legal actions, at least one,
    [buildPreflopMix] returns an array of eight weights that is zero off
    [legal], non-negative on it and of total 1, whatever the strength, the
    amount to call and the raise count.  A hand of fewer than two cards
    makes it fail. *)
Theorem buildPreflopMix_distribution (hand : list card)
  (legal : list Action) (hs toCall : Q) (raises : Z) :
  (2 <= length hand)%nat ->
  List.NoDup legal ->
  legal <> [] ->
  exists mix,
    Trainer.buildPreflopMix hand legal hs toCall raises = Some mix /\
    length mix = 8%nat /\
    (forall a, ~ In a legal -> Trainer.at8 mix a = 0) /\
    (forall a, In a legal -> 0 <= Trainer.at8 mix a) /\
    sum_over legal mix == 1.
Proof.
  intros Hhand Hnd Hne.
  destruct hand as [| c1 [| c2 hand]]; try (cbn in Hhand; lia).
  unfold Trainer.buildPreflopMix.
  destruct (Trainer.preflopTier (c1 :: c2 :: hand)) as [tier |] eqn:Htier;
    [| discriminate Htier].
  cbv zeta.
  set (triple := if negb _ then _ else _).
  destruct triple as [[raise0 call] passive0].
  set (pair := if Qlt_bool hs 0.42 then _ else _).
  destruct pair as [raise passive].
  eexists. split; [reflexivity |].
  set (w0 := replicate 8 0).
  pose proof (fun x => proj1 (includes_action_In legal x)) as Hinc.
  set (g1 := includes_action legal RAISE_HALF) in *.
  set (g2 := includes_action legal RAISE_POT) in *.
  set (g3 := includes_action legal CALL) in *.
  set (g4 := includes_action legal CHECK) in *.
  set (g5 := includes_action legal FOLD) in *.
  set (g6 := includes_action legal ALL_IN) in *.
  destruct (guarded_set8 legal w0 RAISE_HALF
              (raise * (if g2 then 0.85 else 1)) g1 (Hinc RAISE_HALF))
    as [L1 O1].
  set (w1 := if g1 then _ else w0) in *.
  destruct (guarded_set8 legal w1 RAISE_POT
              (raise * (if g1 then 0.15 else 1)) g2 (Hinc RAISE_POT))
    as [L2 O2].
  set (w2 := if g2 then _ else w1) in *.
  destruct (guarded_set8 legal w2 CALL call g3 (Hinc CALL)) as [L3 O3].
  set (w3 := if g3 then _ else w2) in *.
  destruct (guarded_set8 legal w3 CHECK passive g4 (Hinc CHECK)) as [L4 O4].
  set (w4 := if g4 then _ else w3) in *.
  assert (Hg5 : g5 && negb g4 = true -> In FOLD legal).
  { intros H. apply andb_true_iff in H. apply (Hinc FOLD). tauto. }
  destruct (guarded_set8 legal w4 FOLD passive (g5 && negb g4) Hg5)
    as [L5 O5].
  set (w5 := if g5 && negb g4 then _ else w4) in *.
  destruct (guarded_set8 legal w5 ALL_IN (if Qlt_bool 0.80 hs then 0.06 else 0)
              g6 (Hinc ALL_IN)) as [L6 O6].
  set (w6 := if g6 then _ else w5) in *.
  assert (Hlen : length w6 = 8%nat).
  { rewrite L6, L5, L4, L3, L2, L1. reflexivity. }
  destruct (normalizeWeights_spec w6 legal Hnd Hne Hlen)
    as (N1 & N2 & N3 & N4).
  split; [exact N1 |]. split; [| split; [exact N3 | exact N4]].
  intros a Ha. rewrite (N2 a Ha).
  rewrite (O6 a Ha), (O5 a Ha), (O4 a Ha), (O3 a Ha), (O2 a Ha), (O1 a Ha).
  apply at8_replicate.
Qed.

Lemma buildPreflopMix_distribution_witness :
  (2 <= length ["As"; "Ks"]%string)%nat /\
  List.NoDup [FOLD; CALL; RAISE_HALF; RAISE_POT; ALL_IN] /\
  [FOLD; CALL; RAISE_HALF; RAISE_POT; ALL_IN] <> [] /\
  exists mix,
    Trainer.buildPreflopMix ["As"; "Ks"]%string
      [FOLD; CALL; RAISE_HALF; RAISE_POT; ALL_IN] 0.67 1 0 = Some mix /\
    sum_over [FOLD; CALL; RAISE_HALF; RAISE_POT; ALL_IN] mix == 1.
Proof.
  assert (Hnd : List.NoDup [FOLD; CALL; RAISE_HALF; RAISE_POT; ALL_IN]).
  { repeat constructor; cbn; intuition discriminate. }
  split; [cbn; lia |]. split; [exact Hnd |]. split; [discriminate |].
  destruct (buildPreflopMix_distribution ["As"; "Ks"]%string
              [FOLD; CALL; RAISE_HALF; RAISE_POT; ALL_IN] 0.67 1 0
              ltac:(cbn; lia) Hnd ltac:(discriminate))
    as (mix & Hmix & _ & _ & _ & Hsum).
  exists mix. split; [exact Hmix | exact Hsum].
Defined.

(** X20.  The preflop tier does not depend on the order of the two hole
    cards, a pocket pair is never trash, and a hand of fewer than two
    cards has no tier. *)
Theorem preflopTier_symmetric (c1 c2 : card) (rest rest' : list card) :
  Trainer.preflopTier (c1 :: c2 :: rest)
  = Trainer.preflopTier (c2 :: c1 :: rest') /\
  (Trainer.rankValue c1 = Trainer.rankValue c2 ->
   Trainer.preflopTier (c1 :: c2 :: rest) <> Some Trainer.trash) /\
  Trainer.preflopTier [] = None /\
  Trainer.preflopTier [c1] = None.
Proof.
  split; [| split; [| split; reflexivity]].
  - unfold Trainer.preflopTier. cbv zeta.
    rewrite (Z.max_comm (Trainer.rankValue c2)).
    rewrite (Z.min_comm (Trainer.rankValue c2)).
    rewrite (Z.eqb_sym (Trainer.rankValue c2)).
    assert (Hs : bool_decide (String.get 1 c2 = String.get 1 c1)
                 = bool_decide (String.get 1 c1 = String.get 1 c2)).
    { apply bool_decide_ext. split; congruence. }
    rewrite Hs. reflexivity.
  - intros Heq. unfold Trainer.preflopTier. cbv zeta.
    apply Z.eqb_eq in Heq. rewrite Heq.
    repeat match goal with
           | |- context [if ?c then _ else _] => destruct c
           end; discriminate.
Qed.

(** ** Trainer states *)

Lemma trainer_applyAction_chips (cfg : Config) (s : HandState) (a : Action) :
  chips (Trainer.applyAction cfg s a) == chips s.
Proof.
  unfold Trainer.applyAction.
  set (tc := Math_max 0 (currentBet s - get2 (commit s) (toAct s))).
  destruct (action_eqb a CALL && Qle_bool tc eps) eqn:Hnorm.
  - unfold chips; simpl. reflexivity.
  - destruct a; try (unfold chips; simpl; reflexivity);
      cbv zeta;
      repeat match goal with
             | |- context [if ?c then _ else _] => destruct c
             end;
      unfold chips; simpl;
      eapply chips_pay; reflexivity.
Qed.

Lemma trainer_advanceStreet_fields (st : HandState) (fb : list card) :
  let st' := Trainer.advanceStreet st fb in
  chips st' = chips st /\ streetIdx st' = (streetIdx st + 1)%nat /\
  terminal st' = terminal st /\ acted st' = (false, false).
Proof.
  unfold Trainer.advanceStreet. cbv zeta.
  repeat match goal with
         | |- context [if ?c then _ else _] => destruct c
         end; repeat split.
Qed.

Lemma trainer_iter_advance (fb : list card) (k : nat) (st : HandState) :
  let st' := Nat.iter k (fun s => Trainer.advanceStreet s fb) st in
  chips st' = chips st /\ streetIdx st' = (streetIdx st + k)%nat /\
  terminal st' = terminal st.
Proof.
  induction k as [| k IH]; cbv zeta.
  - change (Nat.iter 0 (fun s => Trainer.advanceStreet s fb) st) with st.
    repeat split; try reflexivity; lia.
  - change (Nat.iter (S k) (fun s => Trainer.advanceStreet s fb) st)
      with (Trainer.advanceStreet
              (Nat.iter k (fun s => Trainer.advanceStreet s fb) st) fb).
    destruct IH as (Hc & Hi & Ht).
    destruct (trainer_advanceStreet_fields
                (Nat.iter k (fun s => Trainer.advanceStreet s fb) st) fb)
      as (Hc' & Hi' & Ht' & _).
    cbv zeta in *. rewrite Hc', Hi', Ht'. repeat split; try assumption. lia.
Qed.

Lemma trainer_advance_to_river_chips (st : HandState) (fb : list card) :
  chips (Trainer.advance_to_river st fb) = chips st.
Proof.
  unfold Trainer.advance_to_river. destruct (terminal st); [reflexivity |].
  apply trainer_iter_advance.
Qed.

Lemma trainer_progress_chips (fb : list card) (n : nat) :
  forall st, chips (Trainer.progress_loop n st fb) = chips st.
Proof.
  induction n as [| n IH]; intros st; cbn [Trainer.progress_loop];
    repeat match goal with
           | |- context [if ?c then _ else _] => destruct c
           end;
    try reflexivity;
    try (rewrite IH);
    try (apply trainer_advance_to_river_chips);
    try (apply trainer_advanceStreet_fields);
    try (change (chips (set_winner (set_terminal ?s true) (-1)))
           with (chips s); apply trainer_advance_to_river_chips).
Qed.

Lemma trainer_reachable_chips (cfg : Config) (fb : list card)
  (st : HandState) :
  trainer_reachable cfg fb st -> chips st == 2 * START_STACK cfg.
Proof.
  intros Hreach. induction Hreach as [| st a _ IH | st _ IH].
  - apply chips_initial.
  - rewrite trainer_applyAction_chips. exact IH.
  - unfold Trainer.maybeProgressState. rewrite trainer_progress_chips.
    exact IH.
Qed.

(** X21.  The trainer plays a zero-sum game: in every state reached from
    the blinds by [applyAction] and [maybeProgressState] the pot and the
    two stacks add up to twice the starting stack, and, the big blind not
    being zero, the terminal utilities of the two seats add up to zero,
    whoever wins. *)
Theorem trainer_utility_zero_sum (evalHand : list (option card) -> Z)
  (cfg : Config) (ctx : Trainer.HandContext) (st : HandState) :
  ~ BIG_BLIND cfg == 0 ->
  trainer_reachable cfg (Trainer.fullBoard ctx) st ->
  pot st + fst (stack st) + snd (stack st) == 2 * START_STACK cfg /\
  Trainer.terminalUtility evalHand cfg ctx st Seat0
  + Trainer.terminalUtility evalHand cfg ctx st Seat1 == 0.
Proof.
  intros Hbb Hreach.
  pose proof (trainer_reachable_chips cfg _ st Hreach) as Hchips.
  unfold chips in Hchips. split; [exact Hchips |].
  unfold Trainer.terminalUtility. cbv zeta.
  destruct (Trainer.resolveWinner evalHand ctx st =? 0)%Z;
    [| destruct (Trainer.resolveWinner evalHand ctx st =? 1)%Z];
    cbn [get2 fst snd]; field_simplify_eq; try exact Hbb; lra.
Qed.

Lemma trainer_utility_zero_sum_witness :
  ~ BIG_BLIND default_config == 0 /\
  trainer_reachable default_config (Trainer.fullBoard river_ctx)
    (Trainer.applyAction default_config
       (Engine.initialState default_config) FOLD) /\
  Trainer.terminalUtility count_evaluator default_config river_ctx
    (Trainer.applyAction default_config
       (Engine.initialState default_config) FOLD) Seat0
  + Trainer.terminalUtility count_evaluator default_config river_ctx
      (Trainer.applyAction default_config
         (Engine.initialState default_config) FOLD) Seat1 == 0.
Proof.
  assert (Hbb : ~ BIG_BLIND default_config == 0) by (cbn; lra).
  assert (Hr : trainer_reachable default_config (Trainer.fullBoard river_ctx)
                 (Trainer.applyAction default_config
                    (Engine.initialState default_config) FOLD))
    by (apply treach_action, treach_blinds).
  split; [exact Hbb |]. split; [exact Hr |].
  exact (proj2 (trainer_utility_zero_sum count_evaluator default_config
                  river_ctx _ Hbb Hr)).
Defined.

Lemma trainer_needs_after_advance (st : HandState) (fb : list card) :
  Trainer.needsStreetAdvance (Trainer.advanceStreet st fb) = false.
Proof.
  unfold Trainer.needsStreetAdvance. cbv zeta.
  destruct (trainer_advanceStreet_fields st fb) as (_ & _ & _ & Hact).
  cbv zeta in Hact. rewrite Hact.
  cbn [fst snd]. now rewrite andb_false_r.
Qed.

(** A state that [maybeProgressState] does not move through a street
    advance is left, by any number of repetitions, in a state that a
    further call returns as it is; that state is terminal, or needs no
    street advance, or lies past the river. *)
Lemma progress_fixed_base (fb : list card) (st : HandState) (n : nat) :
  terminal st = true \/ Trainer.bettingClosedAllIn st = true \/
  Trainer.needsStreetAdvance st = false ->
  let r := Trainer.progress_loop n st fb in
  Trainer.progress_loop 3 r fb = r /\
  (terminal r = true \/ Trainer.needsStreetAdvance r = false \/
   (3 < streetIdx r)%nat).
Proof.
  intros Hcase.
  assert (Hshape : Trainer.progress_loop n st fb
    = if terminal st then st
      else if Trainer.bettingClosedAllIn st then
        let st1 := Trainer.advance_to_river st fb in
        if Nat.eqb (streetIdx st1) 3
        then set_winner (set_terminal st1 true) (-1) else st1
      else st).
  { destruct n; cbn [Trainer.progress_loop];
      destruct (terminal st) eqn:Ht; try reflexivity;
      destruct (Trainer.bettingClosedAllIn st) eqn:Ha; try reflexivity;
      destruct Hcase as [H | [H | H]]; try discriminate;
      rewrite H; reflexivity. }
  cbv zeta. rewrite Hshape. clear Hshape.
  destruct (terminal st) eqn:Ht.
  - split; [| now left]. cbn [Trainer.progress_loop]. now rewrite Ht.
  - destruct (Trainer.bettingClosedAllIn st) eqn:Ha.
    + cbv zeta.
      destruct (Nat.eqb_spec (streetIdx (Trainer.advance_to_river st fb)) 3)
        as [H3 | H3].
      * split; [reflexivity | now left].
      * assert (Hidx : (3 < streetIdx st)%nat).
        { unfold Trainer.advance_to_river in H3. rewrite Ht in H3.
          destruct (trainer_iter_advance fb (3 - streetIdx st) st)
            as (_ & Hi & _).
          cbv zeta in Hi. rewrite Hi in H3. lia. }
        assert (Hsame : Trainer.advance_to_river st fb = st).
        { unfold Trainer.advance_to_river. rewrite Ht.
          replace (3 - streetIdx st)%nat with 0%nat by lia. reflexivity. }
        rewrite Hsame in *. split; [| right; now right].
        cbn [Trainer.progress_loop]. rewrite Ht, Ha, Hsame.
        apply Nat.eqb_neq in H3. now rewrite H3.
    + destruct Hcase as [H | [H | H]]; try discriminate.
      split; [| right; now left].
      cbn [Trainer.progress_loop]. now rewrite Ht, Ha, H.
Qed.

Lemma progress_loop_S (n : nat) (st : HandState) (fb : list card) :
  Trainer.progress_loop (S n) st fb
  = if terminal st then st
    else if Trainer.bettingClosedAllIn st then
      let st1 := Trainer.advance_to_river st fb in
      if Nat.eqb (streetIdx st1) 3
      then set_winner (set_terminal st1 true) (-1) else st1
    else if Trainer.needsStreetAdvance st then
      if (streetIdx st <? 3)%nat
      then Trainer.progress_loop n (Trainer.advanceStreet st fb) fb
      else set_winner (set_terminal st true) (-1)
    else st.
Proof. reflexivity. Qed.

(** X22.  [maybeProgressState] is idempotent: running it on the state it
    returned changes nothing, so the repeated calls of the training and
    evaluation loops are harmless.  The state it returns is terminal, or
    needs no street advance, or lies past the river. *)
Theorem maybeProgressState_idempotent (st : HandState) (fb : list card) :
  let st' := Trainer.maybeProgressState st fb in
  Trainer.maybeProgressState st' fb = st' /\
  (terminal st' = true \/ Trainer.needsStreetAdvance st' = false \/
   (3 < streetIdx st')%nat).
Proof.
  cbv zeta. unfold Trainer.maybeProgressState.
  destruct (terminal st) eqn:Ht;
    [apply (progress_fixed_base fb st 3); now left |].
  destruct (Trainer.bettingClosedAllIn st) eqn:Ha;
    [apply (progress_fixed_base fb st 3); right; now left |].
  destruct (Trainer.needsStreetAdvance st) eqn:Hn;
    [| apply (progress_fixed_base fb st 3); right; now right].
  rewrite (progress_loop_S 2 st fb).
  rewrite Ht, Ha, Hn.
  destruct (streetIdx st <? 3)%nat.
  - apply (progress_fixed_base fb (Trainer.advanceStreet st fb) 2).
    right. right. apply trainer_needs_after_advance.
  - split; [reflexivity | now left].
Qed.

(** ** The equity cache *)

Section EquityCache.

Variable evalHand : list (option card) -> Z.

(** X23.  Equity estimates are memoised: a call of [estimateHsCached]
    leaves a store on which the same call returns the same value without
    drawing a number or touching the store, and the same holds for
    [evalStrengthRandomRange]; neither changes the node table.  A hand
    that does not hold two cards is valued 0.5 and not cached. *)
Theorem estimateHsCached_memoised (ctx : Trainer.HandContext)
  (st : HandState) (player : Seat) (trials : nat) (heroHand board : list card)
  (sto : Trainer.Store) :
  let r := Trainer.estimateHsCached evalHand ctx st player trials sto in
  let e := Trainer.evalStrengthRandomRange evalHand heroHand board trials sto in
  Trainer.estimateHsCached evalHand ctx st player trials (snd r) = r /\
  Trainer.evalStrengthRandomRange evalHand heroHand board trials (snd e) = e /\
  Trainer.nodeMap (snd r) = Trainer.nodeMap sto /\
  (length heroHand <> 2%nat -> e = (0.5, sto)).
Proof using Type.
  cbv zeta. split; [| split; [| split]].
  - unfold Trainer.estimateHsCached. cbv zeta.
    set (key := _ +:+ "|" +:+ _ +:+ "|" +:+ _).
    destruct (Trainer.equityCache sto !! key) as [v |] eqn:Hhit.
    + cbn [snd]. now rewrite Hhit.
    + destruct (Trainer.evalStrengthRandomRange evalHand _ _ trials sto)
        as [hs sto1].
      cbn [snd Trainer.set_equityCache Trainer.equityCache].
      now rewrite lookup_insert_eq.
  - unfold Trainer.evalStrengthRandomRange.
    destruct (negb (length heroHand =? 2)%nat) eqn:Hlen; [reflexivity |].
    cbv zeta.
    set (key := _ +:+ "|" +:+ _ +:+ "|t=" +:+ _).
    destruct (Trainer.equityCache sto !! key) as [v |] eqn:Hhit.
    + cbn [snd]. now rewrite Hhit.
    + destruct (Trainer.trial_loop evalHand trials heroHand board _ _ _)
        as [tl s'].
      cbn [snd Trainer.equityCache].
      now rewrite lookup_insert_eq.
  - apply estimateHsCached_nodeMap.
  - intros Hlen. unfold Trainer.evalStrengthRandomRange.
    apply Nat.eqb_neq in Hlen. now rewrite Hlen.
Qed.

End EquityCache.

(** ** The exported policy *)

Lemma toFixed8_bounds (x : Q) :
  0 <= x <= 1 ->
  0 <= toFixed 8 x <= 1 /\
  x - 0.000000005 <= toFixed 8 x <= x + 0.000000005.
Proof.
  intros [Hx0 Hx1]. unfold toFixed. cbv zeta.
  assert (Hneg : Qlt_bool x 0 = false) by (now apply Qlt_bool_false).
  rewrite Hneg.
  change (Z.to_pos (10 ^ Z.of_nat 8)) with 100000000%positive.
  change (inject_Z (10 ^ Z.of_nat 8)) with 100000000.
  assert (Habs : Qabs x * 100000000 + (1 # 2) == x * 100000000 + (1 # 2))
    by (rewrite (Qabs_pos x Hx0); reflexivity).
  rewrite Habs.
  set (y := x * 100000000 + (1 # 2)).
  pose proof (Qfloor_le y) as Hlo.
  pose proof (Qlt_floor y) as Hhi.
  assert (Hn0 : (0 <= Qfloor y)%Z).
  { change 0%Z with (Qfloor 0). apply Qfloor_resp_le. subst y. lra. }
  assert (Hn1 : (Qfloor y <= 100000000)%Z).
  { change 100000000%Z with (Qfloor (100000000 + (1 # 2))).
    apply Qfloor_resp_le. subst y. lra. }
  rewrite inject_Z_plus in Hhi.
  assert (Hq : Qmake (Qfloor y) 100000000
               == inject_Z (Qfloor y) * (1 # 100000000)).
  { unfold Qeq, Qmult, inject_Z. simpl. lia. }
  rewrite Hq.
  rewrite Zle_Qle in Hn0. rewrite Zle_Qle in Hn1.
  set (m := inject_Z (Qfloor y)) in *. subst y.
  change (inject_Z 0) with 0 in Hn0.
  change (inject_Z 100000000) with 100000000 in Hn1.
  change (inject_Z 1) with 1 in Hhi.
  repeat split; lra.
Qed.

Lemma sumQ_rounded8 (l : list Q) :
  Forall (fun x => 0 <= x <= 1) l ->
  Forall (fun x => 0 <= x <= 1) (map (toFixed 8) l) /\
  Engine.sumQ l - inject_Z (Z.of_nat (length l)) * 0.000000005
  <= Engine.sumQ (map (toFixed 8) l)
  <= Engine.sumQ l + inject_Z (Z.of_nat (length l)) * 0.000000005.
Proof.
  induction 1 as [| x l Hx Hl IH].
  - split; [constructor |]. vm_compute. split; discriminate.
  - destruct IH as [IHf IHs].
    destruct (toFixed8_bounds x Hx) as [Hr Hd].
    change (map (toFixed 8) (x :: l)) with (toFixed 8 x :: map (toFixed 8) l).
    split; [constructor; assumption |].
    rewrite !sumQ_cons.
    change (length (x :: l)) with (S (length l)).
    rewrite Nat2Z.inj_succ. unfold Z.succ. rewrite inject_Z_plus.
    change (inject_Z 1) with 1.
    set (k := inject_Z (Z.of_nat (length l))) in *.
    lra.
Qed.

(** An array of eight entries read by action. *)
Lemma eight_entries (l : list Q) :
  length l = 8%nat ->
  Engine.sumQ l == sum_over all_actions l /\
  (forall x, In x l -> exists a, Trainer.at8 l a = x).
Proof.
  intros Hlen.
  destruct l as [| x0 [| x1 [| x2 [| x3 [| x4 [| x5 [| x6 [| x7 [| ? ?]]]]]]]]];
    try discriminate.
  split; [reflexivity |].
  intros x Hx. cbn in Hx.
  destruct Hx as [<- | [<- | [<- | [<- | [<- | [<- | [<- | [<- | []]]]]]]]].
  - now exists FOLD.
  - now exists CHECK.
  - now exists CALL.
  - now exists BET_HALF.
  - now exists BET_POT.
  - now exists RAISE_HALF.
  - now exists RAISE_POT.
  - now exists ALL_IN.
Qed.

Lemma at8_map (f : Q -> Q) (l : list Q) (a : Action) :
  length l = 8%nat -> Trainer.at8 (map f l) a = f (Trainer.at8 l a).
Proof.
  intros Hlen. unfold Trainer.at8.
  change (map f l) with (f <$> l). rewrite list_lookup_fmap.
  pose proof (action_index_lt a) as Hlt.
  destruct (lookup_lt_is_Some_2 l (action_index a) ltac:(lia)) as [x Hx].
  rewrite Hx. reflexivity.
Qed.

(** Entries that vanish off the seen actions add up over the seen ones. *)
Lemma sum_over_filter (seen : Action -> bool) (arr : list Q)
  (l : list Action) :
  (forall a, seen a = false -> Trainer.at8 arr a == 0) ->
  sum_over l arr == sum_over (filter (fun a => seen a) l) arr.
Proof.
  intros Hz. unfold sum_over. induction l as [| a l IH]; [reflexivity |].
  cbn [map]. rewrite sumQ_cons.
  destruct (seen a) eqn:Hs.
  - rewrite filter_cons_True by (now rewrite Hs).
    cbn [map]. rewrite sumQ_cons, IH. reflexivity.
  - rewrite filter_cons_False by (now rewrite Hs).
    rewrite IH, (Hz a Hs). ring.
Qed.

Lemma export_fold (seen : Action -> bool) (v : Action -> Q)
  (l : list Action) :
  forall probs sum,
    fold_left (fun '(probs, sum) a =>
                 if seen a then (Trainer.set8 probs a (v a), sum + v a)
                 else (probs, sum))
              l (probs, sum)
    = (fold_left (fun w a => Trainer.set8 w a ((fun a _ => v a) a (Trainer.at8 w a)))
         (filter (fun a => seen a) l) probs,
       fold_left (fun acc a => acc + v a) (filter (fun a => seen a) l) sum).
Proof.
  induction l as [| a l IH]; intros probs sum; [reflexivity |].
  cbn [fold_left]. destruct (seen a) eqn:Hs.
  - rewrite filter_cons_True by (now rewrite Hs).
    cbn [fold_left]. apply IH.
  - rewrite filter_cons_False by (now rewrite Hs). apply IH.
Qed.

Lemma In_filter_seen (seen : Action -> bool) (a : Action) :
  In a (filter (fun a => seen a) all_actions) <-> seen a = true.
Proof.
  rewrite <- list_elem_of_In, list_elem_of_filter, Is_true_true.
  split; [tauto |]. intros H. split; [exact H |].
  apply list_elem_of_In. destruct a; cbn; tauto.
Qed.

Lemma NoDup_filter_seen (seen : Action -> bool) :
  List.NoDup (filter (fun a => seen a) all_actions).
Proof.
  apply NoDup_ListNoDup. apply NoDup_filter.
  apply NoDup_ListNoDup. repeat constructor; cbn; intuition discriminate.
Qed.

Lemma Qeq_refl_eq (x y : Q) : x = y -> x == y.
Proof. intros ->. reflexivity. Qed.

Lemma export_probs_spec (node : Trainer.Node) :
  let seen := fun a =>
    default false (Trainer.legalSeen node !! action_index a) in
  let L := filter (fun a => seen a) all_actions in
  (L = [] -> Trainer.export_probs node = None) /\
  (L <> [] ->
   exists pre,
     Trainer.export_probs node = Some (map (toFixed 8) pre) /\
     length pre = 8%nat /\
     (forall a, In a L -> 0 <= Trainer.at8 pre a) /\
     sum_over L pre == 1 /\
     (forall a, seen a = false -> Trainer.at8 pre a == 0)).
Proof.
  intros seen L.
  set (v := fun a => Math_max 0 (Trainer.at8 (Trainer.strategySum node) a)).
  assert (Hv : forall a, 0 <= v a).
  { intros a. unfold v.
    destruct (Math_max_spec 0 (Trainer.at8 (Trainer.strategySum node) a))
      as [[H ->] | [_ ->]]; lra. }
  pose proof (export_fold seen v all_actions (replicate 8 0) 0) as E.
  fold L in E.
  set (probs := fold_left _ L (replicate 8 0)) in E.
  set (sum := fold_left _ L 0) in E.
  assert (Hsum : sum == Engine.sumQ (map v L)).
  { unfold sum. rewrite fold_plus_sumQ. ring. }
  assert (Hlen : length probs = 8%nat).
  { exact (fold_set8_length (fun a _ => v a) L (replicate 8 0)). }
  assert (Hin : forall a, In a L -> Trainer.at8 probs a = v a).
  { intros a Ha.
    exact (fold_set8_legal (fun a _ => v a) L a (NoDup_filter_seen seen) Ha
             (replicate 8 0) eq_refl). }
  assert (Hout : forall a, seen a = false -> Trainer.at8 probs a = 0).
  { intros a Ha.
    assert (Hnin : ~ In a L).
    { intros H. apply In_filter_seen in H. congruence. }
    rewrite <- (at8_replicate a).
    exact (fold_set8_other (fun a _ => v a) L a Hnin (replicate 8 0)). }
  assert (Hdef : Trainer.export_probs node
                 = if Qle_bool sum Engine.tiny then
                     match L with
                     | [] => None
                     | _ => Some (map (toFixed 8)
                              (fold_left (fun ps a => Trainer.set8 ps a
                                 ((fun _ _ => 1 / inject_Z (Z.of_nat (length L))) a (Trainer.at8 ps a))) L probs))
                     end
                   else Some (map (toFixed 8) (map (fun x => x / sum) probs))).
  { unfold Trainer.export_probs. cbv zeta.
    change (fold_left _ all_actions (replicate 8 0, 0))
      with (fold_left (fun '(probs, sum) a =>
                 if seen a then (Trainer.set8 probs a (v a), sum + v a)
                 else (probs, sum)) all_actions (replicate 8 0, 0)).
    rewrite E. reflexivity. }
  split.
  - intros HL. rewrite Hdef.
    assert (Hs0 : Qle_bool sum Engine.tiny = true).
    { apply Qle_bool_iff. rewrite Hsum, HL. vm_compute. discriminate. }
    rewrite Hs0, HL. reflexivity.
  - intros HL.
    set (pre := if Qle_bool sum Engine.tiny
                then fold_left (fun ps a => Trainer.set8 ps a
                       ((fun _ _ => 1 / inject_Z (Z.of_nat (length L))) a (Trainer.at8 ps a))) L probs
                else map (fun x => x / sum) probs).
    exists pre.
    assert (Hplen : length pre = 8%nat).
    { unfold pre. destruct (Qle_bool sum Engine.tiny).
      - rewrite <- Hlen.
        exact (fold_set8_length
                 (fun _ _ => 1 / inject_Z (Z.of_nat (length L))) L probs).
      - rewrite length_map. exact Hlen. }
    assert (Hpin : forall a, In a L ->
              Trainer.at8 pre a
              = if Qle_bool sum Engine.tiny
                then 1 / Math_max 1 (inject_Z (Z.of_nat (length L)))
                else v a / sum).
    { intros a Ha. unfold pre. destruct (Qle_bool sum Engine.tiny).
      - destruct (length_pos_Q L HL) as [_ ->].
        exact (fold_set8_legal
                 (fun _ _ => 1 / inject_Z (Z.of_nat (length L))) L a
                 (NoDup_filter_seen seen) Ha probs Hlen).
      - rewrite at8_map by exact Hlen. rewrite (Hin a Ha). reflexivity. }
    destruct (normalized_over_legal L v pre sum HL Hv Hsum Hpin) as [Hnn H1].
    split; [| split; [exact Hplen | split; [exact Hnn | split; [exact H1 |]]]].
    + rewrite Hdef. unfold pre. destruct (Qle_bool sum Engine.tiny);
        [| reflexivity].
      destruct L; [contradiction | reflexivity].
    + intros a Ha. unfold pre. destruct (Qle_bool sum Engine.tiny) eqn:Hs.
      * assert (Hnin : ~ In a L).
        { intros H. apply In_filter_seen in H. congruence. }
        transitivity (Trainer.at8 probs a);
          [| rewrite (Hout a Ha); reflexivity].
        apply Qeq_refl_eq.
        exact (fold_set8_other
                 (fun _ _ => 1 / inject_Z (Z.of_nat (length L))) L a Hnin
                 probs).
      * rewrite at8_map by exact Hlen. rewrite (Hout a Ha).
        assert (Hs' : ~ sum == 0).
        { intros H0. apply Qle_bool_false in Hs. rewrite H0 in Hs.
          revert Hs. vm_compute. discriminate. }
        field. exact Hs'.
Qed.

Lemma toFixed_zero (d : nat) (x : Q) : x == 0 -> toFixed d x == 0.
Proof.
  intros Hx. unfold toFixed. cbv zeta.
  assert (Hneg : Qlt_bool x 0 = false)
    by (apply Qlt_bool_false; rewrite Hx; lra).
  rewrite Hneg.
  assert (Hf : Qfloor (Qabs x * inject_Z (10 ^ Z.of_nat d) + (1 # 2)) = 0%Z).
  { rewrite Hx. change (Qabs 0) with 0.
    assert (E : 0 * inject_Z (10 ^ Z.of_nat d) + (1 # 2) == 1 # 2) by ring.
    rewrite E. reflexivity. }
  rewrite Hf. reflexivity.
Qed.

(** X24. [exportPolicy] keeps exactly the nodes at which some action was
    seen legal.  What it writes for such a node is an array of eight
    probabilities, each between 0 and 1, zero at every action never seen
    legal, and adding up to 1 within the rounding of [toFixed(8)]
    (at most 0.00000004). *)
Theorem exportPolicy_probabilities (m : gmap string Trainer.Node)
  (key : string) (node : Trainer.Node) :
  m !! key = Some node ->
  (Trainer.exportPolicy m !! key = None <->
   forall a, default false (Trainer.legalSeen node !! action_index a)
             = false) /\
  (forall probs,
     Trainer.exportPolicy m !! key = Some probs ->
     length probs = 8%nat /\
     Forall (fun x => 0 <= x <= 1) probs /\
     (forall a,
        default false (Trainer.legalSeen node !! action_index a) = false ->
        Trainer.at8 probs a == 0) /\
     1 - 0.00000004 <= Engine.sumQ probs <= 1 + 0.00000004).
Proof.
  intros Hm.
  assert (Hk : Trainer.exportPolicy m !! key = Trainer.export_probs node).
  { unfold Trainer.exportPolicy. rewrite lookup_omap, Hm. reflexivity. }
  rewrite Hk.
  pose proof (export_probs_spec node) as Hspec.
  set (seen := fun a =>
         default false (Trainer.legalSeen node !! action_index a)) in *.
  set (L := filter seen all_actions).
  assert (Hnone : L = [] -> Trainer.export_probs node = None)
    by exact (proj1 Hspec).
  assert (Hsome : L <> [] ->
            exists pre,
              Trainer.export_probs node = Some (map (toFixed 8) pre) /\
              length pre = 8%nat /\
              (forall a, In a L -> 0 <= Trainer.at8 pre a) /\
              sum_over L pre == 1 /\
              (forall a, seen a = false -> Trainer.at8 pre a == 0))
    by exact (proj2 Hspec).
  clear Hspec.
  assert (HinL : forall a, In a L <-> seen a = true)
    by exact (In_filter_seen seen).
  assert (Hfilter : forall arr,
            (forall a, seen a = false -> Trainer.at8 arr a == 0) ->
            sum_over all_actions arr == sum_over L arr)
    by exact (fun arr => sum_over_filter seen arr all_actions).
  clearbody L.
  assert (HL : L = [] <-> forall a, seen a = false).
  { split.
    - intros HL a. destruct (seen a) eqn:Hs; [| reflexivity].
      apply HinL in Hs. rewrite HL in Hs. destruct Hs.
    - intros Hall. destruct L as [| a l]; [reflexivity |].
      assert (Ha : In a (a :: l)) by now left.
      apply HinL in Ha. rewrite Hall in Ha. discriminate. }
  split.
  - split.
    + intros Hn. apply HL. destruct L as [| a l]; [reflexivity |].
      assert (Hne : a :: l <> []) by discriminate.
      destruct (Hsome Hne) as (pre & Hp & _). congruence.
    + intros Hall. apply Hnone. now apply HL.
  - intros probs Hp.
    assert (HLne : L <> []).
    { intros HL0. rewrite (Hnone HL0) in Hp. discriminate. }
    destruct (Hsome HLne) as (pre & Hpre & Hlen & Hnn & H1 & Hz).
    rewrite Hpre in Hp. injection Hp as <-.
    destruct (eight_entries pre Hlen) as [Hsum Hent].
    assert (Htot : Engine.sumQ pre == 1).
    { rewrite Hsum, (Hfilter pre Hz). exact H1. }
    assert (Hnn' : forall a, 0 <= Trainer.at8 pre a).
    { intros a. destruct (seen a) eqn:Hs.
      - apply Hnn. now apply HinL.
      - rewrite (Hz a Hs). lra. }
    assert (Hall : Forall (fun x => 0 <= x) pre).
    { apply List.Forall_forall. intros x Hx.
      destruct (Hent x Hx) as [a <-]. apply Hnn'. }
    assert (H01 : Forall (fun x => 0 <= x <= 1) pre).
    { apply List.Forall_forall. intros x Hx. split.
      - destruct (Hent x Hx) as [a <-]. apply Hnn'.
      - rewrite <- Htot. now apply sumQ_member_le. }
    destruct (sumQ_rounded8 pre H01) as [Hr Hs].
    rewrite Hlen in Hs. change (inject_Z (Z.of_nat 8)) with 8 in Hs.
    split; [now rewrite length_map |].
    split; [exact Hr |].
    split; [| lra].
    intros a Ha. rewrite at8_map by exact Hlen.
    apply toFixed_zero. exact (Hz a Ha).
Qed.

Lemma exportPolicy_probabilities_witness :
  ({[ "k"%string := visited_node ]} : gmap string Trainer.Node) !! "k"%string
  = Some visited_node /\
  forall probs,
    Trainer.exportPolicy {[ "k"%string := visited_node ]} !! "k"%string
    = Some probs ->
    1 - 0.00000004 <= Engine.sumQ probs <= 1 + 0.00000004.
Proof.
  assert (Hm : ({[ "k"%string := visited_node ]} : gmap string Trainer.Node)
               !! "k"%string = Some visited_node)
    by apply lookup_singleton_eq.
  split; [exact Hm |].
  intros probs Hp.
  exact (proj2 (proj2 (proj2
    (proj2 (exportPolicy_probabilities _ _ _ Hm) probs Hp)))).
Defined.

(** ** Termination of the traversal *)










Section TraversalReturns.

Variable evalHand : list (option card) -> Z.
Variable cfg : Config.
Variable trials : nat.



End TraversalReturns.






Section TrainingReturns.

Variable evalHand : list (option card) -> Z.
Variable cfg : Config.
Variable trials : nat.


End TrainingReturns.




